(** * cfst-paper-extractor scripts: worktree isolation, sandbox gate,
      checkpoint commits and the safe calculator

    A shallow embedding of the Python scripts under
    [.codex/skills/cfst-paper-extractor/scripts/] together with the
    properties they are expected to satisfy.

    Conventions.
    - A Python [str] is a [string]; a code point above 127 appears as the
      bytes of its encoding, all of which lie outside every ASCII class
      used by the scripts.
    - A [pathlib] path is a record (anchor, components), see [Module PyPath].
    - Everything a script asks of its environment (file system, git,
      clock, process table, child processes) is an event of [Module Sys];
      a script is a finite tree of such events, run against a handler. *)

From Stdlib Require Import ZArith QArith Qround List Ascii String Bool Lia
  DecimalString DecimalNat Sorted.
From stdpp Require Import base strings gmap list.

Local Open Scope string_scope.
#[local] Arguments String.append !s1 s2 : simpl nomatch.

(* ===================================================================== *)
(** * Python string operations used by the scripts *)
(* ===================================================================== *)

Module PyStr.

Definition in_range (lo hi : nat) (c : ascii) : bool :=
  (lo <=? nat_of_ascii c)%nat && (nat_of_ascii c <=? hi)%nat.

(** [str.isspace] on the ASCII range: TAB..CR, FS..US and the space. *)
Definition is_space (c : ascii) : bool :=
  in_range 9 13 c || in_range 28 32 c.

Definition is_digit (c : ascii) : bool := in_range 48 57 c.

Fixpoint all_chars (f : ascii -> bool) (s : string) : bool :=
  match s with
  | EmptyString => true
  | String c s' => f c && all_chars f s'
  end.

(** [s.lstrip(chars)], the character set given as a predicate. *)
Fixpoint lstrip_by (f : ascii -> bool) (s : string) : string :=
  match s with
  | EmptyString => EmptyString
  | String c s' => if f c then lstrip_by f s' else s
  end.

(** [s.rstrip(chars)]. *)
Fixpoint rstrip_by (f : ascii -> bool) (s : string) : string :=
  match s with
  | EmptyString => EmptyString
  | String c s' =>
      match rstrip_by f s' with
      | EmptyString => if f c then EmptyString else String c EmptyString
      | r => String c r
      end
  end.

(** [s.strip(chars)]. *)
Definition strip_by (f : ascii -> bool) (s : string) : string :=
  rstrip_by f (lstrip_by f s).

(** [s.strip()]. *)
Definition strip (s : string) : string := strip_by is_space s.

Fixpoint mem_char (c : ascii) (chars : string) : bool :=
  match chars with
  | EmptyString => false
  | String d chars' => Ascii.eqb c d || mem_char c chars'
  end.

(** [s.strip(chars)] with the character set given as a string. *)
Definition strip_chars (chars : string) (s : string) : string :=
  strip_by (fun c => mem_char c chars) s.

(** [s.startswith(p)]. *)
Definition startswith (p s : string) : bool := String.prefix p s.

(** [s.removeprefix(p)]. *)
Definition removeprefix (p s : string) : string :=
  if String.prefix p s
  then String.substring (String.length p) (String.length s - String.length p) s
  else s.

(** [s.replace(a, b)] for a one-character [a]. *)
Fixpoint replace_char (a : ascii) (b : string) (s : string) : string :=
  match s with
  | EmptyString => EmptyString
  | String c s' =>
      if Ascii.eqb c a then b +:+ replace_char a b s'
      else String c (replace_char a b s')
  end.

(** [s.split(sep)] for a one-character [sep]: never the empty list. *)
Fixpoint split_on (sep : ascii) (s : string) : list string :=
  match s with
  | EmptyString => [EmptyString]
  | String c s' =>
      if Ascii.eqb c sep then EmptyString :: split_on sep s'
      else match split_on sep s' with
           | [] => [String c EmptyString]
           | w :: ws => String c w :: ws
           end
  end.

(** [sep.join(parts)]. *)
Fixpoint join (sep : string) (parts : list string) : string :=
  match parts with
  | [] => EmptyString
  | [w] => w
  | w :: ws => w +:+ sep +:+ join sep ws
  end.

(** [s.count(c)]. *)
Fixpoint count_char (c : ascii) (s : string) : nat :=
  match s with
  | EmptyString => 0
  | String d s' => (if Ascii.eqb d c then 1 else 0) + count_char c s'
  end.

(** [a or b] on strings: the first operand unless it is empty. *)
Definition str_or (a b : string) : string :=
  if String.eqb a EmptyString then b else a.

(** The ASCII line boundaries of [str.splitlines]. *)
Definition is_linebreak (c : ascii) : bool :=
  in_range 10 13 c || in_range 28 30 c.

(** [s.splitlines()]: CR LF counts as one boundary and a final boundary
    opens no further line.  [after_cr] holds right after a CR. *)
Fixpoint splitlines_go (after_cr : bool) (s : string) : list string :=
  match s with
  | EmptyString => []
  | String c s' =>
      if after_cr && Ascii.eqb c "010" then splitlines_go false s'
      else if is_linebreak c then EmptyString :: splitlines_go (Ascii.eqb c "013") s'
      else match splitlines_go false s' with
           | [] => [String c EmptyString]
           | l :: ls => String c l :: ls
           end
  end.

Definition splitlines (s : string) : list string := splitlines_go false s.

(** [s.rpartition(c)[2]]: what follows the last [c], or all of [s]. *)
Fixpoint after_last (c : ascii) (s : string) : string :=
  match s with
  | EmptyString => EmptyString
  | String x s' =>
      if Nat.eqb (count_char c s') 0
      then if Ascii.eqb x c then s' else s
      else after_last c s'
  end.

(** [str(n)] for a non-negative integer. *)
Definition str_of_nat (n : nat) : string :=
  NilEmpty.string_of_uint (Nat.to_uint n).

End PyStr.

(* ===================================================================== *)
(** * git_worktree_isolation.py: [_sanitize_slug] *)
(* ===================================================================== *)

Module Slug.
Import PyStr.

(** The class [[A-Za-z0-9._-]] of the regular expression. *)
Definition is_safe (c : ascii) : bool :=
  in_range 65 90 c || in_range 97 122 c || in_range 48 57 c
  || mem_char c "._-".

(** The characters of [strip("-_.")]. *)
Definition is_sep (c : ascii) : bool := mem_char c "-_.".

(** [re.sub(r"[^A-Za-z0-9._-]+", "-", s)]: every maximal run of characters
    outside the class becomes one dash.  [in_run] tells whether the
    previous character already belonged to the run being replaced. *)
Fixpoint re_sub_unsafe (in_run : bool) (s : string) : string :=
  match s with
  | EmptyString => EmptyString
  | String c s' =>
      if is_safe c then String c (re_sub_unsafe false s')
      else if in_run then re_sub_unsafe true s'
      else String "-" (re_sub_unsafe true s')
  end.

Definition default_slug : string := "paper".

Definition _sanitize_slug (raw : string) : string :=
  let cleaned := re_sub_unsafe false (strip raw) in
  let cleaned := strip_by is_sep cleaned in
  if String.eqb cleaned EmptyString then default_slug else cleaned.

(** The description of [sanitizeIdentifier] read literally: characters
    outside the alphabet are dropped, separators are trimmed from both
    ends, and the default token stands in for an empty result. *)
Fixpoint drop_unsafe (s : string) : string :=
  match s with
  | EmptyString => EmptyString
  | String c s' => if is_safe c then String c (drop_unsafe s') else drop_unsafe s'
  end.

Definition sanitizeIdentifier_as_described (raw : string) : string :=
  let cleaned := strip_by is_sep (drop_unsafe raw) in
  if String.eqb cleaned EmptyString then default_slug else cleaned.

(** What "every maximal run of unsafe characters becomes one dash" means,
    stated on the input and output without reference to the scan: the
    input is cut into safe characters and non-empty unsafe runs, each run
    being followed by a safe character or by the end. *)
Inductive runs_collapsed : string -> string -> Prop :=
| rc_nil : runs_collapsed "" ""
| rc_safe c s t :
    is_safe c = true -> runs_collapsed s t ->
    runs_collapsed (String c s) (String c t)
| rc_run c u s t :
    is_safe c = false -> all_chars (fun d => negb (is_safe d)) u = true ->
    match s with EmptyString => True | String d _ => is_safe d = true end ->
    runs_collapsed s t ->
    runs_collapsed (String c (u +:+ s)) (String "-" t).

Definition first_char (s : string) : option ascii :=
  match s with EmptyString => None | String c _ => Some c end.

Fixpoint last_char (s : string) : option ascii :=
  match s with
  | EmptyString => None
  | String c EmptyString => Some c
  | String _ s' => last_char s'
  end.

(** [t] is [s] with separators trimmed at both ends: what was cut off is
    separators only, and what is left neither starts nor ends with one. *)
Definition trimmed_of (s t : string) : Prop :=
  exists pre post,
    s = pre +:+ t +:+ post /\
    all_chars is_sep pre = true /\ all_chars is_sep post = true /\
    (forall c, first_char t = Some c -> is_sep c = false) /\
    (forall c, last_char t = Some c -> is_sep c = false).

End Slug.

(* ===================================================================== *)
(** * pathlib: pure POSIX paths *)
(* ===================================================================== *)

Module PyPath.
Import PyStr.

(** A [PurePosixPath]: its root ([""], ["/"] or ["//"]) and its
    components, which are never empty and never ["."]. *)
Record Path := mkPath { root : string; parts : list string }.

Definition path_eqb (p q : Path) : bool :=
  String.eqb (root p) (root q) && bool_decide (parts p = parts q).

(** [posixpath.splitroot]: one leading slash, or three and more, give the
    root ["/"]; exactly two give ["//"]. *)
Definition splitroot (s : string) : string * string :=
  match s with
  | String "/" (String "/" (String "/" r)) => ("/", String "/" (String "/" r))
  | String "/" (String "/" r) => ("//", r)
  | String "/" r => ("/", r)
  | _ => ("", s)
  end.

Definition keep_part (x : string) : bool :=
  negb (String.eqb x "") && negb (String.eqb x ".").

(** [Path(s)]. *)
Definition of_str (s : string) : Path :=
  let (rt, rel) := splitroot s in
  mkPath rt (List.filter keep_part (split_on "/" rel)).

(** [str(p)] and [p.as_posix()]. *)
Definition to_str (p : Path) : string :=
  match root p, parts p with
  | EmptyString, [] => "."
  | rt, ps => rt +:+ join "/" ps
  end.

Definition as_posix (p : Path) : string := to_str p.

Definition is_absolute (p : Path) : bool := negb (String.eqb (root p) "").

(** [p / q]: an absolute right operand replaces the left one. *)
Definition joinpath (p q : Path) : Path :=
  if is_absolute q then q else mkPath (root p) (parts p ++ parts q).

(** [p / s] for a string operand. *)
Definition div (p : Path) (s : string) : Path := joinpath p (of_str s).

(** [p.parent]: a path without components is its own parent. *)
Definition parent (p : Path) : Path :=
  mkPath (root p) (List.removelast (parts p)).

(** [p.name]. *)
Definition name (p : Path) : string := List.last (parts p) "".

(** [p.parts]: the root counts as the first element. *)
Definition py_parts (p : Path) : list string :=
  if is_absolute p then root p :: parts p else parts p.

Fixpoint strip_prefix (pre l : list string) : option (list string) :=
  match pre, l with
  | [], _ => Some l
  | x :: pre', y :: l' => if String.eqb x y then strip_prefix pre' l' else None
  | _ :: _, [] => None
  end.

(** [p.relative_to(other)]: [None] stands for the [ValueError] raised when
    [other] is not [p] or one of its ancestors. *)
Definition relative_to (p other : Path) : option Path :=
  if String.eqb (root p) (root other) then
    match strip_prefix (parts other) (parts p) with
    | Some rest => Some (mkPath "" rest)
    | None => None
    end
  else None.

(** [p] is [r] or lies below it. *)
Definition under (r p : Path) : Prop :=
  root p = root r /\ parts r `prefix_of` parts p.

(** Canonical form of a path in a tree without symbolic links: every
    [".."] cancels the component before it, and at the root it is dropped
    ([posixpath.realpath] when no component is a link). *)
Fixpoint norm_go (acc : list string) (ps : list string) : list string :=
  match ps with
  | [] => List.rev acc
  | x :: ps' =>
      if String.eqb x ".." then norm_go (List.tl acc) ps'
      else norm_go (x :: acc) ps'
  end.

Definition normpath (p : Path) : Path := mkPath (root p) (norm_go [] (parts p)).

Definition has_dotdot (p : Path) : Prop := In ".." (parts p).

(** The paths [of_str] produces: one of the three roots, and components
    that are neither empty nor ["."] and hold no slash. *)
Definition wf_part (x : string) : Prop :=
  keep_part x = true /\ count_char "/" x = 0.

Definition wf_path (p : Path) : Prop :=
  (root p = "" \/ root p = "/" \/ root p = "//") /\ Forall wf_part (parts p).

End PyPath.

Notation "p // s" := (PyPath.div p s) (at level 40, left associativity).

(* ===================================================================== *)
(** * The environment of a script *)
(* ===================================================================== *)

Module Sys.
Import PyPath.

(** Exceptions the scripts raise or receive. *)
Inductive exn : Type :=
| ValueError (msg : string)
| FileNotFoundError (msg : string)
| OSError (msg : string).

(** [str(exc)]. *)
Definition exn_str (e : exn) : string :=
  match e with
  | ValueError m | FileNotFoundError m | OSError m => m
  end.

(** [subprocess.CompletedProcess] of a captured text run. *)
Record CompletedProcess := mkProc {
  returncode : Z;
  stdout : string;
  stderr : string
}.

(** The values of the flat records handed to [json.dumps]. *)
Inductive json_value : Type :=
| JNull
| JBool (b : bool)
| JInt (z : Z)
| JStr (s : string)
| JStrList (l : list string).

Definition json : Type := list (string * json_value).

(** One request to the environment, indexed by the type of its answer.
    File-system updates answer [None] on success and [Some exc] when the
    call raises. *)
Inductive Ev : Type -> Type :=
| Getcwd : Ev Path                                  (* Path.cwd() *)
| Getpid : Ev nat                                   (* os.getpid() *)
| Strftime (fmt : string) : Ev string               (* time.strftime(fmt) *)
| Resolve (p : Path) : Ev Path                      (* p.resolve() *)
| Exists (p : Path) : Ev bool                       (* p.exists() *)
| IsDir (p : Path) : Ev bool                        (* p.is_dir() *)
| IsFile (p : Path) : Ev bool                       (* p.is_file() *)
| MkdirP (p : Path) : Ev (option exn)               (* p.mkdir(parents=True, exist_ok=True) *)
| Rmtree (p : Path) : Ev (option exn)               (* shutil.rmtree(p) *)
| Unlink (p : Path) : Ev (option exn)               (* p.unlink() *)
| Copytree (src dst : Path) : Ev (option exn)       (* shutil.copytree(src, dst) *)
| Copy2 (src dst : Path) : Ev (option exn)          (* shutil.copy2(src, dst) *)
| Which (prog : string) : Ev (option string)        (* shutil.which(prog) *)
| RunCaptured (cmd : list string) : Ev CompletedProcess
    (* subprocess.run(cmd, check=False, text=True, capture_output=True) *)
| RunInherit (cmd : list string) : Ev Z
    (* subprocess.run(cmd, check=False).returncode *)
| Print (s : string) : Ev unit                      (* print(s) *)
| PrintErr (s : string) : Ev unit                   (* print(s, file=sys.stderr) *)
| PrintJson (j : json) : Ev unit.                   (* print(json.dumps(j)) *)

(** A script: a finite tree of requests. *)
Inductive Prog (A : Type) : Type :=
| Ret (a : A)
| Vis {R : Type} (e : Ev R) (k : R -> Prog A).

Arguments Ret {A} a.
Arguments Vis {A R} e k.

Fixpoint bind {A B : Type} (m : Prog A) (f : A -> Prog B) : Prog B :=
  match m with
  | Ret a => f a
  | Vis e k => Vis e (fun r => bind (k r) f)
  end.

Definition trigger {R : Type} (e : Ev R) : Prog R := Vis e Ret.

(** Code that may raise: [inl exc] is the exception in flight. *)
Definition PyM (A : Type) : Type := Prog (exn + A).

Definition raise {A : Type} (e : exn) : PyM A := Ret (inl e).

Definition ok {A : Type} (a : A) : PyM A := Ret (inr a).

Definition bindE {A B : Type} (m : PyM A) (f : A -> PyM B) : PyM B :=
  bind m (fun r => match r with inl e => Ret (inl e) | inr a => f a end).

(** The outcome is a [ValueError] in flight. *)
Definition is_value_error {A : Type} (r : exn + A) : Prop :=
  exists msg, r = inl (ValueError msg).

(** A file-system update as a statement that may raise. *)
Definition attempt (e : Ev (option exn)) : PyM unit :=
  bind (trigger e) (fun r => match r with Some x => raise x | None => ok tt end).

(** A request that cannot raise, inside code that may. *)
Definition lift {A : Type} (m : Prog A) : PyM A := bind m ok.

(** One answered request, and the runs of a script: [exec p tr a] holds
    when [p] ends with [a] after the environment gave the answers recorded
    in [tr]. *)
Inductive Event : Type :=
| Answered {R : Type} (e : Ev R) (r : R).

Fixpoint exec {A : Type} (p : Prog A) (tr : list Event) (a : A) : Prop :=
  match p with
  | Ret a' => tr = [] /\ a = a'
  | Vis e k => exists r tr', tr = Answered e r :: tr' /\ exec (k r) tr' a
  end.

(** Running a script against an environment with state [W]. *)
Definition handler (W : Type) : Type := forall R : Type, Ev R -> W -> R * W.

Fixpoint run {W A : Type} (h : handler W) (p : Prog A) (w : W)
  : A * W * list Event :=
  match p with
  | Ret a => (a, w, [])
  | Vis e k =>
      let '(r, w1) := h _ e w in
      let '(a, w2, tr) := run h (k r) w1 in
      (a, w2, Answered e r :: tr)
  end.

(** The same as a relation, for reasoning step by step: [runs h p w tr a w']
    when [p], started in [w], ends with [a] in [w'] after the requests and
    answers [tr]. *)
Fixpoint runs {W A : Type} (h : handler W) (p : Prog A) (w : W)
  (tr : list Event) (a : A) (w' : W) : Prop :=
  match p with
  | Ret a' => tr = [] /\ a = a' /\ w' = w
  | Vis e k =>
      exists r w1 tr',
        h _ e w = (r, w1) /\ tr = Answered e r :: tr' /\ runs h (k r) w1 tr' a w'
  end.

(** A script that starts no command, whatever it is answered. *)
Definition starts_command {R : Type} (e : Ev R) : bool :=
  match e with
  | RunCaptured _ | RunInherit _ => true
  | _ => false
  end.

Fixpoint quiet {A : Type} (p : Prog A) : Prop :=
  match p with
  | Ret _ => True
  | Vis e k => starts_command e = false /\ forall r, quiet (k r)
  end.

(** The commands a run started, oldest first. *)
Definition command_of (ev : Event) : option (list string) :=
  match ev with
  | Answered (RunCaptured cmd) _ => Some cmd
  | Answered (RunInherit cmd) _ => Some cmd
  | _ => None
  end.

Definition commands (tr : list Event) : list (list string) :=
  omap command_of tr.

(** The children run with inherited streams, with their exit status. *)
Definition spawn_of (ev : Event) : option (list string * Z) :=
  match ev with
  | Answered e r =>
      match e in Ev R return R -> option (list string * Z) with
      | RunInherit cmd => fun rc => Some (cmd, rc)
      | _ => fun _ => None
      end r
  end.

Definition spawned (tr : list Event) : list (list string * Z) :=
  omap spawn_of tr.

(** The captured commands with what they reported. *)
Definition captured_of (ev : Event) : option (list string * CompletedProcess) :=
  match ev with
  | Answered e r =>
      match e in Ev R return R -> option (list string * CompletedProcess) with
      | RunCaptured cmd => fun proc => Some (cmd, proc)
      | _ => fun _ => None
      end r
  end.

Definition captured (tr : list Event) : list (list string * CompletedProcess) :=
  omap captured_of tr.

(** The lines written to either stream. *)
Definition line_of (ev : Event) : option string :=
  match ev with
  | Answered (Print s) _ => Some s
  | Answered (PrintErr s) _ => Some s
  | _ => None
  end.

Definition printed (tr : list Event) : list string := omap line_of tr.

(** The tests of existence and kind, with their answers. *)
Inductive Probe : Type :=
| ProbeExists (p : Path)
| ProbeDir (p : Path)
| ProbeFile (p : Path).

Definition probe_of (ev : Event) : option (Probe * bool) :=
  match ev with
  | Answered e r =>
      match e in Ev R return R -> option (Probe * bool) with
      | Exists p => fun b => Some (ProbeExists p, b)
      | IsDir p => fun b => Some (ProbeDir p, b)
      | IsFile p => fun b => Some (ProbeFile p, b)
      | _ => fun _ => None
      end r
  end.

Definition probes (tr : list Event) : list (Probe * bool) := omap probe_of tr.

(** The updates of the file system that were asked for. *)
Definition is_update (ev : Event) : bool :=
  match ev with
  | Answered (MkdirP _) _ | Answered (Rmtree _) _ | Answered (Unlink _) _
  | Answered (Copytree _ _) _ | Answered (Copy2 _ _) _ => true
  | _ => false
  end.

End Sys.

Declare Scope prog_scope.
Delimit Scope prog_scope with prog.
Notation "x <- m ;; k" := (Sys.bind m (fun x => k))
  (at level 100, m at next level, k at level 200, right associativity) : prog_scope.
Notation "m ;; k" := (Sys.bind m (fun _ => k)) : prog_scope.
Notation "x <-! m ;; k" := (Sys.bindE m (fun x => k))
  (at level 100, m at next level, k at level 200, right associativity) : prog_scope.
Notation "m ;;! k" := (Sys.bindE m (fun _ => k))
  (at level 100, k at level 200, right associativity) : prog_scope.

(* ===================================================================== *)
(** * git_worktree_isolation.py *)
(* ===================================================================== *)

Module GitWorktree.
Import PyStr PyPath Sys Slug.
Local Open Scope prog_scope.

Definition _run (cmd : list string) : Prog CompletedProcess :=
  trigger (RunCaptured cmd).

Definition _fail (message : string) (code : Z) : Prog Z :=
  trigger (Print ("[FAIL] " +:+ message));;
  Ret code.

Definition _repo_root (cwd : Path) : Prog (option Path) :=
  proc <- _run ["git"; "-C"; to_str cwd; "rev-parse"; "--show-toplevel"];;
  if negb (returncode proc =? 0)%Z then Ret None
  else
    top <- trigger (Resolve (of_str (strip (stdout proc))));;
    Ret (Some top).

Definition _copy_tree (src dst : Path) : PyM unit :=
  src_exists <- trigger (Exists src);;
  if negb src_exists
  then raise (FileNotFoundError ("Source path does not exist: " +:+ to_str src))
  else
    (dst_exists <- trigger (Exists dst);;
     if dst_exists then
       dst_is_dir <- trigger (IsDir dst);;
       if dst_is_dir then attempt (Rmtree dst) else attempt (Unlink dst)
     else ok tt);;!
    attempt (MkdirP (parent dst));;!
    src_is_dir <- trigger (IsDir src);;
    if src_is_dir then attempt (Copytree src dst) else attempt (Copy2 src dst).

Definition _resolve_repo_relative (repo_root : Path) (raw_path : string)
  : PyM (Path * string) :=
  let raw := of_str raw_path in
  abs_path <- trigger (Resolve (if negb (is_absolute raw)
                                then joinpath repo_root raw else raw));;
  match relative_to abs_path repo_root with
  | Some rel => ok (abs_path, as_posix rel)
  | None =>
      raise (ValueError ("Path must be under repository root: " +:+ to_str abs_path))
  end.

Definition _resolve_under_root (root : Path) (raw_path : string) (label : string)
  : PyM Path :=
  let raw := of_str raw_path in
  if is_absolute raw
  then raise (ValueError (label +:+ " must be a relative path under "
                          +:+ to_str root +:+ ": " +:+ raw_path))
  else
    abs_path <- trigger (Resolve (joinpath root raw));;
    match relative_to abs_path root with
    | Some _ => ok abs_path
    | None =>
        raise (ValueError (label +:+ " escapes " +:+ to_str root +:+ ": " +:+ raw_path))
    end.

(** A relative path that names a place below its base on its own: no
    [".."] among its components. *)
Definition clean_rel (s : string) : Prop :=
  is_absolute (of_str s) = false /\ ~ has_dotdot (of_str s).

(** The three parts of the sandbox manifest. *)
Record SandboxPaths := mkSandboxPaths {
  allowed_rw : list string;
  allowed_ro : list string;
  entry_cwd : string
}.

Definition _build_sandbox_paths (wt_path : Path) (paper_rel skill_rel output_dir : string)
  : Prog SandboxPaths :=
  paper_path <- trigger (Resolve (wt_path // paper_rel));;
  output_path <- trigger (Resolve (wt_path // output_dir));;
  skill_root <- trigger (Resolve (wt_path // skill_rel));;
  Ret {| allowed_rw := [to_str paper_path; to_str output_path];
         allowed_ro := [to_str (skill_root // "SKILL.md");
                        to_str (skill_root // "references");
                        to_str (skill_root // "scripts")];
         entry_cwd := to_str paper_path |}.

(** The arguments of the [create] sub-command. *)
Record CreateArgs := mkCreateArgs {
  paper_dir : string;
  skill_dir : string;
  worktrees_root : string;
  branch_prefix : string;
  base_ref : string;
  output_dir : string
}.

Definition default_create_args (paper : string) : CreateArgs :=
  {| paper_dir := paper;
     skill_dir := ".codex/skills/cfst-paper-extractor";
     worktrees_root := ".codex/worktrees";
     branch_prefix := "cfst-worker";
     base_ref := "HEAD";
     output_dir := "output" |}.

Definition not_a_repository : string :=
  "Current directory is not a git repository. Initialize git first and retry.".

(** The name shared by the branch and the worktree directory. *)
Definition suffix_of (stamp cwd_name : string) (pid : nat) : string :=
  stamp +:+ "-" +:+ cwd_name +:+ "-" +:+ str_of_nat pid.

Definition branch_name (prefix slug suffix : string) : string :=
  prefix +:+ "/" +:+ slug +:+ "-" +:+ suffix.

Definition worktree_dir (slug suffix : string) : string :=
  slug +:+ "-" +:+ suffix.

Definition git_worktree_add (repo_root : Path) (branch : string) (wt_path : Path)
  (base : string) : list string :=
  ["git"; "-C"; to_str repo_root; "worktree"; "add"; "-b"; branch;
   to_str wt_path; base].

Definition git_worktree_remove (repo_root wt_path : Path) : list string :=
  ["git"; "-C"; to_str repo_root; "worktree"; "remove"; "--force"; to_str wt_path].

Definition git_branch_delete (repo_root : Path) (branch : string) : list string :=
  ["git"; "-C"; to_str repo_root; "branch"; "-D"; branch].

(** The body of the [try] in [_create]. *)
Definition stage_payload (a : CreateArgs) (paper_abs skill_abs wt_path : Path)
  (paper_rel skill_rel : string) : PyM unit :=
  _copy_tree paper_abs (wt_path // paper_rel);;!
  _copy_tree skill_abs (wt_path // skill_rel);;!
  output_dir_abs <-! _resolve_under_root wt_path (output_dir a) "Output dir";;
  attempt (MkdirP output_dir_abs).

Definition create_result (a : CreateArgs) (repo_root wt_path : Path)
  (paper_rel skill_rel branch : string) (sb : SandboxPaths) : json :=
  [("repo_root", JStr (to_str repo_root));
   ("paper_rel", JStr paper_rel);
   ("skill_rel", JStr skill_rel);
   ("worktree_path", JStr (to_str wt_path));
   ("branch", JStr branch);
   ("output_dir", JStr (output_dir a));
   ("sandbox_allowed_rw", JStrList (allowed_rw sb));
   ("sandbox_allowed_ro", JStrList (allowed_ro sb));
   ("sandbox_entry_cwd", JStr (entry_cwd sb))].

(** [_create]: the exit status, or the exception that leaves it. *)
Definition _create (a : CreateArgs) : PyM Z :=
  cwd <- trigger Getcwd;;
  repo <- _repo_root cwd;;
  match repo with
  | None => lift (_fail not_a_repository 2)
  | Some repo_root =>
  resolved <- (p <-! _resolve_repo_relative repo_root (paper_dir a);;
               s <-! _resolve_repo_relative repo_root (skill_dir a);;
               ok (p, s));;
  match resolved with
  | inl exc => lift (_fail (exn_str exc) 1)
  | inr ((paper_abs, paper_rel), (skill_abs, skill_rel)) =>
  paper_ok <- trigger (IsDir paper_abs);;
  if negb paper_ok
  then lift (_fail ("Paper folder not found: " +:+ to_str paper_abs) 1) else
  skill_ok <- trigger (IsDir skill_abs);;
  if negb skill_ok
  then lift (_fail ("Skill folder not found: " +:+ to_str skill_abs) 1) else
  wt_root <- trigger (Resolve (repo_root // worktrees_root a));;
  attempt (MkdirP wt_root);;!
  let slug := _sanitize_slug (name (of_str paper_rel)) in
  stamp <- trigger (Strftime "%Y%m%d-%H%M%S");;
  cwd' <- trigger Getcwd;;
  pid <- trigger Getpid;;
  let suffix := suffix_of stamp (name cwd') pid in
  let branch := branch_name (branch_prefix a) slug suffix in
  let wt_path := wt_root // worktree_dir slug suffix in
  add_proc <- _run (git_worktree_add repo_root branch wt_path (base_ref a));;
  if negb (returncode add_proc =? 0)%Z
  then lift (_fail (str_or (strip (stderr add_proc)) (strip (stdout add_proc))) 1) else
  staged <- stage_payload a paper_abs skill_abs wt_path paper_rel skill_rel;;
  match staged with
  | inl exc =>
      _run (git_worktree_remove repo_root wt_path);;
      _run (git_branch_delete repo_root branch);;
      lift (_fail ("Failed to prepare worktree payload: " +:+ exn_str exc) 1)
  | inr _ =>
      sb <- _build_sandbox_paths wt_path paper_rel skill_rel (output_dir a);;
      trigger (PrintJson (create_result a repo_root wt_path paper_rel skill_rel branch sb));;
      ok 0%Z
  end
  end
  end.

(** The loop of [_branch_for_worktree] over the lines still to read, with
    its two variables. *)
Fixpoint branch_scan (worktree_path : Path) (lines : list string)
  (branch current_path : option string) : Prog (option string) :=
  match lines with
  | [] => Ret None
  | line :: rest =>
      if startswith "worktree " line then
        branch_scan worktree_path rest None
          (Some (strip (removeprefix "worktree " line)))
      else if startswith "branch " line then
        let branch' := strip (removeprefix "branch " line) in
        match current_path with
        | Some cp =>
            if String.eqb cp "" then
              branch_scan worktree_path rest (Some branch') current_path
            else
              here <- trigger (Resolve (of_str cp));;
              wanted <- trigger (Resolve worktree_path);;
              if path_eqb here wanted
              then Ret (Some (removeprefix "refs/heads/" branch'))
              else branch_scan worktree_path rest (Some branch') current_path
        | None => branch_scan worktree_path rest (Some branch') current_path
        end
      else branch_scan worktree_path rest branch current_path
  end.

Definition _branch_for_worktree (repo_root worktree_path : Path)
  : Prog (option string) :=
  proc <- _run ["git"; "-C"; to_str repo_root; "worktree"; "list"; "--porcelain"];;
  if negb (returncode proc =? 0)%Z then Ret None
  else branch_scan worktree_path (splitlines (stdout proc)) None None.

(** The arguments of the [remove] sub-command. *)
Record RemoveArgs := mkRemoveArgs {
  worktree_path : string;
  branch : option string;
  delete_branch : bool
}.

(** Truth value of an optional string. *)
Definition truthy (s : option string) : bool :=
  match s with
  | Some x => negb (String.eqb x "")
  | None => false
  end.

Definition json_opt_str (s : option string) : json_value :=
  match s with Some x => JStr x | None => JNull end.

Definition _remove (a : RemoveArgs) : Prog Z :=
  cwd <- trigger Getcwd;;
  repo <- _repo_root cwd;;
  match repo with
  | None => _fail not_a_repository 2
  | Some repo_root =>
  let raw_wt := of_str (worktree_path a) in
  wt_path <- trigger (Resolve (if negb (is_absolute raw_wt)
                               then joinpath repo_root raw_wt else raw_wt));;
  present <- trigger (Exists wt_path);;
  if negb present
  then _fail ("Worktree path does not exist: " +:+ to_str wt_path) 1 else
  br <- (if truthy (branch a) then Ret (branch a)
         else _branch_for_worktree repo_root wt_path);;
  rm_proc <- _run (git_worktree_remove repo_root wt_path);;
  if negb (returncode rm_proc =? 0)%Z
  then _fail (str_or (strip (stderr rm_proc)) (strip (stdout rm_proc))) 1 else
  deleted_branch <-
    (if delete_branch a && truthy br then
       del_proc <- _run (git_branch_delete repo_root (default "" br));;
       Ret (returncode del_proc =? 0)%Z
     else Ret false);;
  trigger (PrintJson [("repo_root", JStr (to_str repo_root));
                      ("worktree_path", JStr (to_str wt_path));
                      ("branch", json_opt_str br);
                      ("deleted_branch", JBool deleted_branch)]);;
  Ret 0%Z
  end.

End GitWorktree.

(* ===================================================================== *)
(** * worker_sandbox.py *)
(* ===================================================================== *)

Module WorkerSandbox.
Import PyStr PyPath Sys.
Local Open Scope prog_scope.

Definition SYSTEM_RO_PATHS : list string :=
  ["/usr"; "/bin"; "/sbin"; "/lib"; "/lib64"; "/etc"; "/opt"].

Definition _fail (message : string) (code : Z) : Prog Z :=
  trigger (PrintErr ("[FAIL] " +:+ message));;
  Ret code.

Definition _resolve_base_path (cwd : Path) (raw_path label : string) : PyM Path :=
  let base := of_str raw_path in
  abs_path <- trigger (Resolve (if negb (is_absolute base)
                                then joinpath cwd base else base));;
  present <- trigger (Exists abs_path);;
  if negb present
  then raise (ValueError (label +:+ " path does not exist: " +:+ to_str abs_path))
  else ok abs_path.

Definition _resolve_under (base_dir : Path) (raw_rel label : string)
  : PyM (Path * string) :=
  let raw := of_str raw_rel in
  if is_absolute raw
  then raise (ValueError (label +:+ " must be a relative path under worktree: "
                          +:+ raw_rel))
  else
    abs_path <- trigger (Resolve (joinpath base_dir raw));;
    match relative_to abs_path base_dir with
    | Some rel => ok (abs_path, as_posix rel)
    | None => raise (ValueError (label +:+ " escapes worktree: " +:+ raw_rel))
    end.

(** The loop of [_workspace_dirs_for]: [current] after each part. *)
Fixpoint workspace_walk (current : Path) (ps : list string) : list string :=
  match ps with
  | [] => []
  | part :: ps' =>
      let current' := current // part in
      to_str current' :: workspace_walk current' ps'
  end.

Definition _workspace_dirs_for (rel_path : string) : list string :=
  let rel := of_str rel_path in
  if path_eqb rel (of_str ".") then ["/workspace"]
  else "/workspace" :: workspace_walk (of_str "/workspace") (py_parts rel).

(** The key [(p.count("/"), p)] compared as a tuple. *)
Definition dir_key_leb (p q : string) : bool :=
  (count_char "/" p <? count_char "/" q)%nat
  || ((count_char "/" p =? count_char "/" q)%nat && String.leb p q).

Fixpoint insert_by {A : Type} (leb : A -> A -> bool) (x : A) (l : list A) : list A :=
  match l with
  | [] => [x]
  | y :: l' => if leb x y then x :: l else y :: insert_by leb x l'
  end.

(** [sorted(xs, key=...)] for a key whose order is [leb]. *)
Definition sort_by {A : Type} (leb : A -> A -> bool) (l : list A) : list A :=
  List.fold_right (insert_by leb) [] l.

(** [_unique_sorted_dirs]; the set is given by any list of its elements. *)
Definition _unique_sorted_dirs (paths : list string) : list string :=
  sort_by dir_key_leb (remove_dups paths).

Inductive CwdMode : Type := workspace | paper.

(** The parsed command line. *)
Record Args := mkArgs {
  worktree_path : string;
  paper_dir_relpath : string;
  skill_dir_relpath : string;
  output_dir : string;
  cwd_mode : CwdMode;
  worker_cmd : list string
}.

(** The loop over [SYSTEM_RO_PATHS]. *)
Fixpoint system_binds (paths : list string) : Prog (list string) :=
  match paths with
  | [] => Ret []
  | host_path :: rest =>
      present <- trigger (Exists (of_str host_path));;
      more <- system_binds rest;;
      Ret ((if present then ["--ro-bind"; host_path; host_path] else []) ++ more)%list
  end.

(** A word of the read-only system part of the command line. *)
Definition system_flag (x : string) : Prop :=
  x = "--ro-bind" \/ In x SYSTEM_RO_PATHS.

Definition dir_flags (dirs : list string) : list string :=
  List.concat (List.map (fun dst => ["--dir"; dst]) dirs).

Definition bwrap_prelude (bwrap_bin : string) : list string :=
  [bwrap_bin; "--die-with-parent"; "--new-session"; "--proc"; "/proc";
   "--dev"; "/dev"; "--tmpfs"; "/tmp"; "--setenv"; "CFST_SANDBOX"; "1";
   "--setenv"; "HOME"; "/tmp"].

(** The binds of the task's own paths, the working directory and the
    worker's command: the end of the [bwrap] command line. *)
Definition task_binds (paper_abs output_abs skill_abs : Path)
  (paper_rel output_rel skill_rel : string) (mode : CwdMode)
  (cmd : list string) : list string :=
  let paper_dst := "/workspace/" +:+ paper_rel in
  let output_dst := "/workspace/" +:+ output_rel in
  let skill_base_dst := "/workspace/" +:+ skill_rel in
  let sandbox_cwd := match mode with workspace => "/workspace" | paper => paper_dst end in
  (["--bind"; to_str paper_abs; paper_dst;
   "--bind"; to_str output_abs; output_dst;
   "--ro-bind"; to_str (skill_abs // "SKILL.md"); skill_base_dst +:+ "/SKILL.md";
   "--ro-bind"; to_str (skill_abs // "references"); skill_base_dst +:+ "/references";
   "--ro-bind"; to_str (skill_abs // "scripts"); skill_base_dst +:+ "/scripts";
   "--chdir"; sandbox_cwd] ++ cmd)%list.

Definition mkdir_targets (paper_rel output_rel skill_rel : string) : list string :=
  (_workspace_dirs_for paper_rel ++ _workspace_dirs_for output_rel
   ++ _workspace_dirs_for skill_rel)%list.

Definition strip_dashdash (cmd : list string) : list string :=
  match cmd with
  | c :: rest => if String.eqb c "--" then rest else cmd
  | [] => []
  end.

(** The whole command line: the fixed options, the system directories
    found on the host, the directories to create under [/workspace], the
    task's binds and the worker's command. *)
Definition sandbox_command (bwrap_bin : string) (sys : list string)
  (paper_abs output_abs skill_abs : Path)
  (paper_rel output_rel skill_rel : string) (mode : CwdMode)
  (cmd : list string) : list string :=
  (bwrap_prelude bwrap_bin ++ sys
   ++ dir_flags (_unique_sorted_dirs (mkdir_targets paper_rel output_rel skill_rel))
   ++ task_binds paper_abs output_abs skill_abs
        paper_rel output_rel skill_rel mode cmd)%list.

(** From the first check of the task's paths to the end of [main]. *)
Definition launch (a : Args) (bwrap_bin : string)
  (paper_abs skill_abs output_abs : Path)
  (paper_rel skill_rel output_rel : string) : PyM Z :=
  paper_ok <- trigger (IsDir paper_abs);;
  if negb paper_ok
  then lift (_fail ("Paper directory not found: " +:+ to_str paper_abs) 1) else
  skill_ok <- trigger (IsDir skill_abs);;
  if negb skill_ok
  then lift (_fail ("Skill directory not found: " +:+ to_str skill_abs) 1) else
  let skill_file := skill_abs // "SKILL.md" in
  let references_dir := skill_abs // "references" in
  let scripts_dir := skill_abs // "scripts" in
  file_ok <- trigger (IsFile skill_file);;
  if negb file_ok
  then lift (_fail ("Missing skill file: " +:+ to_str skill_file) 1) else
  refs_ok <- trigger (IsDir references_dir);;
  if negb refs_ok
  then lift (_fail ("Missing references directory: " +:+ to_str references_dir) 1) else
  scripts_ok <- trigger (IsDir scripts_dir);;
  if negb scripts_ok
  then lift (_fail ("Missing scripts directory: " +:+ to_str scripts_dir) 1) else
  attempt (MkdirP output_abs);;!
  let cmd := strip_dashdash (worker_cmd a) in
  match cmd with
  | [] => lift (_fail "Missing worker command. Use -- <command> <args...>" 1)
  | _ :: _ =>
      sys <- system_binds SYSTEM_RO_PATHS;;
      rc <- trigger (RunInherit
              (sandbox_command bwrap_bin sys paper_abs output_abs skill_abs
                 paper_rel output_rel skill_rel (cwd_mode a) cmd));;
      ok rc
  end.

(** [main]: the exit status, or the exception that leaves it. *)
Definition main (a : Args) : PyM Z :=
  found <- trigger (Which "bwrap");;
  match found with
  | None => lift (_fail "bubblewrap (bwrap) not found in PATH." 1)
  | Some bwrap_bin =>
  if String.eqb bwrap_bin ""
  then lift (_fail "bubblewrap (bwrap) not found in PATH." 1) else
  cwd <- trigger Getcwd;;
  base <- _resolve_base_path cwd (worktree_path a) "Worktree";;
  match base with
  | inl exc => lift (_fail (exn_str exc) 1)
  | inr wt =>
  wt_ok <- trigger (IsDir wt);;
  if negb wt_ok
  then lift (_fail ("Worktree path is not a directory: " +:+ to_str wt) 1) else
  resolved <- (p <-! _resolve_under wt (paper_dir_relpath a) "Paper dir";;
               s <-! _resolve_under wt (skill_dir_relpath a) "Skill dir";;
               o <-! _resolve_under wt (output_dir a) "Output dir";;
               ok (p, s, o));;
  match resolved with
  | inl exc => lift (_fail (exn_str exc) 1)
  | inr ((paper_abs, paper_rel), (skill_abs, skill_rel), (output_abs, output_rel)) =>
      launch a bwrap_bin paper_abs skill_abs output_abs paper_rel skill_rel output_rel
  end
  end
  end.

End WorkerSandbox.

(* ===================================================================== *)
(** * checkpoint_output_commits.py *)
(* ===================================================================== *)

Module Checkpoint.
Import PyStr PyPath Sys.
Local Open Scope prog_scope.

Definition _run (cmd : list string) : Prog CompletedProcess :=
  trigger (RunCaptured cmd).

Definition _repo_root (cwd : Path) : Prog (option Path) :=
  proc <- _run ["git"; "-C"; to_str cwd; "rev-parse"; "--show-toplevel"];;
  if negb (returncode proc =? 0)%Z then Ret None
  else
    top <- trigger (Resolve (of_str (strip (stdout proc))));;
    Ret (Some top).

Definition _fail (msg : string) (code : Z) : Prog Z :=
  trigger (Print ("[FAIL] " +:+ msg));;
  Ret code.

Definition nonblank (line : string) : bool := negb (String.eqb (strip line) "").

(** [[line.strip() for line in out.splitlines() if line.strip()]]. *)
Definition name_lines (out : string) : list string :=
  List.map strip (List.filter nonblank (splitlines out)).

Definition git_diff_cached (repo_root : Path) : list string :=
  ["git"; "-C"; to_str repo_root; "diff"; "--cached"; "--name-only"].

Definition _staged_files (repo_root : Path) : Prog (list string) :=
  proc <- _run (git_diff_cached repo_root);;
  if negb (returncode proc =? 0)%Z then Ret []
  else Ret (name_lines (stdout proc)).

Definition _current_branch (repo_root : Path) : Prog (option string) :=
  proc <- _run ["git"; "-C"; to_str repo_root; "rev-parse"; "--abbrev-ref"; "HEAD"];;
  if negb (returncode proc =? 0)%Z then Ret None
  else
    let branch := strip (stdout proc) in
    if String.eqb branch "" || String.eqb branch "HEAD" then Ret None
    else Ret (Some branch).

Definition _check_remote (repo_root : Path) (remote : string) : Prog bool :=
  proc <- _run ["git"; "-C"; to_str repo_root; "remote"; "get-url"; remote];;
  Ret (returncode proc =? 0)%Z.

(** [output_dir.strip("/").replace("\\", "/")]. *)
Definition clean_dir (output_dir : string) : string :=
  replace_char "\" "/" (strip_chars "/" output_dir).

(** The test of the loop body: the path is kept out of [bad]. *)
Definition is_output_path (clean path : string) : bool :=
  let norm := replace_char "\" "/" path in
  String.eqb norm clean || startswith (clean +:+ "/") norm.

Definition _only_output_files (paths : list string) (output_dir : string)
  : bool * list string :=
  let clean := clean_dir output_dir in
  let bad := List.filter (fun path => negb (is_output_path clean path)) paths in
  (Nat.eqb (List.length bad) 0, bad).

(** Containment read on path components: the components of the output
    directory open those of the path. *)
Definition lies_under (clean path : string) : Prop :=
  split_on "/" clean `prefix_of` split_on "/" (replace_char "\" "/" path).

(** The parsed command line. *)
Record Args := mkArgs {
  processed_count : Z;
  commit_every : Z;
  push_every : Z;
  output_dir : string;
  remote : string;
  branch : option string;
  message_template : string
}.

Definition default_args (count : Z) : Args :=
  {| processed_count := count;
     commit_every := 10;
     push_every := 20;
     output_dir := "output";
     remote := "origin";
     branch := None;
     message_template := "cfst-output: processed {count} papers" |}.

(** The [summary] dictionary, as the fields that vary. *)
Record Summary := mkSummary {
  commit_due : bool;
  push_due : bool;
  commit_done : bool;
  push_done : bool;
  commit_skipped : option string;
  commit_message : option string;
  pushed_to : option (string * string)
}.

Definition json_opt (key : string) (v : option string) : json :=
  match v with Some x => [(key, JStr x)] | None => [] end.

Definition summary_json (repo_root : Path) (count : Z) (s : Summary) : json :=
  ([("repo_root", JStr (to_str repo_root));
    ("processed_count", JInt count);
    ("commit_due", JBool (commit_due s));
    ("push_due", JBool (push_due s));
    ("commit_done", JBool (commit_done s));
    ("push_done", JBool (push_done s))]
   ++ json_opt "commit_skipped" (commit_skipped s)
   ++ json_opt "commit_message" (commit_message s)
   ++ match pushed_to s with
      | Some (r, b) => [("remote", JStr r); ("branch", JStr b)]
      | None => []
      end)%list.

Definition git_add (repo_root : Path) (dir : string) : list string :=
  ["git"; "-C"; to_str repo_root; "add"; "--"; dir].

Definition git_commit (repo_root : Path) (message : string) : list string :=
  ["git"; "-C"; to_str repo_root; "commit"; "-m"; message].

Definition git_push (repo_root : Path) (remote branch : string) : list string :=
  ["git"; "-C"; to_str repo_root; "push"; remote; branch].

Definition non_output_message (bad : list string) : string :=
  "Staged changes include non-output files: "
  +:+ join ", " (WorkerSandbox.sort_by String.leb bad)
  +:+ ". Unstage them before checkpoint commit.".

Definition truthy (s : option string) : bool :=
  match s with
  | Some x => negb (String.eqb x "")
  | None => false
  end.

Section Main.

(** [template.format(count=n)], which raises on a field it cannot fill. *)
Variable format : string -> Z -> exn + string.

(** An early [return] of [main] carries the exit status on the left. *)
Definition commit_step (a : Args) (repo_root : Path) (s : Summary)
  : PyM (Z + Summary) :=
  add_proc <- _run (git_add repo_root (output_dir a));;
  if negb (returncode add_proc =? 0)%Z
  then rc <- _fail (str_or (strip (stderr add_proc)) (strip (stdout add_proc))) 1;;
       ok (inl rc)
  else
  staged <- _staged_files repo_root;;
  match staged with
  | [] => ok (inr {| commit_due := commit_due s; push_due := push_due s;
                     commit_done := false; push_done := false;
                     commit_skipped := Some "no staged output changes";
                     commit_message := None; pushed_to := None |})
  | _ :: _ =>
      let '(is_ok, bad) := _only_output_files staged (output_dir a) in
      if negb is_ok
      then rc <- _fail (non_output_message bad) 1;; ok (inl rc)
      else
        match format (message_template a) (processed_count a) with
        | inl exc => raise exc
        | inr message =>
            commit_proc <- _run (git_commit repo_root message);;
            if negb (returncode commit_proc =? 0)%Z
            then rc <- _fail (str_or (strip (stderr commit_proc))
                                     (strip (stdout commit_proc))) 1;;
                 ok (inl rc)
            else ok (inr {| commit_due := commit_due s; push_due := push_due s;
                            commit_done := true; push_done := false;
                            commit_skipped := None;
                            commit_message := Some message; pushed_to := None |})
        end
  end.

Definition push_step (a : Args) (repo_root : Path) (s : Summary)
  : Prog (Z + Summary) :=
  br <- (if truthy (branch a) then Ret (branch a) else _current_branch repo_root);;
  if negb (truthy br)
  then rc <- _fail "Cannot determine branch for push. Pass --branch explicitly." 1;;
       Ret (inl rc)
  else
  let b := default "" br in
  remote_ok <- _check_remote repo_root (remote a);;
  if negb remote_ok
  then rc <- _fail ("Remote not found: " +:+ remote a) 1;; Ret (inl rc)
  else
  push_proc <- _run (git_push repo_root (remote a) b);;
  if negb (returncode push_proc =? 0)%Z
  then rc <- _fail (str_or (strip (stderr push_proc)) (strip (stdout push_proc))) 1;;
       Ret (inl rc)
  else Ret (inr {| commit_due := commit_due s; push_due := push_due s;
                   commit_done := commit_done s; push_done := true;
                   commit_skipped := commit_skipped s;
                   commit_message := commit_message s;
                   pushed_to := Some (remote a, b) |}).

Definition main (a : Args) : PyM Z :=
  if (processed_count a <=? 0)%Z
  then lift (_fail "--processed-count must be > 0." 1) else
  if (commit_every a <=? 0)%Z || (push_every a <=? 0)%Z
  then lift (_fail "--commit-every and --push-every must be > 0." 1) else
  cwd <- trigger Getcwd;;
  repo <- _repo_root cwd;;
  match repo with
  | None => lift (_fail GitWorktree.not_a_repository 2)
  | Some repo_root =>
  let due_c := (processed_count a mod commit_every a =? 0)%Z in
  let due_p := (processed_count a mod push_every a =? 0)%Z in
  let summary := {| commit_due := due_c; push_due := due_p;
                    commit_done := false; push_done := false;
                    commit_skipped := None; commit_message := None;
                    pushed_to := None |} in
  after_commit <-! (if due_c then commit_step a repo_root summary
                    else ok (inr summary));;
  match after_commit with
  | inl rc => ok rc
  | inr summary1 =>
  after_push <- (if due_p then push_step a repo_root summary1
                 else Ret (inr summary1));;
  match after_push with
  | inl rc => ok rc
  | inr summary2 =>
      trigger (PrintJson (summary_json repo_root (processed_count a) summary2));;
      ok 0%Z
  end
  end
  end.

End Main.

(** A reading of [str.format] that fills [{count}] and nothing else:
    enough for the default template.  [skip] counts the characters of a
    field still to pass over. *)
Fixpoint fill_count_go (skip : nat) (n : string) (s : string) : string :=
  match s with
  | EmptyString => EmptyString
  | String c s' =>
      match skip with
      | S k => fill_count_go k n s'
      | O =>
          if String.prefix "{count}" s then n +:+ fill_count_go 6 n s'
          else String c (fill_count_go 0 n s')
      end
  end.

Definition format_count (template : string) (count : Z) : exn + string :=
  inr (fill_count_go 0 (str_of_nat (Z.to_nat count)) template).

End Checkpoint.

(* ===================================================================== *)
(** * safe_calc.py *)
(* ===================================================================== *)

Module SafeCalc.

(** The value of an [ast.Constant]; [F] is the type of Python floats. *)
Inductive constant (F : Type) : Type :=
| CInt (z : Z)
| CBool (b : bool)
| CFloat (f : F)
| CComplex
| CStr (s : string)
| CBytes
| CNone
| CEllipsis.

Arguments CInt {F} z.
Arguments CBool {F} b.
Arguments CFloat {F} f.
Arguments CComplex {F}.
Arguments CStr {F} s.
Arguments CBytes {F}.
Arguments CNone {F}.
Arguments CEllipsis {F}.

(** [type(value).__name__]. *)
Definition type_name {F : Type} (v : constant F) : string :=
  match v with
  | CInt _ => "int"
  | CBool _ => "bool"
  | CFloat _ => "float"
  | CComplex => "complex"
  | CStr _ => "str"
  | CBytes => "bytes"
  | CNone => "NoneType"
  | CEllipsis => "ellipsis"
  end.

(** The binary operators of [ast.operator]. *)
Inductive operator : Type :=
| Add | Sub | Mult | MatMult | Div | Mod | Pow
| LShift | RShift | BitOr | BitXor | BitAnd | FloorDiv.

Definition operator_name (op : operator) : string :=
  match op with
  | Add => "Add" | Sub => "Sub" | Mult => "Mult" | MatMult => "MatMult"
  | Div => "Div" | Mod => "Mod" | Pow => "Pow" | LShift => "LShift"
  | RShift => "RShift" | BitOr => "BitOr" | BitXor => "BitXor"
  | BitAnd => "BitAnd" | FloorDiv => "FloorDiv"
  end.

(** The unary operators of [ast.unaryop]. *)
Inductive unaryop : Type := Invert | Not | UAdd | USub.

Definition unaryop_name (op : unaryop) : string :=
  match op with
  | Invert => "Invert" | Not => "Not" | UAdd => "UAdd" | USub => "USub"
  end.

(** The expression nodes [_eval_node] never looks into. *)
Inductive other_node : Type :=
| Call | Attribute | Compare | Subscript | BoolOp | NamedExpr | Lambda
| IfExp | Dict | SetDisplay | ListComp | SetComp | DictComp | GeneratorExp
| Await | Yield | YieldFrom | FormattedValue | JoinedStr | Starred
| ListDisplay | TupleDisplay | Slice.

Definition other_name (k : other_node) : string :=
  match k with
  | Call => "Call" | Attribute => "Attribute" | Compare => "Compare"
  | Subscript => "Subscript" | BoolOp => "BoolOp" | NamedExpr => "NamedExpr"
  | Lambda => "Lambda" | IfExp => "IfExp" | Dict => "Dict"
  | SetDisplay => "Set" | ListComp => "ListComp" | SetComp => "SetComp"
  | DictComp => "DictComp" | GeneratorExp => "GeneratorExp"
  | Await => "Await" | Yield => "Yield" | YieldFrom => "YieldFrom"
  | FormattedValue => "FormattedValue" | JoinedStr => "JoinedStr"
  | Starred => "Starred" | ListDisplay => "List" | TupleDisplay => "Tuple"
  | Slice => "Slice"
  end.

(** The body of an [ast.Expression]. *)
Inductive expr (F : Type) : Type :=
| Constant (value : constant F)
| Name (id : string)
| BinOp (left : expr F) (op : operator) (right : expr F)
| UnaryOp (op : unaryop) (operand : expr F)
| Other (kind : other_node).

Arguments Constant {F} value.
Arguments Name {F} id.
Arguments BinOp {F} left op right.
Arguments UnaryOp {F} op operand.
Arguments Other {F} kind.

(** What evaluation raises: the [ValueError]s of the script, or an error
    of float arithmetic ([ZeroDivisionError], [OverflowError],
    [TypeError]) named by its class. *)
Inductive calc_exn : Type :=
| ValueError (msg : string)
| ArithError (class : string).

Section Eval.

Variable F : Type.

(** [float(n)] for an integer: raises when [n] is out of range. *)
Variable float_of_int : Z -> calc_exn + F.

(** The functions of the [operator] module on two floats, each followed
    by the [float(...)] applied to its result. *)
Variables op_add op_sub op_mul op_truediv op_pow op_mod op_floordiv
  : F -> F -> calc_exn + F.

(** [operator.pos] and [operator.neg] on a float. *)
Variables op_pos op_neg : F -> F.

(** [ast.parse(source, mode="eval").body], or the text of the
    [SyntaxError]. *)
Variable parse : string -> string + expr F.

Definition ALLOWED_BIN_OPS (op : operator) : option (F -> F -> calc_exn + F) :=
  match op with
  | Add => Some op_add
  | Sub => Some op_sub
  | Mult => Some op_mul
  | Div => Some op_truediv
  | Pow => Some op_pow
  | Mod => Some op_mod
  | FloorDiv => Some op_floordiv
  | _ => None
  end.

Definition ALLOWED_UNARY_OPS (op : unaryop) : option (F -> F) :=
  match op with
  | UAdd => Some op_pos
  | USub => Some op_neg
  | _ => None
  end.

Fixpoint _eval_node (node : expr F) (variables : gmap string F) : calc_exn + F :=
  match node with
  | Constant v =>
      match v with
      | CInt z => float_of_int z
      | CBool b => float_of_int (if b then 1 else 0)
      | CFloat f => inr f
      | _ => inl (ValueError ("Unsupported constant type: " +:+ type_name v))
      end
  | Name id =>
      match variables !! id with
      | None => inl (ValueError ("Unknown variable: " +:+ id))
      | Some x => inr x
      end
  | BinOp l op r =>
      match ALLOWED_BIN_OPS op with
      | None => inl (ValueError ("Unsupported operator: " +:+ operator_name op))
      | Some f =>
          match _eval_node l variables with
          | inl e => inl e
          | inr lv =>
              match _eval_node r variables with
              | inl e => inl e
              | inr rv => f lv rv
              end
          end
      end
  | UnaryOp op operand =>
      match ALLOWED_UNARY_OPS op with
      | None => inl (ValueError ("Unsupported unary operator: " +:+ unaryop_name op))
      | Some f =>
          match _eval_node operand variables with
          | inl e => inl e
          | inr x => inr (f x)
          end
      end
  | Other k => inl (ValueError ("Unsupported expression node: " +:+ other_name k))
  end.

Definition safe_eval (expression : string) (variables : gmap string F)
  : calc_exn + F :=
  match parse (PyStr.strip expression) with
  | inl exc => inl (ValueError ("Invalid expression syntax: " +:+ exc))
  | inr body => _eval_node body variables
  end.

(** The constants of class [int] or [float]; [bool] is a subclass of
    [int]. *)
Definition numeric (v : constant F) : Prop :=
  match v with
  | CInt _ | CBool _ | CFloat _ => True
  | _ => False
  end.

Definition arithmetic_op (op : operator) : Prop :=
  op = Add \/ op = Sub \/ op = Mult \/ op = Div \/ op = Pow \/ op = Mod
  \/ op = FloorDiv.

Definition sign_op (op : unaryop) : Prop := op = UAdd \/ op = USub.

(** The expressions made of the admitted forms only. *)
Inductive admitted (variables : gmap string F) : expr F -> Prop :=
| adm_const v : numeric v -> admitted variables (Constant v)
| adm_name id : is_Some (variables !! id) -> admitted variables (Name id)
| adm_bin l op r :
    arithmetic_op op -> admitted variables l -> admitted variables r ->
    admitted variables (BinOp l op r)
| adm_un op e :
    sign_op op -> admitted variables e -> admitted variables (UnaryOp op e).

(** The node itself is of a form outside the list, whatever is below it. *)
Definition refused_form (variables : gmap string F) (node : expr F) : Prop :=
  match node with
  | Constant v => ~ numeric v
  | Name id => variables !! id = None
  | BinOp _ op _ => ~ arithmetic_op op
  | UnaryOp op _ => ~ sign_op op
  | Other _ => True
  end.

Definition is_value_error (r : calc_exn + F) : Prop :=
  exists msg, r = inl (ValueError msg).

End Eval.

End SafeCalc.

(* ===================================================================== *)
(** * A reference environment *)
(* ===================================================================== *)

(** One host with one repository: a tree of files and directories without
    symbolic links, the branches and linked worktrees of the repository,
    its index and log, and the child processes.  Every request is answered
    the way the documented behaviour of the file system and of git
    answers it; [w_readonly] names the places where a write is refused. *)
Module World.
Import PyStr PyPath Sys.

Inductive Kind : Type := File | Dir.

#[global] Instance Kind_eq_dec : EqDecision Kind.
Proof. solve_decision. Defined.

Record World := mkWorld {
  w_cwd : Path;
  w_pid : nat;
  w_clock : string;
  w_fs : gmap (list string) Kind;
  w_readonly : gset (list string);
  w_repo : option Path;
  w_tracked : gmap (list string) Kind;
  w_head : string;
  w_branches : list string;
  w_worktrees : list (Path * string);
  w_dirty : list string;
  w_index : list string;
  w_log : list (string * list string);
  w_remotes : list string;
  w_bwrap : option string;
  w_worker : list string -> Z
}.

Definition with_fs (w : World) (fs : gmap (list string) Kind) : World :=
  mkWorld (w_cwd w) (w_pid w) (w_clock w) fs (w_readonly w) (w_repo w)
    (w_tracked w) (w_head w) (w_branches w) (w_worktrees w) (w_dirty w)
    (w_index w) (w_log w) (w_remotes w) (w_bwrap w) (w_worker w).

Definition with_git (w : World) (fs : gmap (list string) Kind)
  (branches : list string) (worktrees : list (Path * string)) : World :=
  mkWorld (w_cwd w) (w_pid w) (w_clock w) fs (w_readonly w) (w_repo w)
    (w_tracked w) (w_head w) branches worktrees (w_dirty w)
    (w_index w) (w_log w) (w_remotes w) (w_bwrap w) (w_worker w).

Definition with_index (w : World) (dirty index : list string)
  (log : list (string * list string)) : World :=
  mkWorld (w_cwd w) (w_pid w) (w_clock w) (w_fs w) (w_readonly w) (w_repo w)
    (w_tracked w) (w_head w) (w_branches w) (w_worktrees w) dirty
    index log (w_remotes w) (w_bwrap w) (w_worker w).

(** The place a path names: made absolute against the working directory,
    then canonical. *)
Definition canon (w : World) (p : Path) : Path :=
  normpath (if is_absolute p then p else joinpath (w_cwd w) p).

Definition key (w : World) (p : Path) : list string := parts (canon w p).

Definition below (d k : list string) : bool :=
  bool_decide (d `prefix_of` k).

Definition remove_subtree (d : list string) (fs : gmap (list string) Kind)
  : gmap (list string) Kind :=
  filter (fun kv => ~ d `prefix_of` kv.1) fs.

(** The non-empty prefixes of a key: the directories on the way to it,
    and the key itself. *)
Definition ways (k : list string) : list (list string) :=
  List.map (fun n => take n k) (seq 1 (List.length k)).

Definition denied (w : World) (k : list string) : bool :=
  bool_decide (k ∈ w_readonly w).

Definition permission_denied (k : list string) : exn :=
  OSError ("[Errno 13] Permission denied: '/" +:+ join "/" k +:+ "'").

Definition mkdir_p (w : World) (k : list string) : option exn * World :=
  if existsb (fun d => bool_decide (w_fs w !! d = Some File)) (ways k)
  then (Some (OSError "[Errno 17] File exists"), w)
  else if existsb (fun d => bool_decide (w_fs w !! d = None) && denied w d) (ways k)
  then (Some (permission_denied k), w)
  else (None, with_fs w (List.fold_right (fun d fs => <[d := Dir]> fs) (w_fs w) (ways k))).

Definition rmtree (w : World) (k : list string) : option exn * World :=
  if negb (bool_decide (w_fs w !! k = Some Dir))
  then (Some (OSError "[Errno 20] Not a directory"), w)
  else if denied w k then (Some (permission_denied k), w)
  else (None, with_fs w (remove_subtree k (w_fs w))).

Definition unlink (w : World) (k : list string) : option exn * World :=
  if negb (bool_decide (w_fs w !! k = Some File))
  then (Some (FileNotFoundError "[Errno 2] No such file or directory"), w)
  else if denied w k then (Some (permission_denied k), w)
  else (None, with_fs w (delete k (w_fs w))).

(** The entries of the tree at [s] with the place each one gets below
    [d]. *)
Definition moved (s d : list string) (fs : gmap (list string) Kind)
  : list (list string * Kind) :=
  omap (fun kv => match strip_prefix s kv.1 with
                  | Some rest => Some ((d ++ rest)%list, kv.2)
                  | None => None
                  end) (map_to_list fs).

(** An entry can be written when no place from [d] down to it is
    refused. *)
Definition reachable (w : World) (d : list string) (k : list string) : bool :=
  forallb (fun x => negb (below d x && denied w x)) (ways k).

(** [shutil.copytree]: the destination must be new; entries that cannot
    be written are left out, and the call then raises. *)
Definition copytree (w : World) (s d : list string) : option exn * World :=
  if negb (bool_decide (w_fs w !! s = Some Dir))
  then (Some (OSError "[Errno 20] Not a directory"), w)
  else if bool_decide (is_Some (w_fs w !! d))
  then (Some (OSError "[Errno 17] File exists"), w)
  else if denied w d then (Some (permission_denied d), w)
  else
    let entries := moved s d (w_fs w) in
    let written := List.filter (fun kv => reachable w d kv.1) entries in
    let fs' := List.fold_right (fun kv fs => <[kv.1 := kv.2]> fs) (w_fs w) written in
    (if forallb (fun kv => reachable w d kv.1) entries then None
     else Some (OSError "shutil.Error"),
     with_fs w fs').

Definition copy2 (w : World) (s d : list string) : option exn * World :=
  if negb (bool_decide (w_fs w !! s = Some File))
  then (Some (FileNotFoundError "[Errno 2] No such file or directory"), w)
  else
    let target := if bool_decide (w_fs w !! d = Some Dir)
                  then (d ++ [List.last s ""])%list else d in
    if denied w target then (Some (permission_denied target), w)
    else (None, with_fs w (<[target := File]> (w_fs w))).

Definition nl : string := String "010" EmptyString.

Definition git_ok (out : string) : CompletedProcess := mkProc 0 out "".

Definition git_fatal (code : Z) (msg : string) : CompletedProcess :=
  mkProc code "" ("fatal: " +:+ msg +:+ nl).

Definition registered (w : World) (p : Path) : bool :=
  existsb (fun e => path_eqb e.1 p) (w_worktrees w).

Definition checked_out (w : World) (b : string) : bool :=
  String.eqb b (w_head w) || existsb (fun e => String.eqb e.2 b) (w_worktrees w).

(** [git worktree add -b b p base]: a new branch and a new directory
    holding the tracked tree and the [.git] file. *)
Definition checkout (p : list string) (tracked : gmap (list string) Kind)
  (fs : gmap (list string) Kind) : gmap (list string) Kind :=
  List.fold_right (fun kv fs => <[(p ++ kv.1)%list := kv.2]> fs)
    (<[(p ++ [".git"])%list := File]>
       (List.fold_right (fun d fs => <[d := Dir]> fs) fs (ways p)))
    (map_to_list tracked).

Definition worktree_add (w : World) (b : string) (p : Path) (base : string)
  : CompletedProcess * World :=
  if bool_decide (b ∈ w_head w :: w_branches w)
  then (git_fatal 255 ("a branch named '" +:+ b +:+ "' already exists"), w)
  else if bool_decide (is_Some (w_fs w !! key w p))
  then (git_fatal 128 ("'" +:+ to_str p +:+ "' already exists"), w)
  else if negb (String.eqb base "HEAD" || bool_decide (base ∈ w_head w :: w_branches w))
  then (git_fatal 128 ("invalid reference: " +:+ base), w)
  else (git_ok "",
        with_git w (checkout (key w p) (w_tracked w) (w_fs w))
          (w_branches w ++ [b]) (w_worktrees w ++ [(canon w p, b)])).

(** [git worktree remove --force p]. *)
Definition worktree_remove (w : World) (p : Path) : CompletedProcess * World :=
  if registered w (canon w p)
  then (git_ok "",
        with_git w (remove_subtree (key w p) (w_fs w)) (w_branches w)
          (List.filter (fun e => negb (path_eqb e.1 (canon w p))) (w_worktrees w)))
  else (git_fatal 128 ("'" +:+ to_str p +:+ "' is not a working tree"), w).

(** [git branch -D b]. *)
Definition branch_delete (w : World) (b : string) : CompletedProcess * World :=
  if negb (bool_decide (b ∈ w_branches w))
  then (mkProc 1 "" ("error: branch '" +:+ b +:+ "' not found" +:+ nl), w)
  else if checked_out w b
  then (mkProc 1 "" ("error: cannot delete branch '" +:+ b +:+ "'" +:+ nl), w)
  else (git_ok ("Deleted branch " +:+ b +:+ nl),
        with_git w (w_fs w)
          (List.filter (fun x => negb (String.eqb x b)) (w_branches w))
          (w_worktrees w)).

Definition porcelain_entry (e : Path * string) : string :=
  "worktree " +:+ to_str e.1 +:+ nl +:+ "HEAD 0000000" +:+ nl
  +:+ "branch refs/heads/" +:+ e.2 +:+ nl +:+ nl.

Definition worktree_list (w : World) (r : Path) : string :=
  List.fold_right (fun e acc => porcelain_entry e +:+ acc) ""
    ((r, w_head w) :: w_worktrees w).

Definition in_dir (dir path : string) : bool :=
  bool_decide (parts (of_str dir) `prefix_of` parts (of_str path)).

(** The git commands of the scripts, in the repository [r]. *)
Definition git (w : World) (r : Path) (args : list string)
  : CompletedProcess * World :=
  match args with
  | ["worktree"; "add"; "-b"; b; p; base] => worktree_add w b (of_str p) base
  | ["worktree"; "remove"; "--force"; p] => worktree_remove w (of_str p)
  | ["worktree"; "list"; "--porcelain"] => (git_ok (worktree_list w r), w)
  | ["branch"; "-D"; b] => branch_delete w b
  | ["add"; "--"; dir] =>
      (git_ok "",
       with_index w (List.filter (fun x => negb (in_dir dir x)) (w_dirty w))
         (w_index w ++ List.filter (in_dir dir) (w_dirty w)) (w_log w))
  | ["diff"; "--cached"; "--name-only"] =>
      (git_ok (List.fold_right (fun x acc => x +:+ nl +:+ acc) "" (w_index w)), w)
  | ["commit"; "-m"; message] =>
      match w_index w with
      | [] => (mkProc 1 ("nothing to commit" +:+ nl) "", w)
      | _ :: _ =>
          (git_ok "", with_index w (w_dirty w) [] (w_log w ++ [(message, w_index w)]))
      end
  | ["rev-parse"; "--abbrev-ref"; "HEAD"] => (git_ok (w_head w +:+ nl), w)
  | ["remote"; "get-url"; name] =>
      if bool_decide (name ∈ w_remotes w)
      then (git_ok ("git@host:" +:+ name +:+ nl), w)
      else (mkProc 2 "" ("error: No such remote '" +:+ name +:+ "'" +:+ nl), w)
  | ["push"; name; b] =>
      if bool_decide (name ∈ w_remotes w)
         && bool_decide (b ∈ w_head w :: w_branches w)
      then (git_ok "", w)
      else (git_fatal 128 "could not push", w)
  | _ => (mkProc 1 "" ("git: unsupported command" +:+ nl), w)
  end.

Definition run_captured (w : World) (cmd : list string) : CompletedProcess * World :=
  match cmd with
  | "git" :: "-C" :: d :: args =>
      match w_repo w with
      | Some r =>
          if bool_decide (parts r `prefix_of` key w (of_str d)) then
            match args with
            | ["rev-parse"; "--show-toplevel"] => (git_ok (to_str r +:+ nl), w)
            | _ => git w r args
            end
          else (git_fatal 128 "not a git repository (or any of the parent directories): .git", w)
      | None =>
          (git_fatal 128 "not a git repository (or any of the parent directories): .git", w)
      end
  | _ => (mkProc 127 "" "command not found", w)
  end.

(** The command [bwrap] ends up running: what follows its options. *)
Fixpoint bwrap_command (fuel : nat) (args : list string) : list string :=
  match fuel with
  | O => args
  | S fuel' =>
      match args with
      | "--die-with-parent" :: rest | "--new-session" :: rest =>
          bwrap_command fuel' rest
      | "--proc" :: _ :: rest | "--dev" :: _ :: rest | "--tmpfs" :: _ :: rest
      | "--dir" :: _ :: rest | "--chdir" :: _ :: rest =>
          bwrap_command fuel' rest
      | "--setenv" :: _ :: _ :: rest | "--ro-bind" :: _ :: _ :: rest
      | "--bind" :: _ :: _ :: rest =>
          bwrap_command fuel' rest
      | _ => args
      end
  end.

(** A child with inherited streams: [bwrap] passes on the status of the
    command it runs. *)
Definition run_inherit (w : World) (cmd : list string) : Z :=
  match cmd with
  | exe :: args =>
      if bool_decide (w_bwrap w = Some exe)
      then w_worker w (bwrap_command (List.length args) args)
      else w_worker w cmd
  | [] => 127%Z
  end.

Definition probe (w : World) (p : Path) (want : option Kind) : bool :=
  match w_fs w !! key w p, want with
  | Some _, None => true
  | Some k, Some k' => bool_decide (k = k')
  | None, _ => false
  end.

(** The repository root and the worktree path [_remove] works with in
    [w], for the path [raw] given on the command line: what
    [git rev-parse --show-toplevel] prints, read back and made canonical. *)
Definition locate (w : World) (raw : string) : option (Path * Path) :=
  match w_repo w with
  | Some r =>
      if bool_decide (parts r `prefix_of` key w (of_str (to_str (w_cwd w)))) then
        let repo_root := canon w (of_str (strip (to_str r +:+ nl))) in
        let raw_wt := of_str raw in
        Some (repo_root,
              canon w (if negb (is_absolute raw_wt)
                       then joinpath repo_root raw_wt else raw_wt))
      else None
  | None => None
  end.

(** Every linked worktree is on a branch the repository knows. *)
Definition consistent (w : World) : bool :=
  forallb (fun e => bool_decide (e.2 ∈ w_head w :: w_branches w))
    (w_worktrees w).

(** Nothing is left of the worktree at [p] and of its branch [b]. *)
Definition nothing_left (w : World) (b : string) (p : Path) : Prop :=
  ~ In b (w_branches w) /\
  registered w (canon w p) = false /\
  forall k, key w p `prefix_of` k -> w_fs w !! k = None.

(** The answer of the environment to one request. *)
Definition handle : handler World :=
  fun R (e : Ev R) (w : World) =>
    match e in Ev R return R * World with
    | Getcwd => (w_cwd w, w)
    | Getpid => (w_pid w, w)
    | Strftime _ => (w_clock w, w)
    | Resolve p => (canon w p, w)
    | Exists p => (probe w p None, w)
    | IsDir p => (probe w p (Some Dir), w)
    | IsFile p => (probe w p (Some File), w)
    | MkdirP p => mkdir_p w (key w p)
    | Rmtree p => rmtree w (key w p)
    | Unlink p => unlink w (key w p)
    | Copytree s d => copytree w (key w s) (key w d)
    | Copy2 s d => copy2 w (key w s) (key w d)
    | Which prog =>
        (if String.eqb prog "bwrap" then w_bwrap w else None, w)
    | RunCaptured cmd => run_captured w cmd
    | RunInherit cmd => (run_inherit w cmd, w)
    | Print _ => (tt, w)
    | PrintErr _ => (tt, w)
    | PrintJson _ => (tt, w)
    end.

(** The state after the requests of a trace, whatever was answered. *)
Definition replay (tr : list Event) (w : World) : World :=
  List.fold_left
    (fun w ev => match ev with Answered e _ => (handle _ e w).2 end) tr w.

(** What no file-system request and no print changes. *)
Definition git_view (w : World) :=
  (w_cwd w, w_repo w, w_head w, w_branches w, w_worktrees w).

(** An event that starts no command other than [git rev-parse
    --show-toplevel]. *)
Definition only_rev_parse (ev : Event) : Prop :=
  forall cmd, command_of ev = Some cmd ->
    exists d, cmd = ["git"; "-C"; d; "rev-parse"; "--show-toplevel"].

End World.

(* ===================================================================== *)
(** * The scenario of the specification *)
(* ===================================================================== *)

(** Repository [/repo], payload [papers/P1], policy bundle
    [.codex/skills/cfst-paper-extractor], output [tmp/P1]. *)
Module Scenario.
Import PyStr PyPath Sys World.

Definition skill : list string := [".codex"; "skills"; "cfst-paper-extractor"].

Definition tree : list (list string * Kind) :=
  [ (["papers"], Dir);
    (["papers"; "P1"], Dir);
    (["papers"; "P1"; "paper.md"], File);
    ([".codex"], Dir);
    ([".codex"; "skills"], Dir);
    (skill, Dir);
    ((skill ++ ["SKILL.md"])%list, File);
    ((skill ++ ["references"])%list, Dir);
    ((skill ++ ["scripts"])%list, Dir);
    ((skill ++ ["scripts"; "safe_calc.py"])%list, File) ].

Definition host_fs : gmap (list string) Kind :=
  list_to_map
    ([ (["usr"], Dir); (["bin"], Dir); (["etc"], Dir);
       (["repo"], Dir); (["repo"; ".git"], Dir) ]
     ++ List.map (fun kv => (("repo" :: kv.1), kv.2)) tree)%list.

Definition exit_status (cmd : list string) : Z :=
  match cmd with
  | ["true"] => 0
  | ["false"] => 1
  | _ => 127
  end.

Definition host : World :=
  {| w_cwd := of_str "/repo";
     w_pid := 4242;
     w_clock := "20260101-120000";
     w_fs := host_fs;
     w_readonly := ∅;
     w_repo := Some (of_str "/repo");
     w_tracked := list_to_map tree;
     w_head := "main";
     w_branches := [];
     w_worktrees := [];
     w_dirty := [];
     w_index := [];
     w_log := [];
     w_remotes := ["origin"];
     w_bwrap := Some "/usr/bin/bwrap";
     w_worker := exit_status |}.

Definition create_args : GitWorktree.CreateArgs :=
  {| GitWorktree.paper_dir := "papers/P1";
     GitWorktree.skill_dir := ".codex/skills/cfst-paper-extractor";
     GitWorktree.worktrees_root := ".codex/worktrees";
     GitWorktree.branch_prefix := "cfst-worker";
     GitWorktree.base_ref := "HEAD";
     GitWorktree.output_dir := "tmp/P1" |}.

Definition wt_name : string := "P1-20260101-120000-repo-4242".

Definition wt : Path := of_str ("/repo/.codex/worktrees/" +:+ wt_name).

(** The same host with the payload's place in the new worktree refused. *)
Definition host_readonly : World :=
  {| w_cwd := w_cwd host; w_pid := w_pid host; w_clock := w_clock host;
     w_fs := w_fs host;
     w_readonly := {[ (parts wt ++ ["papers"; "P1"; "paper.md"])%list ]};
     w_repo := w_repo host; w_tracked := ∅; w_head := w_head host;
     w_branches := w_branches host; w_worktrees := w_worktrees host;
     w_dirty := w_dirty host; w_index := w_index host; w_log := w_log host;
     w_remotes := w_remotes host; w_bwrap := w_bwrap host;
     w_worker := w_worker host |}.

(** The host once [create] has run for the scenario. *)
Definition staged : World :=
  (run handle (GitWorktree._create create_args) host).1.2.

Definition sandbox_args (cmd : list string) : WorkerSandbox.Args :=
  {| WorkerSandbox.worktree_path := to_str wt;
     WorkerSandbox.paper_dir_relpath := "papers/P1";
     WorkerSandbox.skill_dir_relpath := ".codex/skills/cfst-paper-extractor";
     WorkerSandbox.output_dir := "tmp/P1";
     WorkerSandbox.cwd_mode := WorkerSandbox.workspace;
     WorkerSandbox.worker_cmd := cmd |}.

Definition remove_args : GitWorktree.RemoveArgs :=
  {| GitWorktree.worktree_path := to_str wt;
     GitWorktree.branch := None;
     GitWorktree.delete_branch := true |}.

(** A manifest whose payload was never staged. *)
Definition sandbox_args_missing : WorkerSandbox.Args :=
  {| WorkerSandbox.worktree_path := to_str wt;
     WorkerSandbox.paper_dir_relpath := "papers/P2";
     WorkerSandbox.skill_dir_relpath := ".codex/skills/cfst-paper-extractor";
     WorkerSandbox.output_dir := "tmp/P2";
     WorkerSandbox.cwd_mode := WorkerSandbox.workspace;
     WorkerSandbox.worker_cmd := ["--"; "true"] |}.

(** The host with modified files and an index that already holds [index]. *)
Definition host_with (dirty index : list string) : World :=
  {| w_cwd := w_cwd host; w_pid := w_pid host; w_clock := w_clock host;
     w_fs := w_fs host; w_readonly := w_readonly host;
     w_repo := w_repo host; w_tracked := w_tracked host; w_head := w_head host;
     w_branches := w_branches host; w_worktrees := w_worktrees host;
     w_dirty := dirty; w_index := index; w_log := w_log host;
     w_remotes := w_remotes host; w_bwrap := w_bwrap host;
     w_worker := w_worker host |}.

(** Ten papers done, results written, nothing else staged. *)
Definition host_results : World := host_with ["output/P1.json"; "notes.txt"] [].

(** The same with a file outside the output directory already staged. *)
Definition host_stray : World := host_with ["output/P1.json"] ["README.md"].

End Scenario.

(** Exact arithmetic in place of floats, and the parses of three inputs:
    what the calculator computes when no rounding occurs. *)
Module CalcScenario.
Import SafeCalc.

Definition zero_division : calc_exn := ArithError "ZeroDivisionError".

Definition guarded (f : Q -> Q -> Q) (a b : Q) : calc_exn + Q :=
  if Qeq_bool b 0 then inl zero_division else inr (f a b).

Definition q_floordiv (a b : Q) : Q := inject_Z (Qfloor (a / b)).

Definition q_mod (a b : Q) : Q := (a - b * q_floordiv a b)%Q.

(** Powers with an integral exponent only. *)
Definition q_pow (a b : Q) : calc_exn + Q :=
  if negb (Pos.eqb (Qden (Qred b)) 1) then inl (ArithError "TypeError")
  else if Qeq_bool a 0 && (Qnum (Qred b) <? 0)%Z then inl zero_division
  else inr (Qpower a (Qnum (Qred b))).

Definition of_int (z : Z) : calc_exn + Q := inr (inject_Z z).
Definition add (a b : Q) : calc_exn + Q := inr (a + b)%Q.
Definition sub (a b : Q) : calc_exn + Q := inr (a - b)%Q.
Definition mul (a b : Q) : calc_exn + Q := inr (a * b)%Q.
Definition pos (a : Q) : Q := a.

Definition eval (node : expr Q) (variables : gmap string Q) : calc_exn + Q :=
  _eval_node Q of_int add sub mul (guarded Qdiv) q_pow (guarded q_mod)
    (guarded q_floordiv) pos Qopp node variables.

Definition half : expr Q :=
  BinOp (Constant (CFloat (707 # 5))) Div (Constant (CInt 2)).

Definition import_os : expr Q := Other Call.

Definition x_plus_one : expr Q := BinOp (Name "x") Add (Constant (CInt 1)).

Definition parse (source : string) : string + expr Q :=
  if String.eqb source "141.4 / 2" then inr half
  else if String.eqb source "__import__('os')" then inr import_os
  else if String.eqb source "x + 1" then inr x_plus_one
  else inl "invalid syntax".

Definition safe_eval (expression : string) (variables : gmap string Q)
  : calc_exn + Q :=
  SafeCalc.safe_eval Q of_int add sub mul (guarded Qdiv) q_pow (guarded q_mod)
    (guarded q_floordiv) pos Qopp parse expression variables.

End CalcScenario.

(* ===================================================================== *)
(** * Further notions used to state properties *)
(* ===================================================================== *)

Module SlugClasses.
Import PyStr.

(** The letters and digits of the class [[A-Za-z0-9._-]]. *)
Definition is_alnum (c : ascii) : bool :=
  in_range 65 90 c || in_range 97 122 c || in_range 48 57 c.

End SlugClasses.

(** Further readings of a trace. *)
Module Traces.
Import PyPath Sys.

(** The exception an update of the file system raised, if it raised. *)
Definition failure_of (ev : Event) : option exn :=
  match ev with
  | Answered e r =>
      match e in Ev R return R -> option exn with
      | MkdirP _ | Rmtree _ | Unlink _ | Copytree _ _ | Copy2 _ _ => fun x => x
      | _ => fun _ => None
      end r
  end.

Definition failures (tr : list Event) : list exn := omap failure_of tr.

(** The records printed as JSON, oldest first. *)
Definition json_of (ev : Event) : option json :=
  match ev with
  | Answered (PrintJson j) _ => Some j
  | _ => None
  end.

Definition reported (tr : list Event) : list json := omap json_of tr.

(** The updates of the file system that were asked for. *)
Definition updates (tr : list Event) : list Event := List.filter is_update tr.

End Traces.

(** Further inputs of the scenario. *)
Module Scenario2.
Import PyStr PyPath Sys World Scenario.

(** [create] asked to start from a ref the repository does not have. *)
Definition create_args_bad_ref : GitWorktree.CreateArgs :=
  {| GitWorktree.paper_dir := "papers/P1";
     GitWorktree.skill_dir := ".codex/skills/cfst-paper-extractor";
     GitWorktree.worktrees_root := ".codex/worktrees";
     GitWorktree.branch_prefix := "cfst-worker";
     GitWorktree.base_ref := "no-such-ref";
     GitWorktree.output_dir := "tmp/P1" |}.

(** The host seen from a directory outside the repository. *)
Definition outside : World :=
  {| w_cwd := of_str "/etc"; w_pid := w_pid host; w_clock := w_clock host;
     w_fs := w_fs host; w_readonly := w_readonly host;
     w_repo := w_repo host; w_tracked := w_tracked host; w_head := w_head host;
     w_branches := w_branches host; w_worktrees := w_worktrees host;
     w_dirty := w_dirty host; w_index := w_index host; w_log := w_log host;
     w_remotes := w_remotes host; w_bwrap := w_bwrap host;
     w_worker := w_worker host |}.

(** The host where the worktrees root cannot be created. *)
Definition host_locked : World :=
  {| w_cwd := w_cwd host; w_pid := w_pid host; w_clock := w_clock host;
     w_fs := w_fs host;
     w_readonly := {[ ["repo"; ".codex"; "worktrees"] ]};
     w_repo := w_repo host; w_tracked := w_tracked host; w_head := w_head host;
     w_branches := w_branches host; w_worktrees := w_worktrees host;
     w_dirty := w_dirty host; w_index := w_index host; w_log := w_log host;
     w_remotes := w_remotes host; w_bwrap := w_bwrap host;
     w_worker := w_worker host |}.

End Scenario2.

(** What [_branch_for_worktree] needs of the texts in a listing. *)
Module Listing.
Import PyStr PyPath World.

Definition one_line (s : string) : bool :=
  all_chars (fun c => negb (is_linebreak c)) s.

Definition trimmed (s : string) : bool := String.eqb (strip s) s.

(** A worktree whose path and branch are printed on one line each and
    come back from [strip] as they are. *)
Definition readable (e : Path * string) : bool :=
  negb (String.eqb (to_str e.1) "")
  && one_line (to_str e.1) && trimmed (to_str e.1)
  && one_line e.2 && trimmed e.2.

(** The worktrees [git worktree list] shows in [w]: the main one first. *)
Definition listed (w : World) (r : Path) : list (Path * string) :=
  (r, w_head w) :: w_worktrees w.

(** The first listed worktree at the place of [wt]. *)
Definition branch_at (w : World) (r wt : Path) : option string :=
  option_map snd
    (List.find (fun e => path_eqb (canon w (of_str (to_str e.1))) (canon w wt))
       (listed w r)).

End Listing.

(** The order [_unique_sorted_dirs] sorts by, and the part of it that
    the creation of directories relies on. *)
Module DirOrder.
Import PyStr WorkerSandbox.

Definition key_le (p q : string) : Prop := dir_key_leb p q = true.

Definition depth_le (p q : string) : Prop :=
  (count_char "/" p <= count_char "/" q)%nat.

End DirOrder.

(** What a script wrote to its standard output. *)
Module Streams.
Import Sys.

Definition stdout_of (ev : Event) : bool :=
  match ev with
  | Answered (Print _) _ | Answered (PrintJson _) _ => true
  | _ => false
  end.

Definition to_stdout (tr : list Event) : list Event := List.filter stdout_of tr.

(** The programs looked up on the path, with what was found. *)
Definition which_of (ev : Event) : option (string * option string) :=
  match ev with
  | Answered e r =>
      match e in Ev R return R -> option (string * option string) with
      | Which prog => fun found => Some (prog, found)
      | _ => fun _ => None
      end r
  end.

Definition lookups (tr : list Event) : list (string * option string) :=
  omap which_of tr.

End Streams.

(* ===================================================================== *)
(** * safe_calc.py: [_parse_vars] *)
(* ===================================================================== *)

Module CalcVars.
Import PyStr SafeCalc.

(** [raw.split("=", 1)] for a [raw] that holds an [=]: what stands
    before the first one, and what stands after it. *)
Fixpoint before_first (c : ascii) (s : string) : string :=
  match s with
  | EmptyString => EmptyString
  | String x s' => if Ascii.eqb x c then EmptyString else String x (before_first c s')
  end.

Fixpoint after_first (c : ascii) (s : string) : string :=
  match s with
  | EmptyString => EmptyString
  | String x s' => if Ascii.eqb x c then s' else after_first c s'
  end.

(** [c in s]. *)
Definition contains (c : ascii) (s : string) : bool := negb (Nat.eqb (count_char c s) 0).

Section Vars.

Variable F : Type.

(** [str.isidentifier]. *)
Variable isidentifier : string -> bool.

(** [float(text)] for a string: [None] stands for its [ValueError]. *)
Variable float_of_str : string -> option F.

Definition var_name (raw : string) : string := strip (before_first "=" raw).

Definition var_text (raw : string) : string := strip (after_first "=" raw).

(** The loop of [_parse_vars] over the items still to read. *)
Fixpoint parse_vars_from (items : list string) (variables : gmap string F)
  : calc_exn + gmap string F :=
  match items with
  | [] => inr variables
  | raw :: rest =>
      if negb (contains "=" raw)
      then inl (ValueError ("Invalid --var '" +:+ raw +:+ "', expected key=value."))
      else
        let name := var_name raw in
        if negb (isidentifier name)
        then inl (ValueError ("Invalid variable name '" +:+ name +:+ "'."))
        else
          match float_of_str (var_text raw) with
          | None =>
              inl (ValueError ("Variable '" +:+ name +:+ "' value must be numeric."))
          | Some x => parse_vars_from rest (<[name := x]> variables)
          end
  end.

Definition _parse_vars (items : list string) : calc_exn + gmap string F :=
  parse_vars_from items ∅.

(** An item [_parse_vars] takes. *)
Definition well_formed (raw : string) : bool :=
  contains "=" raw && isidentifier (var_name raw)
  && bool_decide (is_Some (float_of_str (var_text raw))).

(** The value of the last item that names [name]. *)
Fixpoint last_value (name : string) (items : list string) : option F :=
  match items with
  | [] => None
  | raw :: rest =>
      match last_value name rest with
      | Some x => Some x
      | None =>
          if String.eqb (var_name raw) name then float_of_str (var_text raw) else None
      end
  end.

End Vars.

(** The names an expression reads. *)
Fixpoint names {F : Type} (node : expr F) : list string :=
  match node with
  | Constant _ => []
  | Name id => [id]
  | BinOp l _ r => (names l ++ names r)%list
  | UnaryOp _ e => names e
  | Other _ => []
  end.

End CalcVars.

(** Identifiers and numbers in ASCII, for running [_parse_vars] on
    examples: names of letters, digits and underscores that do not begin
    with a digit, and unsigned whole numbers. *)
Module CalcScenario2.
Import PyStr.

Definition is_ident_start (c : ascii) : bool :=
  in_range 65 90 c || in_range 97 122 c || Ascii.eqb c "_".

Definition ascii_identifier (s : string) : bool :=
  match s with
  | EmptyString => false
  | String c s' =>
      is_ident_start c && all_chars (fun d => is_ident_start d || is_digit d) s'
  end.

Definition whole_number (s : string) : option Q :=
  match s with
  | EmptyString => None
  | _ =>
      if all_chars is_digit s
      then option_map (fun u => inject_Z (Z.of_uint u)) (NilZero.uint_of_string s)
      else None
  end.

Definition parse_vars (items : list string) : SafeCalc.calc_exn + gmap string Q :=
  CalcVars._parse_vars Q ascii_identifier whole_number items.

End CalcScenario2.

(** A file system is sound at the place [k] when entries lie below [k]
    only if [k] is a directory. *)
Module FileTree.
Import World.

Definition sound_at (fs : gmap (list string) Kind) (k : list string) : Prop :=
  fs !! k <> Some Dir -> forall rest, rest <> [] -> fs !! (k ++ rest)%list = None.

End FileTree.

(* ===================================================================== *)
(** * Properties *)
(* ===================================================================== *)

Module StrFacts.
Import PyStr.

Lemma app_nil_r (s : string) : s +:+ "" = s.
Proof. induction s as [|c s IH]; simpl; [reflexivity | now rewrite IH]. Qed.

Lemma app_assoc (a b c : string) : (a +:+ b) +:+ c = a +:+ (b +:+ c).
Proof. induction a as [|x a IH]; simpl; [reflexivity | now rewrite IH]. Qed.

Lemma all_chars_app f a b :
  all_chars f (a +:+ b) = all_chars f a && all_chars f b.
Proof.
  induction a as [|c a IH]; simpl; [reflexivity|].
  rewrite IH. now rewrite andb_assoc.
Qed.

Lemma lstrip_split f s :
  exists pre, s = pre +:+ lstrip_by f s /\ all_chars f pre = true.
Proof.
  induction s as [|c s [pre [E A]]]; simpl.
  - exists "". auto.
  - destruct (f c) eqn:Fc.
    + exists (String c pre). simpl. rewrite Fc, A. split; [now f_equal | reflexivity].
    + exists "". auto.
Qed.

Lemma rstrip_split f s :
  exists post, s = rstrip_by f s +:+ post /\ all_chars f post = true.
Proof.
  induction s as [|c s [post [E A]]]; simpl.
  - exists "". auto.
  - destruct (rstrip_by f s) as [|d r] eqn:R.
    + destruct (f c) eqn:Fc.
      * exists (String c post). simpl in *. rewrite Fc, A. split; [now f_equal|reflexivity].
      * exists post. simpl in *. split; [now f_equal | assumption].
    + exists post. simpl in *. split; [now f_equal | assumption].
Qed.

Lemma lstrip_first f s c :
  Slug.first_char (lstrip_by f s) = Some c -> f c = false.
Proof.
  induction s as [|d s IH]; simpl; [discriminate|].
  destruct (f d) eqn:Fd; [exact IH|].
  simpl. intros [= <-]. exact Fd.
Qed.

Lemma rstrip_last f s c :
  Slug.last_char (rstrip_by f s) = Some c -> f c = false.
Proof.
  induction s as [|d s IH]; simpl; [discriminate|].
  destruct (rstrip_by f s) as [|e r] eqn:R.
  - destruct (f d) eqn:Fd; simpl; [discriminate|].
    intros [= <-]. exact Fd.
  - intros H. apply IH. exact H.
Qed.

Lemma rstrip_first f s c :
  Slug.first_char (rstrip_by f s) = Some c -> Slug.first_char s = Some c.
Proof.
  destruct s as [|d s]; simpl; [discriminate|].
  destruct (rstrip_by f s); [destruct (f d)|]; simpl; congruence.
Qed.

Lemma strip_by_split f s :
  exists pre post,
    s = pre +:+ strip_by f s +:+ post /\
    all_chars f pre = true /\ all_chars f post = true /\
    (forall c, Slug.first_char (strip_by f s) = Some c -> f c = false) /\
    (forall c, Slug.last_char (strip_by f s) = Some c -> f c = false).
Proof.
  destruct (lstrip_split f s) as [pre [E1 A1]].
  destruct (rstrip_split f (lstrip_by f s)) as [post [E2 A2]].
  exists pre, post. unfold strip_by. repeat split; try assumption.
  - rewrite <- E2. exact E1.
  - intros c H. apply rstrip_first in H. revert H. apply lstrip_first.
  - apply rstrip_last.
Qed.

Lemma all_chars_strip_by g f s :
  all_chars g s = true -> all_chars g (strip_by f s) = true.
Proof.
  destruct (strip_by_split f s) as [pre [post [E _]]].
  intros H. rewrite E in H. rewrite !all_chars_app in H.
  apply andb_prop in H as [_ H]. apply andb_prop in H as [H _]. exact H.
Qed.

End StrFacts.

Module SlugFacts.
Import PyStr Slug StrFacts.

Lemma re_sub_unsafe_safe b s : all_chars is_safe (re_sub_unsafe b s) = true.
Proof.
  revert b. induction s as [|c s IH]; intros b; simpl; [reflexivity|].
  destruct (is_safe c) eqn:Sc; simpl.
  - now rewrite Sc, IH.
  - destruct b; simpl; now rewrite ?IH.
Qed.

Lemma runs_collapsed_scan s :
  runs_collapsed s (re_sub_unsafe false s) /\
  (forall c, is_safe c = false ->
     runs_collapsed (String c s) (String "-" (re_sub_unsafe true s))).
Proof.
  induction s as [|d s [IH1 IH2]].
  - split; [constructor|]. intros c Hc.
    apply (rc_run c "" "" ""); simpl; auto. constructor.
  - split.
    + simpl. destruct (is_safe d) eqn:Sd.
      * now constructor.
      * now apply IH2.
    + intros c Hc. simpl. destruct (is_safe d) eqn:Sd.
      * apply (rc_run c "" (String d s)); simpl; auto. now constructor.
      * specialize (IH2 d Sd). inversion IH2 as [|? ? ? Hs|? u s0 t Hd Hu Hnext Hrest]; subst.
        { congruence. }
        apply (rc_run c (String d u) s0); auto.
        simpl. now rewrite Sd, Hu.
Qed.

(** C8 (as amended): [_sanitize_slug] strips the white space around the
    raw string, replaces every maximal run of characters outside the safe
    alphabet (letters, digits, dot, dash, underscore) by one dash instead
    of deleting it, trims dashes, underscores and dots from both ends and
    returns the default token ["paper"] when nothing is left.  Its result
    is never empty, is over the safe alphabet, and neither begins nor ends
    with a separator. *)
Theorem sanitize_slug_spec (raw : string) :
  exists mid t,
    runs_collapsed (strip raw) mid /\ trimmed_of mid t /\
    _sanitize_slug raw = (if String.eqb t "" then default_slug else t) /\
    _sanitize_slug raw <> "" /\
    all_chars is_safe (_sanitize_slug raw) = true /\
    (forall c, first_char (_sanitize_slug raw) = Some c -> is_sep c = false) /\
    (forall c, last_char (_sanitize_slug raw) = Some c -> is_sep c = false).
Proof.
  exists (re_sub_unsafe false (strip raw)),
         (strip_by is_sep (re_sub_unsafe false (strip raw))).
  pose proof (strip_by_split is_sep (re_sub_unsafe false (strip raw)))
    as [pre [post (E & A1 & A2 & Hf & Hl)]].
  split; [apply runs_collapsed_scan|].
  split; [exists pre, post; auto|].
  unfold _sanitize_slug.
  split; [reflexivity|].
  destruct (String.eqb_spec (strip_by is_sep (re_sub_unsafe false (strip raw))) "")
    as [Heq|Hne].
  - repeat split; try discriminate; try reflexivity;
      intros c [= <-]; reflexivity.
  - repeat split; auto.
    apply all_chars_strip_by, re_sub_unsafe_safe.
Qed.

Lemma sanitize_slug_keeps_a_dash :
  _sanitize_slug "a b" <> sanitizeIdentifier_as_described "a b".
Proof. vm_compute. discriminate. Qed.

End SlugFacts.

Module NameFacts.
Import PyStr PyPath Slug StrFacts SlugFacts GitWorktree.

Lemma count_char_app c a b :
  count_char c (a +:+ b) = count_char c a + count_char c b.
Proof. induction a as [|x a IH]; simpl; [reflexivity | rewrite IH; lia]. Qed.

Lemma after_last_app c a d :
  count_char c d = 0 -> after_last c (a +:+ String c d) = d.
Proof.
  intros Hd. induction a as [|x a IH]; simpl.
  - rewrite Hd. simpl. now rewrite Ascii.eqb_refl.
  - rewrite count_char_app. simpl. rewrite Ascii.eqb_refl.
    replace (count_char c a + (1 + count_char c d) =? 0)%nat with false
      by (symmetry; apply Nat.eqb_neq; lia).
    exact IH.
Qed.

Lemma digits_count c d :
  all_chars is_digit d = true -> is_digit c = false -> count_char c d = 0.
Proof.
  intros Hd Hc. induction d as [|x d IH]; simpl in *; [reflexivity|].
  apply andb_prop in Hd as [Hx Hd]. rewrite (IH Hd).
  destruct (Ascii.eqb_spec x c) as [->|_]; [congruence | reflexivity].
Qed.

Lemma string_of_uint_digits d :
  all_chars is_digit (NilEmpty.string_of_uint d) = true.
Proof. induction d; simpl; try rewrite IHd; reflexivity. Qed.

Lemma str_of_nat_digits n : all_chars is_digit (str_of_nat n) = true.
Proof. apply string_of_uint_digits. Qed.

Lemma str_of_nat_inj n m : str_of_nat n = str_of_nat m -> n = m.
Proof.
  unfold str_of_nat. intros H.
  apply DecimalNat.Unsigned.to_uint_inj.
  assert (Some (Nat.to_uint n) = Some (Nat.to_uint m)) as [= E]; [|exact E].
  rewrite <- !NilEmpty.usu. now rewrite H.
Qed.

Lemma after_last_pid a n :
  after_last "-" (a +:+ "-" +:+ str_of_nat n) = str_of_nat n.
Proof.
  apply (after_last_app "-" a (str_of_nat n)).
  apply digits_count; [apply str_of_nat_digits | reflexivity].
Qed.

Lemma branch_name_pid prefix slug stamp cwd pid :
  after_last "-" (branch_name prefix slug (suffix_of stamp cwd pid))
  = str_of_nat pid.
Proof.
  unfold branch_name, suffix_of.
  set (tail := "-" +:+ str_of_nat pid).
  rewrite <- (app_assoc "-" cwd tail), <- (app_assoc stamp _ tail),
    <- (app_assoc "-" _ tail), <- (app_assoc slug _ tail),
    <- (app_assoc "/" _ tail), <- (app_assoc prefix _ tail).
  apply after_last_pid.
Qed.

Lemma worktree_dir_pid slug stamp cwd pid :
  exists a, worktree_dir slug (suffix_of stamp cwd pid)
            = a +:+ "-" +:+ str_of_nat pid.
Proof.
  unfold worktree_dir, suffix_of.
  set (tail := "-" +:+ str_of_nat pid).
  rewrite <- (app_assoc "-" cwd tail), <- (app_assoc stamp _ tail),
    <- (app_assoc "-" _ tail), <- (app_assoc slug _ tail).
  eexists. reflexivity.
Qed.

Lemma split_on_nosep sep b : count_char sep b = 0 -> split_on sep b = [b].
Proof.
  induction b as [|x b IH]; simpl; [reflexivity|].
  destruct (Ascii.eqb x sep); [discriminate|].
  intros H. now rewrite (IH H).
Qed.

Lemma split_on_nonempty sep s : split_on sep s <> [].
Proof.
  destruct s as [|x s]; simpl; [discriminate|].
  destruct (Ascii.eqb x sep); [discriminate|].
  destruct (split_on sep s); discriminate.
Qed.

Lemma split_on_app_tail sep a b :
  count_char sep b = 0 ->
  split_on sep (a +:+ b)
  = (removelast (split_on sep a) ++ [List.last (split_on sep a) "" +:+ b])%list.
Proof.
  intros Hb. induction a as [|x a IH]; simpl.
  - now apply split_on_nosep.
  - pose proof (split_on_nonempty sep a) as Hne.
    destruct (Ascii.eqb x sep).
    + rewrite IH. destruct (split_on sep a) as [|w ws]; [congruence|]. reflexivity.
    + rewrite IH. destruct (split_on sep a) as [|w ws]; [congruence|].
      destruct ws as [|w' ws]; reflexivity.
Qed.

Lemma filter_snoc {A} (f : A -> bool) l x :
  f x = true -> List.filter f (l ++ [x]) = (List.filter f l ++ [x])%list.
Proof. intros H. rewrite List.filter_app. simpl. now rewrite H. Qed.

Lemma splitroot_relative c s :
  c <> "/"%char -> splitroot (String c s) = ("", String c s).
Proof.
  intros H. destruct c as [[] [] [] [] [] [] [] []]; try reflexivity.
  congruence.
Qed.

Lemma keep_part_dash w :
  count_char "-" w <> 0 -> keep_part w = true.
Proof.
  intros H. unfold keep_part.
  destruct (String.eqb_spec w "") as [->|_]; [simpl in H; congruence|].
  destruct (String.eqb_spec w ".") as [->|_]; [simpl in H; congruence|].
  reflexivity.
Qed.

(** The last component of the worktree path ends with the process id. *)
Lemma worktree_path_pid wt_root raw stamp cwd pid :
  after_last "-"
    (name (wt_root // worktree_dir (_sanitize_slug raw) (suffix_of stamp cwd pid)))
  = str_of_nat pid.
Proof.
  destruct (worktree_dir_pid (_sanitize_slug raw) stamp cwd pid) as [a Ha].
  assert (Hfirst : exists c s, worktree_dir (_sanitize_slug raw) (suffix_of stamp cwd pid)
                               = String c s /\ c <> "/"%char).
  { destruct (sanitize_slug_spec raw) as (mid & t & _ & _ & _ & Hne & Hsafe & _).
    unfold worktree_dir.
    destruct (_sanitize_slug raw) as [|c s]; [congruence|].
    exists c. eexists. split; [reflexivity|].
    simpl in Hsafe. apply andb_prop in Hsafe as [Hc _].
    intros ->. discriminate. }
  destruct Hfirst as (c & s & Hcs & Hc).
  assert (Hd : count_char "/" ("-" +:+ str_of_nat pid) = 0).
  { simpl. apply digits_count; [apply str_of_nat_digits | reflexivity]. }
  remember (worktree_dir (_sanitize_slug raw) (suffix_of stamp cwd pid)) as n.
  assert (Hof : of_str n = mkPath "" (List.filter keep_part (split_on "/" n))).
  { unfold of_str. rewrite Hcs, (splitroot_relative c s Hc). reflexivity. }
  unfold div. rewrite Hof. unfold joinpath, name, is_absolute. simpl.
  rewrite Ha, (split_on_app_tail "/" a _ Hd).
  rewrite filter_snoc.
  - rewrite List.app_assoc, List.last_last. apply after_last_pid.
  - apply keep_part_dash. rewrite count_char_app, count_char_app. simpl. lia.
Qed.



End NameFacts.

Module SysFacts.
Import Sys.

Lemma exec_bind {A B} (m : Prog A) (f : A -> Prog B) tr b :
  exec (bind m f) tr b <->
  exists tr1 tr2 a, tr = (tr1 ++ tr2)%list /\ exec m tr1 a /\ exec (f a) tr2 b.
Proof.
  revert tr. induction m as [a|R e k IH]; intros tr; simpl.
  - split.
    + intros H. exists [], tr, a. auto.
    + intros (tr1 & tr2 & a' & -> & [-> ->] & H). exact H.
  - split.
    + intros (r & tr' & -> & H). apply IH in H as (tr1 & tr2 & a & -> & H1 & H2).
      exists (Answered e r :: tr1), tr2, a. repeat split; eauto.
    + intros (tr1 & tr2 & a & -> & (r & tr' & -> & H1) & H2).
      exists r, (tr' ++ tr2)%list. split; [reflexivity|].
      apply IH. eauto 6.
Qed.

Lemma exec_trigger {R} (e : Ev R) tr r :
  exec (trigger e) tr r <-> tr = [Answered e r].
Proof.
  simpl. split.
  - intros (r' & tr' & -> & -> & ->). reflexivity.
  - intros ->. eauto.
Qed.

Lemma run_bind {W A B} (h : handler W) (m : Prog A) (f : A -> Prog B) w :
  run h (bind m f) w =
  let '(a, w1, t1) := run h m w in
  let '(b, w2, t2) := run h (f a) w1 in
  (b, w2, (t1 ++ t2)%list).
Proof.
  revert w. induction m as [a|R e k IH]; intros w; simpl.
  - destruct (run h (f a) w) as [[b w2] t2]. reflexivity.
  - destruct (h R e w) as [r w1]. rewrite IH.
    destruct (run h (k r) w1) as [[a w2] t1].
    destruct (run h (f a) w2) as [[b w3] t2]. reflexivity.
Qed.

Lemma run_exec {W A} (h : handler W) (p : Prog A) w :
  exec p (run h p w).2 (run h p w).1.1.
Proof.
  revert w. induction p as [a|R e k IH]; intros w; simpl; [auto|].
  destruct (h R e w) as [r w1]. specialize (IH r w1).
  destruct (run h (k r) w1) as [[a w2] tr]. simpl in *. eauto.
Qed.

End SysFacts.

Module PathFacts.
Import PyStr PyPath.

Lemma strip_prefix_Some pre l rest :
  strip_prefix pre l = Some rest <-> l = (pre ++ rest)%list.
Proof.
  revert l. induction pre as [|x pre IH]; intros l; simpl.
  - split; [intros [= ->]; reflexivity | intros ->; reflexivity].
  - destruct l as [|y l]; [split; discriminate|].
    destruct (String.eqb_spec x y) as [->|Hne].
    + rewrite IH. split; [intros ->; reflexivity | intros [= ->]; reflexivity].
    + split; [discriminate | intros [= E _]; congruence].
Qed.

Lemma relative_to_under p r :
  is_Some (relative_to p r) <-> under r p.
Proof.
  unfold relative_to, under.
  destruct (String.eqb_spec (root p) (root r)) as [E|E].
  - destruct (strip_prefix (parts r) (parts p)) as [rest|] eqn:S.
    + apply strip_prefix_Some in S. split; [|eauto].
      intros _. split; [assumption | exists rest; assumption].
    + split; [intros [? [=]]|]. intros [_ [k Hk]].
      apply strip_prefix_Some in Hk. congruence.
  - split; [intros [? [=]] | intros [? _]; contradiction].
Qed.

Lemma relative_to_None p r : relative_to p r = None <-> ~ under r p.
Proof.
  rewrite <- relative_to_under. destruct (relative_to p r) as [q|]; split.
  - discriminate.
  - intros H. exfalso. apply H. eauto.
  - intros _ [? [=]].
  - reflexivity.
Qed.

Lemma under_absolute r p : under r p -> is_absolute r = true -> is_absolute p = true.
Proof. intros [E _]. unfold is_absolute. now rewrite E. Qed.

Lemma norm_go_clean acc ps :
  ~ In ".." ps -> norm_go acc ps = (List.rev acc ++ ps)%list.
Proof.
  revert acc. induction ps as [|x ps IH]; intros acc H; simpl.
  - now rewrite List.app_nil_r.
  - destruct (String.eqb_spec x "..") as [->|_]; [exfalso; apply H; now left|].
    rewrite IH by (intros ?; apply H; now right).
    simpl. now rewrite <- List.app_assoc.
Qed.

Lemma normpath_clean p : ~ has_dotdot p -> normpath p = p.
Proof.
  intros H. destruct p as [rt ps]. unfold normpath. simpl.
  now rewrite norm_go_clean.
Qed.

End PathFacts.

Module ResolveFacts.
Import PyStr PyPath Sys SysFacts PathFacts GitWorktree World.



(** The variant used for the payload and the policy bundle takes absolute
    paths as well. *)
Lemma resolve_repo_relative_contract (repo_root : Path) (raw : string)
  (tr : list Event) (r : exn + Path * string) :
  exec (_resolve_repo_relative repo_root raw) tr r ->
  exists abs,
    tr = [Answered (Resolve (if is_absolute (of_str raw) then of_str raw
                             else joinpath repo_root (of_str raw))) abs] /\
    ((exists rel, relative_to abs repo_root = Some rel /\ under repo_root abs
                  /\ r = inr (abs, as_posix rel))
     \/ (~ under repo_root abs /\ is_value_error r)).
Proof.
  unfold _resolve_repo_relative. simpl. intros (abs & tr' & -> & H).
  exists abs. split.
  { destruct (is_absolute (of_str raw)); simpl in *;
      destruct (relative_to abs repo_root); simpl in H; destruct H as [-> _];
      reflexivity. }
  destruct (relative_to abs repo_root) as [rel|] eqn:Hrel; simpl in H;
    destruct H as [_ ->].
  - left. exists rel. repeat split; try reflexivity; apply relative_to_under; eauto.
  - right. split; [now apply relative_to_None | eexists; reflexivity].
Qed.


(** In a tree without links, a path that climbs out of the root is
    refused. *)
Lemma resolve_refuses_escape :
  is_value_error
    (run handle (_resolve_under_root (of_str "/repo") "../etc" "Output dir")
       Scenario.host).1.1.
Proof. vm_compute. eexists. reflexivity. Qed.

End ResolveFacts.

Module ManifestFacts.
Import PyStr PyPath Sys SysFacts PathFacts GitWorktree World.

Lemma div_relative p s :
  is_absolute (of_str s) = false ->
  p // s = mkPath (root p) (parts p ++ parts (of_str s)).
Proof. intros H. unfold div, joinpath. now rewrite H. Qed.

Lemma canon_absolute w p : is_absolute p = true -> canon w p = normpath p.
Proof. intros H. unfold canon. now rewrite H. Qed.

Lemma div_clean w wt s :
  is_absolute wt = true -> ~ has_dotdot wt -> clean_rel s ->
  canon w (wt // s) = wt // s /\ under wt (wt // s) /\ is_absolute (wt // s) = true.
Proof.
  intros Habs Hwt [Hrel Hs]. rewrite (div_relative wt s Hrel).
  assert (Ha : is_absolute {| root := root wt; parts := parts wt ++ parts (of_str s) |} = true)
    by exact Habs.
  repeat split; auto.
  - rewrite canon_absolute by exact Ha. apply normpath_clean.
    unfold has_dotdot in *. simpl. rewrite in_app_iff. tauto.
  - simpl. now exists (parts (of_str s)).
Qed.

Lemma under_div r p s :
  is_absolute (of_str s) = false -> under r p -> under r (p // s).
Proof.
  intros Hrel [E [k Hk]]. rewrite (div_relative p s Hrel). split; [exact E|].
  simpl. exists (k ++ parts (of_str s))%list. rewrite Hk. now rewrite <- List.app_assoc.
Qed.



(** The manifest of the scenario, spelled out. *)
Lemma sandbox_manifest_scenario :
  (run handle
     (_build_sandbox_paths Scenario.wt "papers/P1"
        ".codex/skills/cfst-paper-extractor" "tmp/P1") Scenario.host).1.1
  = {| allowed_rw :=
         ["/repo/.codex/worktrees/P1-20260101-120000-repo-4242/papers/P1";
          "/repo/.codex/worktrees/P1-20260101-120000-repo-4242/tmp/P1"];
       allowed_ro :=
         ["/repo/.codex/worktrees/P1-20260101-120000-repo-4242/.codex/skills/cfst-paper-extractor/SKILL.md";
          "/repo/.codex/worktrees/P1-20260101-120000-repo-4242/.codex/skills/cfst-paper-extractor/references";
          "/repo/.codex/worktrees/P1-20260101-120000-repo-4242/.codex/skills/cfst-paper-extractor/scripts"];
       entry_cwd := "/repo/.codex/worktrees/P1-20260101-120000-repo-4242/papers/P1" |}.
Proof. vm_compute. reflexivity. Qed.

End ManifestFacts.

Module SafeCalcFacts.
Import SafeCalc.

Section Eval.

Variable F : Type.
Variable float_of_int : Z -> calc_exn + F.
Variables op_add op_sub op_mul op_truediv op_pow op_mod op_floordiv
  : F -> F -> calc_exn + F.
Variables op_pos op_neg : F -> F.
Variable parse : string -> string + expr F.

Abbreviation eval_node :=
  (_eval_node F float_of_int op_add op_sub op_mul op_truediv op_pow op_mod
     op_floordiv op_pos op_neg).
Abbreviation eval_source :=
  (safe_eval F float_of_int op_add op_sub op_mul op_truediv op_pow op_mod
     op_floordiv op_pos op_neg parse).

Lemma allowed_bin_arithmetic op :
  is_Some (ALLOWED_BIN_OPS F op_add op_sub op_mul op_truediv op_pow op_mod
             op_floordiv op) <-> arithmetic_op op.
Proof.
  destruct op; simpl; split; intros H;
    try (eexists; reflexivity); try (destruct H as [? [=]]);
    unfold arithmetic_op in *; intuition (auto; discriminate).
Qed.

Lemma allowed_unary_sign op :
  is_Some (ALLOWED_UNARY_OPS F op_pos op_neg op) <-> sign_op op.
Proof.
  destruct op; simpl; split; intros H;
    try (eexists; reflexivity); try (destruct H as [? [=]]);
    unfold sign_op in *; intuition (auto; discriminate).
Qed.

Lemma eval_value_admitted variables node v :
  eval_node node variables = inr v -> admitted F variables node.
Proof.
  revert v. induction node as [c|id|l IHl op r IHr|op e IHe|k]; intros v; simpl.
  - intros H. constructor. destruct c; simpl; auto; discriminate.
  - destruct (variables !! id) as [x|] eqn:E; [|discriminate].
    intros _. constructor. rewrite E. eauto.
  - destruct (ALLOWED_BIN_OPS F op_add op_sub op_mul op_truediv op_pow op_mod
                op_floordiv op) as [f|] eqn:E; [|discriminate].
    destruct (eval_node l variables) as [|lv]; [discriminate|].
    destruct (eval_node r variables) as [|rv]; [discriminate|].
    intros _. constructor; eauto. apply allowed_bin_arithmetic. rewrite E. eauto.
  - destruct (ALLOWED_UNARY_OPS F op_pos op_neg op) as [f|] eqn:E; [|discriminate].
    destruct (eval_node e variables) as [|x]; [discriminate|].
    intros _. constructor; eauto. apply allowed_unary_sign. rewrite E. eauto.
  - discriminate.
Qed.

Lemma eval_refused_form variables node :
  refused_form F variables node -> is_value_error F (eval_node node variables).
Proof.
  unfold is_value_error. destruct node as [c|id|l op r|op e|k]; simpl.
  - destruct c; simpl; intros H; try (exfalso; now apply H); eexists; reflexivity.
  - intros ->. eexists; reflexivity.
  - intros H.
    destruct (ALLOWED_BIN_OPS F op_add op_sub op_mul op_truediv op_pow op_mod
                op_floordiv op) as [f|] eqn:E; [|eexists; reflexivity].
    exfalso. apply H, allowed_bin_arithmetic. rewrite E. eauto.
  - intros H.
    destruct (ALLOWED_UNARY_OPS F op_pos op_neg op) as [f|] eqn:E;
      [|eexists; reflexivity].
    exfalso. apply H, allowed_unary_sign. rewrite E. eauto.
  - intros _. eexists; reflexivity.
Qed.

(** C10: [safe_eval] returns a value only for an expression built
    from numeric constants, names bound in the variable map, the seven
    binary operations [+ - * / ** % //] and unary plus and minus; a node
    of any other form (a call, an attribute, a comparison, a subscript, a
    constant that is no number, an unbound name, another operator) makes
    its evaluation raise [ValueError]; an expression with such a node
    anywhere yields no value; and source text that does not parse raises
    [ValueError]. *)
Theorem safe_eval_admits_arithmetic_only (expression : string)
  (variables : gmap string F) :
  (forall v, eval_source expression variables = inr v ->
     exists body, parse (PyStr.strip expression) = inr body
                  /\ admitted F variables body) /\
  (forall body, parse (PyStr.strip expression) = inr body ->
     refused_form F variables body ->
     is_value_error F (eval_source expression variables)) /\
  (forall body, parse (PyStr.strip expression) = inr body ->
     ~ admitted F variables body ->
     exists e, eval_source expression variables = inl e) /\
  (forall msg, parse (PyStr.strip expression) = inl msg ->
     is_value_error F (eval_source expression variables)) /\
  (forall node, refused_form F variables node ->
     is_value_error F (eval_node node variables)).
Proof.
  unfold safe_eval. repeat split; [| | | |apply eval_refused_form].
  - intros v. destruct (parse (PyStr.strip expression)) as [msg|body]; [discriminate|].
    intros H. exists body. split; [reflexivity|]. eapply eval_value_admitted, H.
  - intros body -> H. now apply eval_refused_form.
  - intros body -> H.
    destruct (eval_node body variables) as [e|v] eqn:E; [eauto|].
    exfalso. eapply H, eval_value_admitted, E.
  - intros msg ->. eexists. reflexivity.
Qed.

End Eval.

Lemma safe_eval_admits_arithmetic_only_witness :
  (exists body, CalcScenario.parse (PyStr.strip " 141.4 / 2 ") = inr body
                /\ admitted Q ∅ body) /\
  is_value_error Q (CalcScenario.safe_eval "__import__('os')" ∅) /\
  (exists e, CalcScenario.safe_eval "x + 1" ∅ = inl e) /\
  is_value_error Q (CalcScenario.safe_eval "2 +" ∅).
Proof.
  pose proof (fun expression =>
    safe_eval_admits_arithmetic_only Q CalcScenario.of_int
      CalcScenario.add CalcScenario.sub CalcScenario.mul
      (CalcScenario.guarded Qdiv) CalcScenario.q_pow
      (CalcScenario.guarded CalcScenario.q_mod)
      (CalcScenario.guarded CalcScenario.q_floordiv)
      CalcScenario.pos Qopp CalcScenario.parse expression ∅) as exact_calc_spec.
  repeat split.
  - destruct (exact_calc_spec " 141.4 / 2 ") as (H & _).
    apply (H (707 # 10)%Q). vm_compute. reflexivity.
  - destruct (exact_calc_spec "__import__('os')") as (_ & H & _).
    apply (H CalcScenario.import_os); [vm_compute; reflexivity | exact I].
  - destruct (exact_calc_spec "x + 1") as (_ & _ & H & _).
    apply (H CalcScenario.x_plus_one); [vm_compute; reflexivity|].
    intros Hadm. inversion Hadm as [| |l op r _ Hx _|]; subst.
    inversion Hx as [|id [y Hy]| |]; subst. discriminate Hy.
  - destruct (exact_calc_spec "2 +") as (_ & _ & _ & H & _).
    apply (H "invalid syntax"). vm_compute. reflexivity.
Defined.

(** [141.4 / 2] is [70.7]. *)
Lemma safe_eval_half : CalcScenario.safe_eval "141.4 / 2" ∅ = inr (707 # 10)%Q.
Proof. vm_compute. reflexivity. Qed.

End SafeCalcFacts.

Module SandboxFacts.
Import PyStr PyPath Sys SysFacts PathFacts WorkerSandbox World.

(** One step along a run: name the answer of a request, or split on the
    value a branch of the script looks at. *)
Ltac scrutinee p :=
  lazymatch p with
  | bind ?m _ => scrutinee m
  | bindE ?m _ => scrutinee m
  | lift ?m => scrutinee m
  | (if ?b then _ else _) => b
  | (match ?x with _ => _ end) => x
  end.

Ltac exec_step H :=
  lazymatch type of H with
  | ex _ => let r := fresh "ans" in let tr := fresh "tr" in
            destruct H as (r & tr & -> & H)
  | _ /\ _ => destruct H as [-> ->]
  | exec ?p _ _ =>
      first [ progress simpl in H
            | progress unfold bindE, ok, raise, lift, attempt, trigger in H
            | let x := scrutinee p in destruct x eqn:? ]
  end.

Ltac exec_all H := repeat exec_step H.

Lemma system_flags_if (b : bool) (p : string) (rest : list string) :
  In p SYSTEM_RO_PATHS -> Forall system_flag rest ->
  Forall system_flag ((if b then ["--ro-bind"; p; p] else []) ++ rest)%list.
Proof.
  intros Hp Hrest. destruct b; simpl; [|assumption].
  repeat apply List.Forall_cons; try assumption;
    unfold system_flag; auto.
Qed.


Ltac split_or H :=
  lazymatch type of H with
  | _ \/ _ => destruct H as [H|H]; split_or H
  | False => contradiction
  | _ => idtac
  end.

Ltac decide_answers :=
  repeat match goal with
  | H : negb ?b = false |- _ => apply negb_false_iff in H; subst b
  | H : negb ?b = true |- _ => apply negb_true_iff in H; subst b
  end.

(** C5: when a directory or file check of [main] is answered in the
    negative, no process is started, no update of the file system has been
    asked for, [main] returns 1 and prints one failure line that names the
    path that was checked.  And whenever a process is started, the payload
    directory, [SKILL.md], [references] and [scripts] had been found, the
    output directory had been created, and the command is the sandbox
    command over exactly these paths and read-only bindings of the fixed
    system paths. *)
Theorem run_refuses_missing_paths (a : Args) (tr : list Event) (r : exn + Z) :
  exec (main a) tr r ->
  (forall q,
     In (ProbeDir q, false) (probes tr) \/ In (ProbeFile q, false) (probes tr) ->
     spawned tr = [] /\ List.forallb (fun ev => negb (is_update ev)) tr = true /\
     r = inr 1%Z /\
     exists what, printed tr = ["[FAIL] " +:+ what +:+ ": " +:+ to_str q]) /\
  (forall cmd rc, In (cmd, rc) (spawned tr) ->
     exists bwrap_bin sys paper_abs skill_abs output_abs paper_rel skill_rel output_rel,
       In (ProbeDir paper_abs, true) (probes tr) /\
       In (ProbeFile (skill_abs // "SKILL.md"), true) (probes tr) /\
       In (ProbeDir (skill_abs // "references"), true) (probes tr) /\
       In (ProbeDir (skill_abs // "scripts"), true) (probes tr) /\
       In (Answered (MkdirP output_abs) None) tr /\
       Forall system_flag sys /\
       cmd = sandbox_command bwrap_bin sys paper_abs output_abs skill_abs
               paper_rel output_rel skill_rel (cwd_mode a)
               (strip_dashdash (worker_cmd a))).
Proof.
  intros H. unfold main, launch, _resolve_base_path, _resolve_under in H.
  exec_all H; decide_answers; simpl; (split; [|try tauto]).
  all: try (intros q Hq; split_or Hq; try discriminate Hq;
            injection Hq as <-; repeat split;
            first [ exists "Worktree path is not a directory"; reflexivity
                  | exists "Paper directory not found"; reflexivity
                  | exists "Skill directory not found"; reflexivity
                  | exists "Missing skill file"; reflexivity
                  | exists "Missing references directory"; reflexivity
                  | exists "Missing scripts directory"; reflexivity ]).
  intros cmd rc [[= <- <-]|[]].
  do 8 eexists.
  refine (conj _ (conj _ (conj _ (conj _ (conj _ (conj _ eq_refl)))))).
  all: try (repeat first [left; reflexivity | right]; fail).
  unfold SYSTEM_RO_PATHS.
  repeat (apply system_flags_if; [simpl; tauto|]).
  apply List.Forall_nil.
Qed.

(** The scenario: a manifest whose payload directory is missing is
    refused, and the message names that directory. *)
Lemma run_refuses_missing_paths_payload :
  let out := run handle (main Scenario.sandbox_args_missing) Scenario.staged in
  spawned out.2 = [] /\
  List.forallb (fun ev => negb (is_update ev)) out.2 = true /\
  out.1.1 = inr 1%Z /\
  exists what,
    printed out.2
    = ["[FAIL] " +:+ what +:+ ": "
       +:+ to_str (of_str "/repo/.codex/worktrees/P1-20260101-120000-repo-4242/papers/P2")].
Proof.
  refine (proj1 (run_refuses_missing_paths _ _ _
                   (run_exec handle (main Scenario.sandbox_args_missing)
                      Scenario.staged))
            (of_str "/repo/.codex/worktrees/P1-20260101-120000-repo-4242/papers/P2")
            (or_introl _)).
  vm_compute. right. right. left. reflexivity.
Defined.


End SandboxFacts.

Module RemoveFacts.
Import PyStr PyPath Sys SysFacts PathFacts GitWorktree World.
Import SandboxFacts.

Lemma probes_app t1 t2 : probes (t1 ++ t2) = (probes t1 ++ probes t2)%list.
Proof. apply omap_app. Qed.

Lemma printed_app t1 t2 : printed (t1 ++ t2) = (printed t1 ++ printed t2)%list.
Proof. apply omap_app. Qed.

Lemma commands_app t1 t2 : commands (t1 ++ t2) = (commands t1 ++ commands t2)%list.
Proof. apply omap_app. Qed.

Lemma branch_scan_silent wt lines b c tr r :
  exec (branch_scan wt lines b c) tr r ->
  probes tr = [] /\ printed tr = [] /\ commands tr = [].
Proof.
  revert b c tr. induction lines as [|line rest IH]; intros b c tr H.
  - simpl in H. destruct H as [-> _]. auto.
  - simpl in H.
    destruct (startswith "worktree " line); [now apply IH in H|].
    destruct (startswith "branch " line); [|now apply IH in H].
    destruct c as [cp|]; [|now apply IH in H].
    destruct (String.eqb cp ""); [now apply IH in H|].
    simpl in H. destruct H as (here & tr1 & -> & wanted & tr2 & -> & H).
    destruct (path_eqb here wanted).
    + destruct H as [-> _]. auto.
    + apply IH in H. exact H.
Qed.

Lemma branch_for_worktree_probes repo wt tr r :
  exec (_branch_for_worktree repo wt) tr r -> probes tr = [] /\ printed tr = [].
Proof.
  unfold _branch_for_worktree. simpl. intros (proc & tr' & -> & H).
  destruct (negb (returncode proc =? 0)%Z).
  - destruct H as [-> _]. auto.
  - apply branch_scan_silent in H as (? & ? & ?). simpl. auto.
Qed.

Lemma remove_missing_worktree_trace (a : RemoveArgs) (tr : list Event) (r : Z) :
  exec (_remove a) tr r ->
  forall p, In (ProbeExists p, false) (probes tr) ->
  r = 1%Z /\
  printed tr = ["[FAIL] Worktree path does not exist: " +:+ to_str p] /\
  exists cwd, commands tr = [["git"; "-C"; to_str cwd; "rev-parse"; "--show-toplevel"]].
Proof.
  intros H p. unfold _remove, _repo_root, _branch_for_worktree in H.
  exec_all H; decide_answers.
  all: try (apply exec_bind in H as (t1 & t2 & br & -> & Hscan & H);
            apply branch_scan_silent in Hscan as (P1 & P2 & P3); exec_all H).
  all: unfold probes, printed, commands in *; simpl;
       rewrite ?omap_app, ?P1, ?P2, ?P3; simpl.
  all: intros Hp; split_or Hp; try discriminate Hp.
  injection Hp as <-. repeat split. eexists. reflexivity.
Qed.

End RemoveFacts.

Module WorldFacts.
Import PyStr PyPath Sys SysFacts PathFacts GitWorktree World.
Import SandboxFacts RemoveFacts.

Lemma run_runs {W A} (h : handler W) (p : Prog A) w :
  runs h p w (run h p w).2 (run h p w).1.1 (run h p w).1.2.
Proof.
  revert w. induction p as [a|R e k IH]; intros w; simpl; [auto|].
  destruct (h R e w) as [r w1] eqn:E. specialize (IH r w1).
  destruct (run h (k r) w1) as [[a w2] tr]. simpl in *.
  exists r, w1, tr. auto.
Qed.

Lemma runs_run {W A} (h : handler W) (p : Prog A) w tr a w' :
  runs h p w tr a w' -> run h p w = (a, w', tr).
Proof.
  revert w tr. induction p as [a0|R e k IH]; intros w tr; simpl.
  - intros (-> & -> & ->). reflexivity.
  - intros (r & w1 & tr' & E & -> & H). rewrite E. now rewrite (IH _ _ _ H).
Qed.

Lemma runs_exec {W A} (h : handler W) (p : Prog A) w tr a w' :
  runs h p w tr a w' -> exec p tr a.
Proof.
  revert w tr. induction p as [a0|R e k IH]; intros w tr; simpl.
  - intros (-> & -> & _). auto.
  - intros (r & w1 & tr' & _ & -> & H). eauto.
Qed.

Lemma runs_bind {W A B} (h : handler W) (m : Prog A) (f : A -> Prog B) w tr b w' :
  runs h (bind m f) w tr b w' <->
  exists tr1 tr2 a w1,
    tr = (tr1 ++ tr2)%list /\ runs h m w tr1 a w1 /\ runs h (f a) w1 tr2 b w'.
Proof.
  revert w tr. induction m as [a|R e k IH]; intros w tr; simpl.
  - split.
    + intros H. exists [], tr, a, w. auto.
    + intros (tr1 & tr2 & a' & w1 & -> & (-> & -> & ->) & H). exact H.
  - split.
    + intros (r & w1 & tr' & E & -> & H).
      apply IH in H as (tr1 & tr2 & a & w2 & -> & H1 & H2).
      exists (Answered e r :: tr1), tr2, a, w2. repeat split; eauto 8.
    + intros (tr1 & tr2 & a & w2 & -> & (r & w1 & tr' & E & -> & H1) & H2).
      exists r, w1, (tr' ++ tr2)%list. repeat split; auto.
      apply IH. eauto 8.
Qed.

Lemma canon_view w w' p : w_cwd w' = w_cwd w -> canon w' p = canon w p.
Proof. unfold canon. now intros ->. Qed.

Lemma handle_quiet {R} (e : Ev R) w :
  starts_command e = false -> git_view (handle R e w).2 = git_view w.
Proof.
  destruct e; simpl; try discriminate; intros _; try reflexivity.
  - unfold mkdir_p. repeat (destruct (existsb _ _)); reflexivity.
  - unfold rmtree. repeat (destruct (negb _) || destruct (denied _ _)); reflexivity.
  - unfold unlink. repeat (destruct (negb _) || destruct (denied _ _)); reflexivity.
  - unfold copytree.
    repeat (destruct (negb _) || destruct (bool_decide _) || destruct (denied _ _));
      reflexivity.
  - unfold copy2. destruct (negb _); [reflexivity|].
    destruct (denied _ _); reflexivity.
Qed.

Lemma runs_quiet {A} (p : Prog A) w tr a w' :
  quiet p -> runs handle p w tr a w' -> git_view w' = git_view w.
Proof.
  revert w tr. induction p as [a0|R e k IH]; intros w tr; simpl.
  - intros _ (_ & _ & ->). reflexivity.
  - intros [He Hk] (r & w1 & tr' & E & -> & H).
    rewrite (IH r w1 tr' (Hk r) H).
    pose proof (handle_quiet e w He) as Hq. now rewrite E in Hq.
Qed.

Lemma lookup_remove_subtree (d : list string) (fs : gmap (list string) Kind)
  (k : list string) :
  d `prefix_of` k -> remove_subtree d fs !! k = None.
Proof.
  intros H. unfold remove_subtree. apply map_lookup_filter_None.
  right. intros x _ Hn. apply Hn. exact H.
Qed.

End WorldFacts.

Module RoundTrip.
Import PyStr PyPath StrFacts NameFacts PathFacts.

Lemma split_on_pieces sep s :
  Forall (fun x => count_char sep x = 0) (split_on sep s).
Proof.
  induction s as [|c s IH]; simpl.
  - repeat constructor.
  - destruct (Ascii.eqb c sep) eqn:E.
    + constructor; [reflexivity | exact IH].
    + destruct (split_on sep s) as [|w ws]; simpl.
      * repeat constructor. simpl. now rewrite E.
      * inversion IH as [|? ? Hw Hws]; subst. constructor; [|exact Hws].
        simpl. now rewrite E, Hw.
Qed.

Lemma splitroot_roots s :
  (splitroot s).1 = "" \/ (splitroot s).1 = "/" \/ (splitroot s).1 = "//".
Proof.
  destruct s as [|c s]; [simpl; auto|].
  destruct (Ascii.eqb_spec c "/") as [->|Hc].
  - destruct s as [|d s]; [simpl; auto|].
    destruct (Ascii.eqb_spec d "/") as [->|Hd].
    + destruct s as [|e s]; [simpl; auto|].
      destruct (Ascii.eqb_spec e "/") as [->|He]; [simpl; auto|].
      destruct e as [[] [] [] [] [] [] [] []]; simpl; auto; congruence.
    + destruct d as [[] [] [] [] [] [] [] []]; simpl; auto; congruence.
  - rewrite (splitroot_relative c s Hc). auto.
Qed.

Lemma of_str_wf s : wf_path (of_str s).
Proof.
  unfold of_str. pose proof (splitroot_roots s) as Hr.
  destruct (splitroot s) as [rt rel]. split; [exact Hr|]. simpl.
  apply List.Forall_forall. intros x Hx. apply List.filter_In in Hx as [Hin Hk].
  split; [exact Hk|].
  pose proof (split_on_pieces "/" rel) as Hp.
  rewrite List.Forall_forall in Hp. now apply Hp.
Qed.

Lemma joinpath_wf p q : wf_path p -> wf_path q -> wf_path (joinpath p q).
Proof.
  intros [Rp Pp] [Rq Pq]. unfold joinpath. destruct (is_absolute q).
  - split; assumption.
  - split; [exact Rp|]. simpl. apply List.Forall_app. auto.
Qed.

Lemma norm_go_wf acc ps :
  Forall wf_part acc -> Forall wf_part ps -> Forall wf_part (norm_go acc ps).
Proof.
  revert acc. induction ps as [|x ps IH]; intros acc Ha Hp; simpl.
  - now apply List.Forall_rev.
  - inversion Hp as [|? ? Hx Hps]; subst.
    destruct (String.eqb x "..").
    + apply IH; [|exact Hps]. destruct acc; simpl; [constructor|].
      now inversion Ha.
    + apply IH; [|exact Hps]. now constructor.
Qed.

Lemma normpath_wf p : wf_path p -> wf_path (normpath p).
Proof.
  intros [R P]. split; [exact R|]. simpl. apply norm_go_wf; [constructor | exact P].
Qed.

Lemma split_on_join parts :
  Forall (fun x => count_char "/" x = 0) parts -> parts <> [] ->
  split_on "/" (join "/" parts) = parts.
Proof.
  induction parts as [|w ws IH]; intros H Hne; [congruence|].
  inversion H as [|? ? Hw Hws]; subst.
  destruct ws as [|w' ws].
  - simpl. now apply split_on_nosep.
  - change (join "/" (w :: w' :: ws)) with (w +:+ "/" +:+ join "/" (w' :: ws)).
    assert (Hcons : forall a b, count_char "/" a = 0 ->
              split_on "/" (a +:+ String "/" b) = a :: split_on "/" b).
    { intros a b. induction a as [|c a IHa]; simpl.
      - reflexivity.
      - destruct (Ascii.eqb c "/") eqn:E; [discriminate|].
        intros Ha. now rewrite (IHa Ha). }
    change ("/" +:+ join "/" (w' :: ws)) with (String "/" (join "/" (w' :: ws))).
    rewrite (Hcons _ _ Hw), IH; [reflexivity | exact Hws | discriminate].
Qed.

Lemma filter_keep_wf parts :
  Forall wf_part parts -> List.filter keep_part parts = parts.
Proof.
  induction 1 as [|x l [Hk _] _ IH]; simpl; [reflexivity|].
  now rewrite Hk, IH.
Qed.

Lemma wf_part_first x :
  wf_part x -> exists c s, x = String c s /\ c <> "/"%char.
Proof.
  intros [Hk Hc]. destruct x as [|c s]; [discriminate|].
  exists c, s. split; [reflexivity|]. intros ->. simpl in Hc. discriminate.
Qed.

Lemma parse_parts parts :
  Forall wf_part parts ->
  List.filter keep_part (split_on "/" (join "/" parts)) = parts.
Proof.
  intros H. destruct parts as [|w ws]; [reflexivity|].
  rewrite split_on_join; [now apply filter_keep_wf | | discriminate].
  eapply List.Forall_impl; [|exact H]. now intros x [_ Hx].
Qed.

Lemma join_first w ws :
  exists s, join "/" (w :: ws) = w +:+ s.
Proof.
  destruct ws as [|w' ws]; simpl.
  - exists "". now rewrite app_nil_r.
  - eexists. reflexivity.
Qed.

Lemma splitroot_join rt c t :
  c <> "/"%char -> rt = "" \/ rt = "/" \/ rt = "//" ->
  splitroot (rt +:+ String c t) = (rt, String c t).
Proof.
  intros Hc [->|[->| ->]].
  - apply splitroot_relative, Hc.
  - simpl. destruct c as [[] [] [] [] [] [] [] []]; try reflexivity. congruence.
  - simpl. destruct c as [[] [] [] [] [] [] [] []]; try reflexivity. congruence.
Qed.

(** Printing a path and reading it back gives the path. *)
Lemma of_str_to_str p : wf_path p -> of_str (to_str p) = p.
Proof.
  destruct p as [rt ps]. intros [Hr Hp]. simpl in Hr, Hp.
  destruct ps as [|w ws].
  - destruct Hr as [->|[->| ->]]; reflexivity.
  - assert (Hto : to_str {| root := rt; parts := w :: ws |}
                  = rt +:+ join "/" (w :: ws))
      by (destruct Hr as [->|[->| ->]]; reflexivity).
    pose proof (parse_parts (w :: ws) Hp) as Hparse.
    inversion Hp as [|? ? Hw _]; subst.
    destruct (wf_part_first w Hw) as (c & s & -> & Hc).
    destruct (join_first (String c s) ws) as [rest Hj].
    remember (join "/" (String c s :: ws)) as j.
    assert (Hs : splitroot (rt +:+ j) = (rt, j)).
    { rewrite Hj. apply (splitroot_join rt c (s +:+ rest) Hc Hr). }
    unfold of_str. rewrite Hto, Hs, Hparse. reflexivity.
Qed.

End RoundTrip.

Module RemoveTwice.
Import PyStr PyPath Sys SysFacts PathFacts GitWorktree World.
Import SandboxFacts RemoveFacts WorldFacts RoundTrip.

(** The answer of the environment, split on what it depends on. *)
Ltac split_answer E :=
  repeat (lazymatch type of E with
          | (_, _) = (_, _) => fail
          | (match ?x with _ => _ end) = _ => destruct x eqn:?
          | _ => progress simpl in E
          end);
  injection E as <- <-.

Ltac runs_step H :=
  lazymatch type of H with
  | ex _ => let r := fresh "ans" in let w1 := fresh "w" in
            let tr := fresh "tr" in let E := fresh "E" in
            destruct H as (r & w1 & tr & E & -> & H);
            simpl in E; unfold worktree_remove, branch_delete, worktree_add in E;
            split_answer E
  | _ /\ _ => destruct H as (-> & -> & ->)
  | runs _ ?p _ _ _ _ =>
      first [ progress simpl in H
            | let x := scrutinee p in destruct x eqn:? ]
  end.

Ltac runs_all H := repeat runs_step H.

Lemma branch_scan_world wt lines b c w tr r w' :
  runs handle (branch_scan wt lines b c) w tr r w' -> w' = w.
Proof.
  revert b c tr. induction lines as [|line rest IH]; intros b c tr H.
  - simpl in H. now destruct H as (_ & _ & ->).
  - simpl in H.
    destruct (startswith "worktree " line); [now apply IH in H|].
    destruct (startswith "branch " line); [|now apply IH in H].
    destruct c as [cp|]; [|now apply IH in H].
    destruct (String.eqb cp ""); [now apply IH in H|].
    simpl in H.
    destruct H as (here & w1 & tr1 & [= <- <-] & -> & wanted & w2 & tr2 & [= <- <-] & -> & H).
    destruct (path_eqb _ _).
    + now destruct H as (_ & _ & ->).
    + now apply IH in H.
Qed.

Lemma remove_outcome (w : World) (a : RemoveArgs) tr r w' :
  runs handle (_remove a) w tr r w' ->
  match locate w (worktree_path a) with
  | None => r = 2%Z /\ w' = w
  | Some (repo_root, wt_path) =>
      if probe w wt_path None then
        r = 0%Z ->
        w_cwd w' = w_cwd w /\ w_repo w' = w_repo w /\
        w_fs w' = remove_subtree (key w (of_str (to_str wt_path))) (w_fs w)
      else r = 1%Z /\ w' = w /\ In (ProbeExists wt_path, false) (probes tr)
  end.
Proof.
  intros H. unfold _remove, _repo_root, _branch_for_worktree, locate in *.
  runs_all H.
  all: try (apply runs_bind in H as (t1 & t2 & br & wb & -> & Hscan & H);
            apply branch_scan_world in Hscan as ->; runs_all H).
  all: repeat match goal with
       | H : negb ?b = true |- _ => apply negb_true_iff in H
       | H : negb ?b = false |- _ => apply negb_false_iff in H
       end.
  all: repeat match goal with
       | H : probe _ _ _ = _ |- _ => rewrite H
       end.
  all: try (split; [reflexivity|]; split; [reflexivity|];
            unfold probes; simpl; tauto).
  all: try (intros [=]; fail).
  all: try (intros _; unfold with_git; simpl; repeat split; congruence).
  all: try (split; reflexivity).
  all: intros _; unfold with_git; simpl; repeat split; try congruence.
  all: try match goal with H : None = Some _ |- _ => discriminate H end.
  all: repeat match goal with
       | H : Some _ = Some _ |- _ => injection H as ->
       end; assumption.
Qed.

Lemma locate_view w w' raw :
  w_cwd w' = w_cwd w -> w_repo w' = w_repo w -> locate w' raw = locate w raw.
Proof.
  intros Hc Hr. unfold locate, key, canon. now rewrite Hc, Hr.
Qed.

Lemma canon_wf w p : wf_path (w_cwd w) -> wf_path p -> wf_path (canon w p).
Proof.
  intros Hc Hp. unfold canon. apply normpath_wf.
  destruct (is_absolute p); [exact Hp | now apply joinpath_wf].
Qed.

Lemma locate_wf w raw repo_root wt_path :
  wf_path (w_cwd w) -> locate w raw = Some (repo_root, wt_path) ->
  wf_path wt_path.
Proof.
  intros Hc. unfold locate. destruct (w_repo w) as [r|]; [|discriminate].
  destruct (bool_decide _); [|discriminate]. intros [= <- <-].
  apply canon_wf; [exact Hc|].
  destruct (negb _); [apply joinpath_wf|]; try apply of_str_wf.
  apply canon_wf; [exact Hc | apply of_str_wf].
Qed.

(** C7: whenever [_remove] finds that the worktree path does not
    exist, it returns 1 after printing that the worktree path does not
    exist, and has started no command but the one that finds the
    repository.  In the reference environment, [_remove] called again
    after a call that returned 0 returns 1 with that message and changes
    nothing. *)
Theorem remove_missing_worktree (a : RemoveArgs) :
  (forall tr r, exec (_remove a) tr r ->
     forall p, In (ProbeExists p, false) (probes tr) ->
     r = 1%Z /\
     printed tr = ["[FAIL] Worktree path does not exist: " +:+ to_str p] /\
     exists cwd,
       commands tr = [["git"; "-C"; to_str cwd; "rev-parse"; "--show-toplevel"]]) /\
  (forall w : World,
     wf_path (w_cwd w) ->
     (run handle (_remove a) w).1.1 = 0%Z ->
     let again := run handle (_remove a) (run handle (_remove a) w).1.2 in
     again.1.1 = 1%Z /\ again.1.2 = (run handle (_remove a) w).1.2 /\
     exists p, printed again.2
               = ["[FAIL] Worktree path does not exist: " +:+ to_str p]).
Proof.
  split; [apply remove_missing_worktree_trace|].
  intros w Hwf H0. simpl.
  pose proof (run_runs handle (_remove a) w) as R1.
  set (w1 := (run handle (_remove a) w).1.2) in *.
  apply remove_outcome in R1.
  destruct (locate w (worktree_path a)) as [[rr wt]|] eqn:L;
    [|destruct R1 as [R1 _]; rewrite R1 in H0; discriminate].
  destruct (probe w wt None) eqn:P;
    [|destruct R1 as [R1 _]; rewrite R1 in H0; discriminate].
  destruct (R1 H0) as (Hc & Hr & Hfs).
  pose proof (run_runs handle (_remove a) w1) as R2.
  pose proof (runs_exec _ _ _ _ _ _ R2) as X2.
  apply remove_outcome in R2.
  rewrite (locate_view w w1 _ Hc Hr), L in R2.
  assert (P1 : probe w1 wt None = false).
  { unfold probe, key. rewrite (canon_view w w1 wt Hc), Hfs.
    rewrite (of_str_to_str wt (locate_wf w _ rr wt Hwf L)).
    unfold key. now rewrite lookup_remove_subtree. }
  rewrite P1 in R2. destruct R2 as (E1 & E2 & Hin).
  destruct (remove_missing_worktree_trace a _ _ X2 wt Hin) as (_ & Hp & _).
  split; [exact E1|]. split; [exact E2|]. exists wt. exact Hp.
Qed.

(** The scenario: a worktree that was never made, and one removed
    twice. *)
Lemma remove_missing_worktree_twice :
  (run handle (_remove Scenario.remove_args) Scenario.host).1.1 = 1%Z /\
  (run handle (_remove Scenario.remove_args)
     (run handle (_remove Scenario.remove_args) Scenario.staged).1.2).1.1 = 1%Z.
Proof.
  split.
  - refine (proj1 (proj1 (remove_missing_worktree Scenario.remove_args) _ _
                     (run_exec handle (_remove Scenario.remove_args) Scenario.host)
                     Scenario.wt _)).
    vm_compute. left. reflexivity.
  - refine (proj1 (proj2 (remove_missing_worktree Scenario.remove_args)
                     Scenario.staged _ _)).
    + vm_compute. split; [auto|]. repeat constructor.
    + vm_compute. reflexivity.
Defined.

End RemoveTwice.

Module CheckpointFacts.
Import PyStr PyPath Sys SysFacts StrFacts NameFacts Checkpoint.
Import SandboxFacts.

Lemma prefix_app p s : String.prefix p s = true <-> exists r, s = p +:+ r.
Proof.
  revert s. induction p as [|c p IH]; intros s; simpl.
  - destruct s; split; eauto.
  - destruct s as [|d s]; simpl.
    + split; [discriminate | intros [r [=]]].
    + destruct (ascii_dec c d) as [->|Hne].
      * rewrite IH. split; intros [r Hr]; exists r; [now rewrite Hr | now injection Hr].
      * split; [discriminate | intros [r [= E _]]; congruence].
Qed.

Lemma split_on_app_sep sep a b :
  split_on sep (a +:+ String sep b) = (split_on sep a ++ split_on sep b)%list.
Proof.
  induction a as [|c a IH]; simpl.
  - now rewrite Ascii.eqb_refl.
  - rewrite IH. destruct (Ascii.eqb c sep); [reflexivity|].
    pose proof (split_on_nonempty sep a).
    destruct (split_on sep a) as [|w ws]; [congruence | reflexivity].
Qed.

Lemma join_cons_char sep c w ws :
  join sep (String c w :: ws) = String c (join sep (w :: ws)).
Proof. destruct ws; reflexivity. Qed.

Lemma join_cons_cons sep w x xs :
  join sep (w :: x :: xs) = w +:+ sep +:+ join sep (x :: xs).
Proof. reflexivity. Qed.

Lemma join_split sep s : join (String sep "") (split_on sep s) = s.
Proof.
  induction s as [|c s IH]; simpl; [reflexivity|].
  pose proof (split_on_nonempty sep s) as Hne.
  destruct (Ascii.eqb_spec c sep) as [->|Hc].
  - destruct (split_on sep s) as [|w ws]; [congruence|].
    rewrite join_cons_cons, IH. reflexivity.
  - destruct (split_on sep s) as [|w ws]; [congruence|].
    rewrite join_cons_char. now rewrite IH.
Qed.

Lemma join_app sep (l k : list string) :
  l <> [] -> k <> [] ->
  join sep (l ++ k) = join sep l +:+ sep +:+ join sep k.
Proof.
  intros Hl Hk. induction l as [|w ws IH]; [congruence|].
  destruct ws as [|w' ws].
  - destruct k as [|x k]; [congruence|]. reflexivity.
  - change ((w :: w' :: ws) ++ k)%list with (w :: w' :: (ws ++ k))%list.
    rewrite !join_cons_cons.
    change (w' :: (ws ++ k))%list with ((w' :: ws) ++ k)%list.
    rewrite IH by discriminate.
    now rewrite !app_assoc.
Qed.

(** The test of the script is containment on components. *)
Lemma is_output_path_lies_under clean path :
  is_output_path clean path = true <-> lies_under clean path.
Proof.
  unfold is_output_path, lies_under, startswith.
  set (norm := replace_char "\" "/" path).
  rewrite orb_true_iff, String.eqb_eq, prefix_app. split.
  - intros [->|[r Hr]]; [reflexivity|].
    rewrite Hr, app_assoc. simpl.
    rewrite split_on_app_sep. now exists (split_on "/" r).
  - intros [k Hk].
    pose proof (join_split "/" norm) as Hn. rewrite Hk in Hn.
    destruct k as [|x k].
    + left. rewrite List.app_nil_r, join_split in Hn. congruence.
    + right. rewrite join_app in Hn; [|apply split_on_nonempty|discriminate].
      rewrite join_split in Hn. exists (join "/" (x :: k)).
      rewrite <- Hn. now rewrite app_assoc.
Qed.

Lemma only_output_files_spec paths output_dir :
  (_only_output_files paths output_dir).1 = true <->
  Forall (lies_under (clean_dir output_dir)) paths.
Proof.
  unfold _only_output_files. simpl.
  induction paths as [|x l IH]; simpl.
  - split; [constructor | reflexivity].
  - destruct (is_output_path (clean_dir output_dir) x) eqn:E; simpl.
    + rewrite IH. split.
      * intros H. constructor; [now apply is_output_path_lies_under | exact H].
      * intros H. now inversion H.
    + split; [discriminate|]. intros H. inversion H as [|? ? Hx _]; subst.
      apply is_output_path_lies_under in Hx. congruence.
Qed.



End CheckpointFacts.

Module CreateFacts.
Import PyStr PyPath Sys SysFacts PathFacts GitWorktree World.
Import SandboxFacts RemoveFacts WorldFacts RoundTrip.

Lemma captured_app t1 t2 : captured (t1 ++ t2) = (captured t1 ++ captured t2)%list.
Proof. apply omap_app. Qed.

Lemma quiet_captured {A} (p : Prog A) tr a :
  quiet p -> exec p tr a -> captured tr = [].
Proof.
  revert tr. induction p as [a0|R e k IH]; intros tr; simpl.
  - intros _ [-> _]. reflexivity.
  - intros [He Hk] (r & tr' & -> & H). unfold captured. simpl.
    destruct e; simpl in *; try discriminate; apply (IH _ _ (Hk _) H).
Qed.

Ltac quiet_step :=
  match goal with
  | |- quiet (bind ?m _) => let x := scrutinee m in destruct x
  | |- quiet (bindE ?m _) => let x := scrutinee m in destruct x
  | |- quiet (if ?b then _ else _) => destruct b
  | |- quiet (match ?x with _ => _ end) => destruct x
  | |- _ /\ _ => split
  | |- forall _, _ => intro
  | |- True => exact I
  | |- _ = _ => reflexivity
  | |- quiet _ => progress simpl
  | |- quiet _ => progress unfold bindE, ok, raise, lift, attempt, trigger
  end.

Lemma copy_tree_quiet src dst : quiet (_copy_tree src dst).
Proof. unfold _copy_tree. repeat quiet_step. Qed.

Lemma quiet_bind {A B} (m : Prog A) (f : A -> Prog B) :
  quiet m -> (forall a, quiet (f a)) -> quiet (bind m f).
Proof.
  intros Hm Hf. induction m as [a|R e k IH]; simpl in *; [apply Hf|].
  destruct Hm as [He Hk]. split; [exact He|]. intros r. apply IH, Hk.
Qed.

Lemma stage_payload_quiet a paper_abs skill_abs wt paper_rel skill_rel :
  quiet (stage_payload a paper_abs skill_abs wt paper_rel skill_rel).
Proof.
  unfold stage_payload, bindE.
  apply quiet_bind; [apply copy_tree_quiet|]. intros [e|[]]; [exact I|].
  apply quiet_bind; [apply copy_tree_quiet|]. intros [e|[]]; [exact I|].
  unfold _resolve_under_root. repeat quiet_step.
Qed.

#[local] Opaque stage_payload.

Lemma create_rollback_trace (a : CreateArgs) (tr : list Event) (r : exn + Z) :
  exec (_create a) tr r ->
  forall repo b p base proc,
    In (git_worktree_add repo b p base, proc) (captured tr) ->
    returncode proc = 0%Z ->
    exists pre staging post paper_abs skill_abs wt_path paper_rel skill_rel res,
      to_str wt_path = to_str p /\
      tr = (pre ++ Answered (RunCaptured (git_worktree_add repo b p base)) proc
                :: staging ++ post)%list /\
      (exists cwd, commands pre
                   = [["git"; "-C"; to_str cwd; "rev-parse"; "--show-toplevel"]]) /\
      exec (stage_payload a paper_abs skill_abs wt_path paper_rel skill_rel)
        staging res /\
      match res with
      | inl exc =>
          r = inr 1%Z /\
          exists x y,
            post = [Answered (RunCaptured (git_worktree_remove repo p)) x;
                    Answered (RunCaptured (git_branch_delete repo b)) y;
                    Answered (Print ("[FAIL] Failed to prepare worktree payload: "
                                     +:+ exn_str exc)) tt]
      | inr _ => r = inr 0%Z /\ captured post = []
      end.
Proof.
  intros H repo b p base proc.
  unfold _create, _repo_root, _resolve_repo_relative in H.
  exec_all H.
  all: repeat match goal with
       | E : negb _ = true |- _ => apply negb_true_iff in E
       | E : negb _ = false |- _ => apply negb_false_iff in E
       | E : (_ =? _)%Z = true |- _ => apply Z.eqb_eq in E
       | E : (_ =? _)%Z = false |- _ => apply Z.eqb_neq in E
       end.
  all: try (simpl; intros Hin Hrc; exfalso; split_or Hin; try discriminate Hin;
            apply (f_equal snd) in Hin; simpl in Hin; subst; contradiction).
  apply exec_bind in H as (staging & post & res & -> & Hstage & H).
  intros Hin Hrc.
  pose proof (quiet_captured _ _ _ (stage_payload_quiet _ _ _ _ _ _) Hstage) as Hq.
  assert (Hpost : match res with
                  | inl _ => True
                  | inr _ => captured post = []
                  end).
  { destruct res as [exc|[]]; [exact I|]. exec_all H. reflexivity. }
  unfold captured in Hin, Hq. simpl in Hin. rewrite omap_app, Hq in Hin.
  simpl in Hin. destruct Hin as [Hin|[Hin|Hin]]; [discriminate Hin| |].
  - pose proof (f_equal snd Hin) as Eproc. simpl in Eproc. subst proc.
    pose proof (f_equal fst Hin) as Ecmd. simpl in Ecmd.
    unfold git_worktree_add in Ecmd. injection Ecmd as Erepo Eb Ep Ebase.
    eexists _, staging, post, _, _, _, _, _, res.
    split; [exact Ep|]. split.
    { unfold git_worktree_add. rewrite <- Erepo, <- Eb, <- Ep, <- Ebase.
      match goal with
      | |- ?l = _ => instantiate (1 := firstn 12 l)
      end. reflexivity. }
    split; [simpl; eexists; reflexivity|].
    split; [exact Hstage|].
    destruct res as [exc|[]]; exec_all H.
    + split; [reflexivity|].
      unfold git_worktree_remove, git_branch_delete.
      rewrite <- Erepo, <- Eb, <- Ep.
      repeat match goal with u : unit |- _ => destruct u end.
      do 2 eexists. reflexivity.
    + split; reflexivity.
  - exfalso. destruct res as [exc|[]]; exec_all H; simpl in Hin;
      split_or Hin; discriminate Hin.
Qed.

End CreateFacts.

Module RollbackFacts.
Import PyStr PyPath Sys SysFacts PathFacts GitWorktree World.
Import SandboxFacts RemoveFacts WorldFacts RoundTrip RemoveTwice CreateFacts.

Lemma path_eqb_eq p q : path_eqb p q = true <-> p = q.
Proof.
  unfold path_eqb. rewrite andb_true_iff, String.eqb_eq, bool_decide_eq_true.
  destruct p, q; simpl. split; [intros [-> ->]; reflexivity | intros [= -> ->]; auto].
Qed.

Lemma path_eqb_refl p : path_eqb p p = true.
Proof. now apply path_eqb_eq. Qed.

Lemma run_remove w r0 root_s p_s :
  w_repo w = Some r0 ->
  bool_decide (parts r0 `prefix_of` key w (of_str root_s)) = true ->
  registered w (canon w (of_str p_s)) = true ->
  run_captured w ["git"; "-C"; root_s; "worktree"; "remove"; "--force"; p_s]
  = (git_ok "",
     with_git w (remove_subtree (key w (of_str p_s)) (w_fs w)) (w_branches w)
       (List.filter (fun e => negb (path_eqb e.1 (canon w (of_str p_s))))
          (w_worktrees w))).
Proof.
  intros Hr Hd Hreg. simpl. rewrite Hr, Hd. unfold worktree_remove.
  now rewrite Hreg.
Qed.

Lemma run_branch_delete w r0 root_s b :
  w_repo w = Some r0 ->
  bool_decide (parts r0 `prefix_of` key w (of_str root_s)) = true ->
  In b (w_branches w) -> checked_out w b = false ->
  run_captured w ["git"; "-C"; root_s; "branch"; "-D"; b]
  = (git_ok ("Deleted branch " +:+ b +:+ nl),
     with_git w (w_fs w)
       (List.filter (fun x => negb (String.eqb x b)) (w_branches w))
       (w_worktrees w)).
Proof.
  intros Hr Hd Hin Hco. simpl. rewrite Hr, Hd. unfold branch_delete.
  rewrite bool_decide_eq_true_2 by (now apply list_elem_of_In).
  simpl. now rewrite Hco.
Qed.

Lemma existsb_false {A} (f : A -> bool) l :
  (forall x, In x l -> f x = false) -> existsb f l = false.
Proof.
  induction l as [|x l IH]; intros H; simpl; [reflexivity|].
  rewrite (H x) by now left. apply IH. intros y Hy. apply H. now right.
Qed.

Lemma replay_app t1 t2 w : replay (t1 ++ t2) w = replay t2 (replay t1 w).
Proof. unfold replay. apply List.fold_left_app. Qed.

Lemma runs_replay {A} (p : Prog A) w tr a w' :
  runs handle p w tr a w' -> w' = replay tr w.
Proof.
  revert w tr. induction p as [a0|R e k IH]; intros w tr; simpl.
  - intros (-> & _ & ->). reflexivity.
  - intros (r & w1 & tr' & E & -> & H). rewrite (IH _ _ _ H).
    unfold replay. simpl. now rewrite E.
Qed.

(** The answer to a captured command is the one of the state it was
    asked in. *)
Lemma runs_captured_answer {A} (p : Prog A) w t1 cmd proc t2 a w' :
  runs handle p w (t1 ++ Answered (RunCaptured cmd) proc :: t2)%list a w' ->
  run_captured (replay t1 w) cmd
  = (proc, replay (t1 ++ [Answered (RunCaptured cmd) proc]) w).
Proof.
  revert w t1. induction p as [a0|R e k IH]; intros w t1; simpl.
  - intros (E & _). destruct t1; discriminate E.
  - intros (r & w1 & tr' & E & Htr & H). destruct t1 as [|ev t1].
    + simpl in Htr.
      pose proof (f_equal (fun l => match l with
                                    | ev :: _ => captured_of ev
                                    | [] => None
                                    end) Htr) as Hc.
      simpl in Hc.
      destruct e; try discriminate Hc. injection Hc as <- <-.
      unfold replay. simpl in *. rewrite E. reflexivity.
    + simpl in Htr.
      pose proof (f_equal (@List.tl Event) Htr) as Ht.
      pose proof (f_equal (fun l => match l with
                                    | ev :: _ => Some ev
                                    | [] => None
                                    end) Htr) as Hh.
      simpl in Ht, Hh. injection Hh as Hh. subst ev tr'.
      specialize (IH r w1 t1 H). unfold replay in *. simpl. now rewrite E.
Qed.

Lemma handle_view {R} (e : Ev R) (r : R) w :
  only_rev_parse (Answered e r) -> git_view (handle R e w).2 = git_view w.
Proof.
  intros H. destruct (starts_command e) eqn:S; [|now apply handle_quiet].
  destruct e; try discriminate S.
  - destruct (H cmd eq_refl) as [d ->]. simpl.
    destruct (w_repo w); [|reflexivity]. destruct (bool_decide _); reflexivity.
  - reflexivity.
Qed.

Lemma replay_view tr w :
  Forall only_rev_parse tr -> git_view (replay tr w) = git_view w.
Proof.
  intros H. revert w. induction H as [|ev tr Hev _ IH]; intros w; [reflexivity|].
  unfold replay in *. simpl. rewrite IH. destruct ev as [R e r].
  now apply (handle_view e r).
Qed.

Lemma commands_only tr l :
  commands tr = l ->
  (forall cmd, In cmd l ->
     exists d, cmd = ["git"; "-C"; d; "rev-parse"; "--show-toplevel"]) ->
  Forall only_rev_parse tr.
Proof.
  intros <- Hl. apply List.Forall_forall. intros ev Hev cmd Hcmd.
  apply Hl. unfold commands. apply list_elem_of_In, list_elem_of_omap.
  exists ev. split; [now apply list_elem_of_In | exact Hcmd].
Qed.

Lemma quiet_commands {A} (p : Prog A) tr a :
  quiet p -> exec p tr a -> commands tr = [].
Proof.
  revert tr. induction p as [a0|R e k IH]; intros tr; simpl.
  - intros _ [-> _]. reflexivity.
  - intros [He Hk] (r & tr' & -> & H). unfold commands. simpl.
    destruct e; simpl in *; try discriminate; apply (IH _ _ (Hk _) H).
Qed.

(** What a successful [git worktree add -b] did. *)
Lemma run_add w root_s b p_s base proc w1 :
  run_captured w ["git"; "-C"; root_s; "worktree"; "add"; "-b"; b; p_s; base]
  = (proc, w1) ->
  returncode proc = 0%Z ->
  exists r0,
    w_repo w = Some r0 /\
    bool_decide (parts r0 `prefix_of` key w (of_str root_s)) = true /\
    ~ In b (w_head w :: w_branches w) /\
    git_view w1
    = (w_cwd w, w_repo w, w_head w, (w_branches w ++ [b])%list,
       (w_worktrees w ++ [(canon w (of_str p_s), b)])%list).
Proof.
  simpl. destruct (w_repo w) as [r0|] eqn:Hr; [|intros [= <- <-]; discriminate].
  destruct (bool_decide (parts r0 `prefix_of` _)) eqn:Hd;
    [|intros [= <- <-]; discriminate].
  unfold worktree_add.
  destruct (bool_decide (b ∈ w_head w :: w_branches w)) eqn:Hb;
    [intros [= <- <-]; discriminate|].
  destruct (bool_decide (is_Some _)); [intros [= <- <-]; discriminate|].
  destruct (negb _); [intros [= <- <-]; discriminate|].
  intros [= <- <-] _. exists r0. repeat split; auto.
  - apply bool_decide_eq_false in Hb. intros Hin. apply Hb.
    now apply list_elem_of_In.
  - unfold git_view, with_git. simpl. now rewrite Hr.
Qed.

End RollbackFacts.

Module CreateRollback.
Import PyStr PyPath Sys SysFacts PathFacts GitWorktree World.
Import SandboxFacts RemoveFacts WorldFacts RoundTrip RemoveTwice CreateFacts.
Import RollbackFacts.

Lemma key_view w w' p : w_cwd w' = w_cwd w -> key w' p = key w p.
Proof. unfold key. intros H. now rewrite (canon_view _ _ _ H). Qed.

(** The state after the events of the [except] branch. *)
Lemma rollback_replay w r0 root_s b p_s msg x y u :
  w_repo w = Some r0 ->
  bool_decide (parts r0 `prefix_of` key w (of_str root_s)) = true ->
  registered w (canon w (of_str p_s)) = true ->
  In b (w_branches w) -> b <> w_head w ->
  (forall e, In e (w_worktrees w) -> e.2 = b -> e.1 = canon w (of_str p_s)) ->
  nothing_left
    (replay [Answered (RunCaptured ["git"; "-C"; root_s; "worktree"; "remove";
                                    "--force"; p_s]) x;
             Answered (RunCaptured ["git"; "-C"; root_s; "branch"; "-D"; b]) y;
             Answered (Print msg) u] w)
    b (of_str p_s).
Proof.
  intros Hr Hd Hreg Hb Hhead Huniq.
  unfold replay. cbn [List.fold_left handle].
  rewrite (run_remove w r0 root_s p_s Hr Hd Hreg). cbn [snd].
  set (P := canon w (of_str p_s)) in *.
  set (w1 := with_git w _ _ _) in *.
  assert (Hco : checked_out w1 b = false).
  { unfold checked_out. apply orb_false_iff. split.
    - now apply String.eqb_neq.
    - apply existsb_false. intros e He. simpl in He.
      apply List.filter_In in He as [He Hne].
      apply String.eqb_neq. intros Heq.
      rewrite (Huniq e He Heq), path_eqb_refl in Hne. discriminate. }
  rewrite (run_branch_delete w1 r0 root_s b Hr Hd Hb Hco). cbn [snd].
  unfold nothing_left. simpl. repeat split.
  - intros Hin. apply List.filter_In in Hin as [_ Hne].
    rewrite String.eqb_refl in Hne. discriminate.
  - unfold registered. simpl. apply existsb_false.
    intros e He. apply List.filter_In in He as [_ Hne].
    now apply negb_true_iff.
  - intros k Hk. now apply lookup_remove_subtree.
Qed.

Lemma consistent_spec w e :
  consistent w = true -> In e (w_worktrees w) ->
  In e.2 (w_head w :: w_branches w).
Proof.
  unfold consistent. rewrite forallb_forall. intros H He.
  apply list_elem_of_In. exact (bool_decide_eq_true_1 _ (H e He)).
Qed.

Lemma git_view_eq w w' :
  git_view w' = git_view w ->
  w_cwd w' = w_cwd w /\ w_repo w' = w_repo w /\ w_head w' = w_head w /\
  w_branches w' = w_branches w /\ w_worktrees w' = w_worktrees w.
Proof. unfold git_view. intros [= -> -> -> -> ->]. auto. Qed.

(** In the reference environment a failed staging leaves nothing of the
    worktree and of the branch that [git worktree add] had made. *)
Lemma create_rollback_state (a : CreateArgs) w tr (r : exn + Z) w' :
  consistent w = true ->
  runs handle (_create a) w tr r w' ->
  forall repo b p base proc,
    In (git_worktree_add repo b p base, proc) (captured tr) ->
    returncode proc = 0%Z ->
    r <> inr 0%Z ->
    nothing_left w' b (of_str (to_str p)).
Proof.
  intros Hcons Hruns repo b p base proc Hin Hrc Hr.
  pose proof (runs_exec _ _ _ _ _ _ Hruns) as Hexec.
  destruct (create_rollback_trace a tr r Hexec repo b p base proc Hin Hrc)
    as (pre & staging & post & paper_abs & skill_abs & wt_path & paper_rel
        & skill_rel & res & _ & Htr & (cwd & Hpre) & Hstage & Hres).
  destruct res as [exc|v]; [|destruct Hres as [-> _]; now destruct Hr].
  destruct Hres as (_ & x & y & ->).
  rewrite (runs_replay _ _ _ _ _ Hruns).
  subst tr.
  pose proof (runs_captured_answer _ _ _ _ _ _ _ _ Hruns) as Hadd.
  set (wm := replay pre w) in *.
  assert (Hvm : git_view wm = git_view w).
  { apply replay_view. apply (commands_only _ _ Hpre).
    intros cmd [<-|[]]. now eexists. }
  apply git_view_eq in Hvm as (Hc & Hrp & Hh & Hbr & Hwt).
  unfold git_worktree_add in Hadd.
  destruct (run_add _ _ _ _ _ _ _ Hadd Hrc) as (r0 & Hr0 & Hd & Hnew & Hv1).
  rewrite replay_app in Hadd. fold wm in Hadd.
  change (Answered (RunCaptured (git_worktree_add repo b p base)) proc :: staging ++ _)%list
    with ([Answered (RunCaptured (git_worktree_add repo b p base)) proc]
          ++ staging ++ [Answered (RunCaptured (git_worktree_remove repo p)) x;
                         Answered (RunCaptured (git_branch_delete repo b)) y;
                         Answered (Print ("[FAIL] Failed to prepare worktree payload: "
                                          +:+ exn_str exc)) ()])%list.
  rewrite !replay_app. fold wm.
  rewrite replay_app in Hv1. fold wm in Hv1.
  set (w1 := replay [_] wm) in *.
  assert (Hv2 : git_view (replay staging w1) = git_view w1).
  { apply replay_view.
    apply (commands_only _ []); [|intros ? []].
    exact (quiet_commands _ _ _ (stage_payload_quiet _ _ _ _ _ _) Hstage). }
  set (w2 := replay staging w1) in *.
  rewrite Hv1 in Hv2. unfold git_view in Hv2.
  injection Hv2 as Hc2 Hrp2 Hh2 Hbr2 Hwt2.
  unfold git_worktree_remove, git_branch_delete.
  assert (Hk : forall q, canon w2 q = canon wm q).
  { intros q. apply canon_view. exact Hc2. }
  apply (rollback_replay w2 r0 (to_str repo) b (to_str p)).
  - now rewrite Hrp2.
  - unfold key. rewrite Hk. exact Hd.
  - unfold registered. rewrite Hwt2, Hk, existsb_app. simpl.
    rewrite path_eqb_refl. now rewrite orb_true_r.
  - rewrite Hbr2. apply in_or_app. right. now left.
  - rewrite Hh2. intros ->. apply Hnew. now left.
  - intros e He Heb. rewrite Hwt2 in He. apply in_app_or in He as [He|[<-|[]]].
    + exfalso. apply Hnew. rewrite <- Heb, Hh, Hbr.
      apply consistent_spec; [exact Hcons | now rewrite <- Hwt].
    + simpl. now rewrite Hk.
Qed.



End CreateRollback.

Module TraceFacts.
Import PyStr PyPath Sys SysFacts Traces.

Ltac decide_codes :=
  repeat match goal with
  | E : negb _ = true |- _ => apply negb_true_iff in E
  | E : negb _ = false |- _ => apply negb_false_iff in E
  | E : (_ =? _)%Z = true |- _ => apply Z.eqb_eq in E
  | E : (_ =? _)%Z = false |- _ => apply Z.eqb_neq in E
  | E : _ && _ = true |- _ => apply andb_prop in E as [? ?]
  end.

Lemma failures_app t1 t2 : failures (t1 ++ t2) = (failures t1 ++ failures t2)%list.
Proof. apply omap_app. Qed.

Lemma reported_app t1 t2 : reported (t1 ++ t2) = (reported t1 ++ reported t2)%list.
Proof. apply omap_app. Qed.

Lemma captured_quiet tr : commands tr = [] -> captured tr = [].
Proof.
  unfold commands, captured.
  induction tr as [|[R e x] l IH]; [reflexivity|].
  simpl. destruct e; simpl; try discriminate; exact IH.
Qed.

(** Cutting a trace before its last event. *)
Lemma last_split_one {A} (x : A) : [x] = ([] ++ [x])%list.
Proof. reflexivity. Qed.

Lemma last_split_cons {A} (a : A) l pre x :
  l = (pre ++ [x])%list -> a :: l = ((a :: pre) ++ [x])%list.
Proof. intros ->. reflexivity. Qed.

Lemma last_split_app {A} (t l pre : list A) x :
  l = (pre ++ [x])%list -> (t ++ l)%list = ((t ++ pre) ++ [x])%list.
Proof. intros ->. now rewrite List.app_assoc. Qed.

Ltac split_last :=
  repeat first [ apply last_split_one
               | apply last_split_cons
               | apply last_split_app ].

End TraceFacts.

Module SlugMore.
Import PyStr Slug SlugClasses StrFacts SlugFacts.

Lemma lstrip_fix f s :
  (forall c, first_char s = Some c -> f c = false) -> lstrip_by f s = s.
Proof.
  destruct s as [|c s]; simpl; [reflexivity|].
  intros H. now rewrite (H c eq_refl).
Qed.

Lemma rstrip_fix f s :
  (forall c, last_char s = Some c -> f c = false) -> rstrip_by f s = s.
Proof.
  induction s as [|c s IH]; simpl; [reflexivity|].
  intros H. destruct s as [|d s].
  - simpl. now rewrite (H c eq_refl).
  - rewrite IH by exact H. reflexivity.
Qed.

Lemma strip_by_fix f s :
  (forall c, first_char s = Some c -> f c = false) ->
  (forall c, last_char s = Some c -> f c = false) ->
  strip_by f s = s.
Proof.
  intros Hf Hl. unfold strip_by. rewrite (lstrip_fix f s Hf). now apply rstrip_fix.
Qed.

Lemma strip_by_all f s : all_chars f s = true -> strip_by f s = "".
Proof.
  intros H. unfold strip_by.
  assert (E : lstrip_by f s = "").
  { induction s as [|c s IH]; simpl in *; [reflexivity|].
    apply andb_prop in H as [-> H]. now apply IH. }
  now rewrite E.
Qed.

Lemma re_sub_unsafe_fix b s :
  all_chars is_safe s = true -> re_sub_unsafe b s = s.
Proof.
  revert b. induction s as [|c s IH]; intros b; simpl; [reflexivity|].
  intros H. apply andb_prop in H as [-> H]. now rewrite IH.
Qed.

Lemma safe_not_space c : is_safe c = true -> is_space c = false.
Proof.
  destruct c as [[] [] [] [] [] [] [] []]; vm_compute; congruence.
Qed.

Lemma first_char_all f s c :
  all_chars f s = true -> first_char s = Some c -> f c = true.
Proof. destruct s; simpl; [discriminate|]. intros H [= <-]. now apply andb_prop in H. Qed.

Lemma last_char_all f s c :
  all_chars f s = true -> last_char s = Some c -> f c = true.
Proof.
  induction s as [|d s IH]; simpl; [discriminate|].
  intros H. apply andb_prop in H as [Hd H].
  destruct s; [intros [= <-]; exact Hd | now apply IH].
Qed.

(** A name that is already a slug is kept as it is. *)
Lemma sanitize_slug_fix s :
  s <> "" -> all_chars is_safe s = true ->
  (forall c, first_char s = Some c -> is_sep c = false) ->
  (forall c, last_char s = Some c -> is_sep c = false) ->
  _sanitize_slug s = s.
Proof.
  intros Hne Hs Hf Hl. unfold _sanitize_slug, strip.
  rewrite (strip_by_fix is_space s).
  - rewrite (re_sub_unsafe_fix false s Hs), (strip_by_fix is_sep s Hf Hl).
    destruct (String.eqb_spec s ""); [contradiction|reflexivity].
  - intros c H. apply safe_not_space. exact (first_char_all _ _ _ Hs H).
  - intros c H. apply safe_not_space. exact (last_char_all _ _ _ Hs H).
Qed.

(** X1: [_sanitize_slug] is idempotent: a slug given back to it comes
    out unchanged, for every raw string. *)
Theorem sanitize_slug_idempotent (raw : string) :
  _sanitize_slug (_sanitize_slug raw) = _sanitize_slug raw.
Proof.
  unfold _sanitize_slug at 2 3.
  pose proof (strip_by_split is_sep (re_sub_unsafe false (strip raw)))
    as (pre & post & _ & _ & _ & Hf & Hl).
  destruct (String.eqb_spec (strip_by is_sep (re_sub_unsafe false (strip raw))) "")
    as [_|Hne].
  - vm_compute. reflexivity.
  - apply sanitize_slug_fix; auto.
    apply all_chars_strip_by, re_sub_unsafe_safe.
Qed.

Lemma re_sub_unsafe_seps b s :
  all_chars (fun c => negb (is_alnum c)) s = true ->
  all_chars is_sep (re_sub_unsafe b s) = true.
Proof.
  revert b. induction s as [|c s IH]; intros b; simpl; [reflexivity|].
  intros H. apply andb_prop in H as [Hc H].
  destruct (is_safe c) eqn:Sc; simpl.
  - rewrite IH by exact H. rewrite andb_true_r.
    unfold is_safe in Sc. unfold is_alnum in Hc. apply negb_true_iff in Hc.
    rewrite Hc in Sc. simpl in Sc. unfold is_sep.
    destruct c as [[] [] [] [] [] [] [] []]; vm_compute in Sc |- *; congruence.
  - destruct b; simpl; now rewrite IH.
Qed.

(** X2: a raw string without any letter or digit -- the empty string,
    white space, punctuation only -- gets the default slug ["paper"]. *)
Theorem sanitize_slug_default (raw : string) :
  all_chars (fun c => negb (is_alnum c)) raw = true ->
  _sanitize_slug raw = default_slug.
Proof.
  intros H. unfold _sanitize_slug.
  rewrite (strip_by_all is_sep); [reflexivity|].
  apply re_sub_unsafe_seps. unfold strip. now apply all_chars_strip_by.
Qed.

Lemma sanitize_slug_default_dots :
  _sanitize_slug " ../.. " = default_slug.
Proof. apply sanitize_slug_default. vm_compute. reflexivity. Defined.

End SlugMore.

Module RelativeFacts.
Import PyStr PyPath Sys SysFacts PathFacts RoundTrip World.

(** The relative path [relative_to] returns, printed and joined to the
    base again, names the path it was taken from. *)
Lemma relative_to_div p base rel :
  wf_path p -> relative_to p base = Some rel ->
  is_absolute (of_str (as_posix rel)) = false /\ base // as_posix rel = p.
Proof.
  intros [Hr Hp] H. unfold relative_to in H.
  destruct (String.eqb_spec (root p) (root base)) as [E|]; [|discriminate].
  destruct (strip_prefix (parts base) (parts p)) as [rest|] eqn:S; [|discriminate].
  injection H as <-. apply strip_prefix_Some in S.
  assert (Hwf : wf_path {| root := ""; parts := rest |}).
  { split; [now left|]. simpl. rewrite S in Hp. now apply Forall_app in Hp as [_ Hp]. }
  unfold as_posix, div. rewrite (of_str_to_str _ Hwf).
  split; [reflexivity|].
  unfold joinpath. simpl. destruct p as [rt ps]. simpl in *. now subst.
Qed.

(** X3: [_resolve_repo_relative] resolves the path once, joined to the
    repository root unless it is absolute.  It returns the resolved path
    with its path relative to the root exactly when the resolved path is
    the root or below it, and raises [ValueError] otherwise; the relative
    path it returns is relative and, joined to the root, names the
    resolved path again. *)
Theorem resolve_repo_relative_round_trip (repo_root : Path) (raw : string)
  (tr : list Event) (r : exn + Path * string) :
  exec (GitWorktree._resolve_repo_relative repo_root raw) tr r ->
  exists abs,
    tr = [Answered (Resolve (if is_absolute (of_str raw) then of_str raw
                             else joinpath repo_root (of_str raw))) abs] /\
    ((under repo_root abs /\
      exists rel, r = inr (abs, rel) /\
        (wf_path abs ->
         is_absolute (of_str rel) = false /\ repo_root // rel = abs))
     \/ (~ under repo_root abs /\ is_value_error r)).
Proof.
  unfold GitWorktree._resolve_repo_relative. simpl. intros (abs & tr' & -> & H).
  exists abs. split.
  { destruct (is_absolute (of_str raw)); simpl in *;
      destruct (relative_to abs repo_root); simpl in H; destruct H as [-> _];
      reflexivity. }
  destruct (relative_to abs repo_root) as [rel|] eqn:Hrel; simpl in H;
    destruct H as [_ ->].
  - left. split; [apply relative_to_under; eauto|].
    exists (as_posix rel). split; [reflexivity|].
    intros Hwf. now apply relative_to_div.
  - right. split; [now apply relative_to_None | eexists; reflexivity].
Qed.

Lemma resolve_repo_relative_round_trip_payload :
  (run handle (GitWorktree._resolve_repo_relative (of_str "/repo") "papers/./P1")
     Scenario.host).1.1 = inr (of_str "/repo/papers/P1", "papers/P1") /\
  of_str "/repo" // "papers/P1" = of_str "/repo/papers/P1".
Proof.
  destruct (resolve_repo_relative_round_trip (of_str "/repo") "papers/./P1" _ _
              (run_exec handle
                 (GitWorktree._resolve_repo_relative (of_str "/repo") "papers/./P1")
                 Scenario.host))
    as (abs & _ & [(_ & rel & Hr & Hwf)|(_ & msg & Hv)]); [|discriminate Hv].
  vm_compute in Hr. injection Hr as <- <-.
  split; [reflexivity|]. apply Hwf.
  split; [right; left; reflexivity|]. repeat constructor.
Defined.

(** X4: [_resolve_under] of the sandbox gate refuses an absolute path
    with a [ValueError] before it asks anything of the file system.  For
    a relative path it resolves the path joined to the worktree once; a
    resolution outside the worktree raises [ValueError], and otherwise it
    returns the resolved path with a relative path that, joined to the
    worktree, names the resolved path again. *)
Theorem resolve_under_round_trip (base_dir : Path) (raw label : string)
  (tr : list Event) (r : exn + Path * string) :
  exec (WorkerSandbox._resolve_under base_dir raw label) tr r ->
  (is_absolute (of_str raw) = true -> tr = [] /\ is_value_error r) /\
  (is_absolute (of_str raw) = false ->
   exists abs,
     tr = [Answered (Resolve (joinpath base_dir (of_str raw))) abs] /\
     ((under base_dir abs /\
       exists rel, r = inr (abs, rel) /\
         (wf_path abs ->
          is_absolute (of_str rel) = false /\ base_dir // rel = abs))
      \/ (~ under base_dir abs /\ is_value_error r))).
Proof.
  unfold WorkerSandbox._resolve_under. intros H.
  destruct (is_absolute (of_str raw)) eqn:Habs.
  - simpl in H. destruct H as [-> ->].
    split; [|discriminate]. intros _. split; [reflexivity | eexists; reflexivity].
  - split; [discriminate|]. intros _.
    simpl in H. destruct H as (abs & tr' & -> & H).
    exists abs.
    destruct (relative_to abs base_dir) as [rel|] eqn:Hrel; simpl in H;
      destruct H as [-> ->]; (split; [reflexivity|]).
    + left. split; [apply relative_to_under; eauto|].
      exists (as_posix rel). split; [reflexivity|].
      intros Hwf. now apply relative_to_div.
    + right. split; [now apply relative_to_None | eexists; reflexivity].
Qed.

Lemma resolve_under_round_trip_payload :
  (run handle (WorkerSandbox._resolve_under Scenario.wt "papers/P1" "Paper dir")
     Scenario.staged).1.1
  = inr (Scenario.wt // "papers/P1", "papers/P1").
Proof.
  destruct (proj2 (resolve_under_round_trip Scenario.wt "papers/P1" "Paper dir" _ _
                     (run_exec handle
                        (WorkerSandbox._resolve_under Scenario.wt "papers/P1" "Paper dir")
                        Scenario.staged)) eq_refl)
    as (abs & _ & [(_ & rel & Hr & Hwf)|(_ & msg & Hv)]); [|discriminate Hv].
  pose proof Hr as Hr'. vm_compute in Hr'. injection Hr' as <- <-.
  destruct Hwf as [_ Hdiv].
  { split; [right; left; reflexivity|]. repeat constructor. }
  rewrite Hr. reflexivity.
Defined.

End RelativeFacts.

Module CopyFacts.
Import PyStr PyPath Sys SysFacts PathFacts GitWorktree World Traces.
Import SandboxFacts.

(** X5: [_copy_tree] fails fast.  A missing source raises
    [FileNotFoundError] before anything is touched; the first update of
    the file system that raises ends the call with that exception, no
    update having failed before it and none being tried after it; and a
    call that returns has ended with the one copy it makes, no update
    having failed. *)
Theorem copy_tree_fails_fast (src dst : Path) (tr : list Event) (r : exn + unit) :
  exec (_copy_tree src dst) tr r ->
  match r with
  | inl exc =>
      (tr = [Answered (Exists src) false] /\
       exc = FileNotFoundError ("Source path does not exist: " +:+ to_str src))
      \/ (exists pre (e : Ev (option exn)),
            tr = (pre ++ [Answered e (Some exc)])%list /\ failures pre = [])
  | inr _ =>
      failures tr = [] /\
      exists pre,
        In (Answered (MkdirP (parent dst)) None) pre /\
        (tr = (pre ++ [Answered (Copytree src dst) None])%list \/
         tr = (pre ++ [Answered (Copy2 src dst) None])%list)
  end.
Proof.
  intros H. unfold _copy_tree in H. exec_all H; decide_answers.
  all: try (left; split; reflexivity).
  all: try (right;
            match goal with
            | |- exists pre e, ?t = _ /\ _ =>
                exists (List.removelast t); eexists; split; reflexivity
            end).
  all: split; [reflexivity|].
  all: match goal with
       | |- exists pre, _ /\ (?t = _ \/ _) => exists (List.removelast t)
       end.
  all: split; [simpl; tauto|].
  all: first [left; reflexivity | right; reflexivity].
Qed.

(** In the scenario the payload is copied to a place outside the
    repository tree. *)
Lemma copy_tree_fails_fast_payload :
  let src := of_str "/repo/papers/P1" in
  let dst := of_str "/repo/tmp/copy" in
  let out := run handle (_copy_tree src dst) Scenario.host in
  match out.1.1 with
  | inl exc =>
      (out.2 = [Answered (Exists src) false] /\
       exc = FileNotFoundError ("Source path does not exist: " +:+ to_str src))
      \/ (exists pre (e : Ev (option exn)),
            out.2 = (pre ++ [Answered e (Some exc)])%list /\ failures pre = [])
  | inr _ =>
      failures out.2 = [] /\
      exists pre,
        In (Answered (MkdirP (parent dst)) None) pre /\
        (out.2 = (pre ++ [Answered (Copytree src dst) None])%list \/
         out.2 = (pre ++ [Answered (Copy2 src dst) None])%list)
  end.
Proof.
  exact (copy_tree_fails_fast _ _ _ _
           (run_exec handle
              (_copy_tree (of_str "/repo/papers/P1") (of_str "/repo/tmp/copy"))
              Scenario.host)).
Defined.

End CopyFacts.

Module CreateMore.
Import PyStr PyPath Sys Slug SysFacts PathFacts GitWorktree World Traces.
Import SandboxFacts RemoveFacts CreateFacts RollbackFacts TraceFacts.

Lemma copy_tree_no_failure src dst tr r :
  exec (_copy_tree src dst) tr r -> forall u, r = inr u -> failures tr = [].
Proof.
  intros H. unfold _copy_tree in H. exec_all H; intros u Hu;
    try discriminate Hu; reflexivity.
Qed.

Lemma copy_tree_silent src dst tr r :
  exec (_copy_tree src dst) tr r -> reported tr = [] /\ printed tr = [].
Proof.
  intros H. unfold _copy_tree in H. exec_all H; split; reflexivity.
Qed.

Lemma stage_payload_outcome a paper_abs skill_abs wt paper_rel skill_rel tr r :
  exec (stage_payload a paper_abs skill_abs wt paper_rel skill_rel) tr r ->
  reported tr = [] /\ printed tr = [] /\ commands tr = [] /\
  (forall u, r = inr u -> failures tr = []).
Proof.
  intros H.
  pose proof (quiet_commands _ _ _ (stage_payload_quiet _ _ _ _ _ _) H) as Hc.
  unfold stage_payload, bindE in H.
  apply exec_bind in H as (t1 & t2 & r1 & -> & H1 & H).
  pose proof (copy_tree_silent _ _ _ _ H1) as [R1 P1].
  destruct r1 as [e1|u1].
  { simpl in H. destruct H as [Ht Hr]. subst t2 r. rewrite List.app_nil_r in *.
    repeat split; auto. discriminate. }
  apply (fun H => copy_tree_no_failure _ _ _ _ H u1 eq_refl) in H1.
  apply exec_bind in H as (t3 & t4 & r2 & -> & H2 & H).
  pose proof (copy_tree_silent _ _ _ _ H2) as [R2 P2].
  destruct r2 as [e2|u2].
  { simpl in H. destruct H as [Ht Hr]. subst t4 r. rewrite List.app_nil_r in *.
    rewrite reported_app, printed_app, R1, R2, P1, P2.
    repeat split; auto. discriminate. }
  apply (fun H => copy_tree_no_failure _ _ _ _ H u2 eq_refl) in H2.
  unfold _resolve_under_root in H. exec_all H.
  all: rewrite !reported_app, !printed_app, !failures_app, R1, R2, P1, P2, H1, H2.
  all: repeat split; auto; try discriminate.
Qed.

#[local] Opaque stage_payload.

(** X6: [_create] returns 0 exactly when it has printed its record, and
    it prints at most one.  The record is the last thing a successful
    run does; it names the repository, the worktree and the branch of
    the one [git worktree add] of the run, which returned 0; no update of
    the file system has failed, and no other command than the lookup of
    the repository and that [git worktree add] was started. *)
Theorem create_reports_what_it_added (a : CreateArgs) (tr : list Event)
  (r : exn + Z) :
  exec (_create a) tr r ->
  (r = inr 0%Z <-> reported tr <> []) /\
  (forall j, In j (reported tr) ->
     exists pre cwd rp repo_root wt_path paper_rel skill_rel b sb proc,
       tr = (pre ++ [Answered (PrintJson j) tt])%list /\
       j = create_result a repo_root wt_path paper_rel skill_rel b sb /\
       captured tr
       = [(["git"; "-C"; to_str cwd; "rev-parse"; "--show-toplevel"], rp);
          (git_worktree_add repo_root b wt_path (base_ref a), proc)] /\
       returncode rp = 0%Z /\ returncode proc = 0%Z /\
       failures tr = []).
Proof.
  intros H. unfold _create, _repo_root, _resolve_repo_relative in H.
  exec_all H; decide_codes.
  all: try (split; [split; [discriminate | intros Hn; now contradiction Hn]
                   | intros j []]; fail).
  apply exec_bind in H as (staging & post & res & -> & Hstage & H).
  apply stage_payload_outcome in Hstage as (Rs & Ps & Cs & Fs).
  destruct res as [exc|u]; unfold _build_sandbox_paths in H; exec_all H.
  - split.
    + split; [discriminate|]. intros Hn. exfalso. apply Hn.
      unfold reported in *. simpl. rewrite omap_app, Rs. reflexivity.
    + intros j Hj. exfalso. unfold reported in *. simpl in Hj.
      rewrite omap_app, Rs in Hj. exact Hj.
  - specialize (Fs u eq_refl). split.
    + split; [intros _|reflexivity].
      unfold reported in *. simpl. rewrite omap_app, Rs. discriminate.
    + intros j Hj. unfold reported in *. simpl in Hj.
      rewrite omap_app, Rs in Hj. simpl in Hj. destruct Hj as [<-|[]].
      repeat match goal with x : unit |- _ => destruct x end.
      eexists (_ :: _ :: _ :: _ :: _ :: _ :: _ :: _ :: _ :: _ :: _ :: _ :: _ :: staging
               ++ [_; _; _])%list.
      do 9 eexists.
      split; [simpl; rewrite <- List.app_assoc; reflexivity|].
      split; [reflexivity|].
      assert (Hcap : captured staging = []).
      { revert Cs. unfold commands, captured. clear.
        induction staging as [|[R e x] l IH]; [reflexivity|].
        simpl. destruct e; simpl; try discriminate; exact IH. }
      unfold captured, failures in *. simpl.
      rewrite !omap_app, Hcap, Fs. simpl.
      repeat split; auto.
Qed.

Lemma create_reports_what_it_added_scenario :
  let out := run handle (_create Scenario.create_args) Scenario.host in
  let j := List.hd [] (reported out.2) in
  exists pre cwd rp repo_root wt_path paper_rel skill_rel b sb proc,
    out.2 = (pre ++ [Answered (PrintJson j) tt])%list /\
    j = create_result Scenario.create_args repo_root wt_path paper_rel skill_rel b sb /\
    captured out.2
    = [(["git"; "-C"; to_str cwd; "rev-parse"; "--show-toplevel"], rp);
       (git_worktree_add repo_root b wt_path (base_ref Scenario.create_args), proc)] /\
    returncode rp = 0%Z /\ returncode proc = 0%Z /\
    failures out.2 = [].
Proof.
  refine (proj2 (create_reports_what_it_added Scenario.create_args _ _
                   (run_exec handle (_create Scenario.create_args) Scenario.host))
            _ _).
  vm_compute. left. reflexivity.
Defined.

(** X7: when [git worktree add] fails, [_create] stops there: it
    prints the error text of git (the standard output when the error
    stream is blank) as its failure, returns 1, copies nothing, starts no
    rollback and prints no record. *)
Theorem create_stops_when_add_fails (a : CreateArgs) (tr : list Event)
  (r : exn + Z) :
  exec (_create a) tr r ->
  forall root_s b p_s base proc,
    In (["git"; "-C"; root_s; "worktree"; "add"; "-b"; b; p_s; base], proc)
      (captured tr) ->
    returncode proc <> 0%Z ->
    r = inr 1%Z /\
    (exists pre,
       tr = (pre ++ [Answered (RunCaptured ["git"; "-C"; root_s; "worktree"; "add";
                                            "-b"; b; p_s; base]) proc;
                     Answered (Print ("[FAIL] " +:+ str_or (strip (stderr proc))
                                                          (strip (stdout proc)))) tt])%list /\
       exists cwd, commands pre = [["git"; "-C"; to_str cwd; "rev-parse";
                                    "--show-toplevel"]]) /\
    reported tr = [].
Proof.
  intros H root_s b p_s base proc.
  unfold _create, _repo_root, _resolve_repo_relative in H.
  exec_all H; decide_codes.
  all: try (simpl; intros Hin Hrc; exfalso; split_or Hin; discriminate Hin).
  - simpl. intros Hin Hrc. split_or Hin; try discriminate Hin.
    injection Hin as <- <- <- <- <-.
    repeat match goal with x : unit |- _ => destruct x end.
    split; [reflexivity|]. split; [|reflexivity].
    eexists [_; _; _; _; _; _; _; _; _; _; _; _]. split; [reflexivity|].
    simpl. eexists. reflexivity.
  - apply exec_bind in H as (staging & post & res & -> & Hstage & H).
    apply stage_payload_outcome in Hstage as (Rs & Ps & Cs & Fs).
    apply captured_quiet in Cs.
    intros Hin Hrc. exfalso.
    unfold captured in *. simpl in Hin. rewrite omap_app, Cs in Hin. simpl in Hin.
    destruct Hin as [Hin|[Hin|Hin]]; [discriminate Hin| |].
    + injection Hin as _ _ _ _ <-. contradiction.
    + destruct res as [exc|u]; unfold _build_sandbox_paths in H; exec_all H;
        simpl in Hin; split_or Hin; discriminate Hin.
Qed.

Lemma create_stops_when_add_fails_bad_ref :
  let out := run handle (_create Scenario2.create_args_bad_ref) Scenario.host in
  out.1.1 = inr 1%Z /\
  printed out.2 = ["[FAIL] fatal: invalid reference: no-such-ref"] /\
  reported out.2 = [].
Proof.
  destruct (create_stops_when_add_fails Scenario2.create_args_bad_ref _ _
              (run_exec handle (_create Scenario2.create_args_bad_ref) Scenario.host)
              "/repo" "cfst-worker/P1-20260101-120000-repo-4242"
              "/repo/.codex/worktrees/P1-20260101-120000-repo-4242" "no-such-ref"
              (git_fatal 128 "invalid reference: no-such-ref"))
    as (Hr & _ & Hrep).
  - vm_compute. right. left. reflexivity.
  - discriminate.
  - split; [exact Hr|]. split; [vm_compute; reflexivity | exact Hrep].
Defined.

(** X8: outside a git repository -- the lookup of the repository being
    the first command and returning a nonzero status -- [_create],
    [_remove] and the checkpoint helper each return 2 after printing the
    same failure line; the lookup is the only command they start, and
    they ask for no update of the file system. *)
Theorem scripts_require_a_repository (format : string -> Z -> exn + string)
  (ca : CreateArgs) (ra : RemoveArgs) (ka : Checkpoint.Args) :
  (forall tr r, exec (_create ca) tr r ->
     forall cmd proc, List.hd_error (captured tr) = Some (cmd, proc) ->
     returncode proc <> 0%Z ->
     r = inr 2%Z /\ printed tr = ["[FAIL] " +:+ not_a_repository] /\
     commands tr = [cmd] /\ updates tr = [] /\
     exists cwd, cmd = ["git"; "-C"; to_str cwd; "rev-parse"; "--show-toplevel"]) /\
  (forall tr r, exec (_remove ra) tr r ->
     forall cmd proc, List.hd_error (captured tr) = Some (cmd, proc) ->
     returncode proc <> 0%Z ->
     r = 2%Z /\ printed tr = ["[FAIL] " +:+ not_a_repository] /\
     commands tr = [cmd] /\ updates tr = [] /\
     exists cwd, cmd = ["git"; "-C"; to_str cwd; "rev-parse"; "--show-toplevel"]) /\
  (forall tr r, exec (Checkpoint.main format ka) tr r ->
     forall cmd proc, List.hd_error (captured tr) = Some (cmd, proc) ->
     returncode proc <> 0%Z ->
     r = inr 2%Z /\ printed tr = ["[FAIL] " +:+ not_a_repository] /\
     commands tr = [cmd] /\ updates tr = [] /\
     exists cwd, cmd = ["git"; "-C"; to_str cwd; "rev-parse"; "--show-toplevel"]).
Proof.
  split; [|split].
  - intros tr r H cmd proc.
    unfold _create, _repo_root, _resolve_repo_relative in H.
    exec_all H; decide_codes.
    all: simpl; intros Hhd Hrc; injection Hhd as <- <-; try contradiction.
    repeat split. eexists. reflexivity.
  - intros tr r H cmd proc.
    unfold _remove, _repo_root in H.
    exec_all H; decide_codes.
    all: simpl; intros Hhd Hrc; injection Hhd as <- <-; try contradiction.
    repeat split. eexists. reflexivity.
  - intros tr r H cmd proc.
    unfold Checkpoint.main, Checkpoint._repo_root in H.
    exec_all H; decide_codes.
    all: simpl; intros Hhd Hrc; try discriminate Hhd;
         injection Hhd as <- <-; try contradiction.
    repeat split. eexists. reflexivity.
Qed.

Lemma scripts_require_a_repository_outside :
  (run handle (_create Scenario.create_args) Scenario2.outside).1.1 = inr 2%Z /\
  (run handle (_remove Scenario.remove_args) Scenario2.outside).1.1 = 2%Z /\
  (run handle (Checkpoint.main Checkpoint.format_count (Checkpoint.default_args 10))
     Scenario2.outside).1.1 = inr 2%Z.
Proof.
  pose proof (scripts_require_a_repository Checkpoint.format_count
                Scenario.create_args Scenario.remove_args
                (Checkpoint.default_args 10)) as (Hc & Hr & Hk).
  split; [|split].
  - refine (proj1 (Hc _ _ (run_exec handle _ Scenario2.outside)
                     ["git"; "-C"; "/etc"; "rev-parse"; "--show-toplevel"]
                     (git_fatal 128 "not a git repository (or any of the parent directories): .git")
                     _ _)); [vm_compute; reflexivity | discriminate].
  - refine (proj1 (Hr _ _ (run_exec handle _ Scenario2.outside)
                     ["git"; "-C"; "/etc"; "rev-parse"; "--show-toplevel"]
                     (git_fatal 128 "not a git repository (or any of the parent directories): .git")
                     _ _)); [vm_compute; reflexivity | discriminate].
  - refine (proj1 (Hk _ _ (run_exec handle _ Scenario2.outside)
                     ["git"; "-C"; "/etc"; "rev-parse"; "--show-toplevel"]
                     (git_fatal 128 "not a git repository (or any of the parent directories): .git")
                     _ _)); [vm_compute; reflexivity | discriminate].
Defined.

(** X9: [_create] starts [git worktree add] only after it has found
    the payload and the policy directory to be directories that resolve
    into the repository, and has created the worktrees root.  The branch
    and the worktree directory carry one name -- the slug of the
    payload's last component, the time stamp, the name of the working
    directory and the process identifier -- the branch under the branch
    prefix, the directory under the worktrees root; the start point is
    the base ref that was asked for. *)
Theorem create_checks_before_add (a : CreateArgs) (tr : list Event) (r : exn + Z) :
  exec (_create a) tr r ->
  forall root_s b p_s base,
    In ["git"; "-C"; root_s; "worktree"; "add"; "-b"; b; p_s; base] (commands tr) ->
    exists repo_root paper_abs skill_abs paper_rel wt_root stamp cwd' pid,
      root_s = to_str repo_root /\
      relative_to paper_abs repo_root = Some paper_rel /\
      under repo_root skill_abs /\
      In (ProbeDir paper_abs, true) (probes tr) /\
      In (ProbeDir skill_abs, true) (probes tr) /\
      In (Answered (MkdirP wt_root) None) tr /\
      let dir_name :=
        worktree_dir (_sanitize_slug (name (of_str (as_posix paper_rel))))
          (suffix_of stamp (name cwd') pid) in
      b = branch_prefix a +:+ "/" +:+ dir_name /\
      p_s = to_str (wt_root // dir_name) /\
      base = base_ref a.
Proof.
  intros H root_s b p_s base.
  unfold _create, _repo_root, _resolve_repo_relative in H.
  exec_all H; decide_codes.
  all: try (simpl; intros Hin; exfalso; split_or Hin; discriminate Hin).
  - simpl. intros Hin. split_or Hin; try discriminate Hin.
    injection Hin as <- <- <- <-.
    subst.
    exists ans1, ans2, ans3, p, ans6, ans8, ans9, ans10.
    split; [reflexivity|]. split; [assumption|].
    split; [apply relative_to_under; eauto|].
    split; [simpl; auto|]. split; [simpl; auto|].
    split; [simpl; tauto|].
    repeat split.
  - apply exec_bind in H as (staging & post & res & -> & Hstage & H).
    apply stage_payload_outcome in Hstage as (Rs & Ps & Cs & Fs).
    intros Hin.
    assert (Hpost : ~ In ["git"; "-C"; root_s; "worktree"; "add"; "-b"; b; p_s; base]
                      (commands post)).
    { destruct res as [exc|u]; unfold _build_sandbox_paths in H; exec_all H;
        simpl; intros Hp; split_or Hp; discriminate Hp. }
    unfold commands in *. simpl in Hin. rewrite omap_app, Cs in Hin. simpl in Hin.
    destruct Hin as [Hin|[Hin|Hin]]; [discriminate Hin| |contradiction].
    injection Hin as <- <- <- <-.
    subst.
    exists ans1, ans2, ans3, p, ans6, ans8, ans9, ans10.
    split; [reflexivity|]. split; [assumption|].
    split; [apply relative_to_under; eauto|].
    split; [simpl; auto|]. split; [simpl; auto|].
    split; [simpl; tauto|].
    repeat split.
Qed.

Lemma create_checks_before_add_scenario :
  let out := run handle (_create Scenario.create_args) Scenario.host in
  exists repo_root paper_abs skill_abs paper_rel wt_root stamp cwd' pid,
    "/repo" = to_str repo_root /\
    relative_to paper_abs repo_root = Some paper_rel /\
    under repo_root skill_abs /\
    In (ProbeDir paper_abs, true) (probes out.2) /\
    In (ProbeDir skill_abs, true) (probes out.2) /\
    In (Answered (MkdirP wt_root) None) out.2 /\
    let dir_name :=
      worktree_dir (_sanitize_slug (name (of_str (as_posix paper_rel))))
        (suffix_of stamp (name cwd') pid) in
    "cfst-worker/P1-20260101-120000-repo-4242"
    = branch_prefix Scenario.create_args +:+ "/" +:+ dir_name /\
    "/repo/.codex/worktrees/P1-20260101-120000-repo-4242"
    = to_str (wt_root // dir_name) /\
    "HEAD" = base_ref Scenario.create_args.
Proof.
  refine (create_checks_before_add Scenario.create_args _ _
            (run_exec handle (_create Scenario.create_args) Scenario.host)
            "/repo" "cfst-worker/P1-20260101-120000-repo-4242"
            "/repo/.codex/worktrees/P1-20260101-120000-repo-4242" "HEAD" _).
  vm_compute. right. left. reflexivity.
Defined.



End CreateMore.

Module RemoveMore.
Import PyStr PyPath Sys SysFacts PathFacts GitWorktree World Traces.
Import SandboxFacts RemoveFacts CreateFacts RollbackFacts TraceFacts.

Lemma branch_scan_quiet wt lines b c tr r :
  exec (branch_scan wt lines b c) tr r ->
  captured tr = [] /\ commands tr = [] /\ printed tr = [] /\ reported tr = []
  /\ updates tr = [].
Proof.
  revert b c tr. induction lines as [|line rest IH]; intros b c tr H.
  - simpl in H. destruct H as [-> _]. auto.
  - simpl in H.
    destruct (startswith "worktree " line); [now apply IH in H|].
    destruct (startswith "branch " line); [|now apply IH in H].
    destruct c as [cp|]; [|now apply IH in H].
    destruct (String.eqb cp ""); [now apply IH in H|].
    simpl in H. destruct H as (here & tr1 & -> & wanted & tr2 & -> & H).
    destruct (path_eqb here wanted).
    + destruct H as [-> _]. auto.
    + apply IH in H. exact H.
Qed.

Lemma truthy_Some br : truthy br = true -> exists b, br = Some b /\ b <> "".
Proof.
  destruct br as [b|]; [|discriminate]. simpl. intros H.
  exists b. split; [reflexivity|]. intros ->. discriminate.
Qed.

(** X11: [_remove] deletes a branch only when it was asked to, only
    after [git worktree remove] has returned 0, and then the branch
    given on the command line if one was given.  When
    [git worktree remove] fails, [_remove] returns 1 after printing the
    error text of git, deletes no branch and prints no record. *)
Theorem remove_guards_branch_deletion (a : RemoveArgs) (tr : list Event) (r : Z) :
  exec (_remove a) tr r ->
  (forall root_s b proc,
     In (["git"; "-C"; root_s; "branch"; "-D"; b], proc) (captured tr) ->
     delete_branch a = true /\ b <> "" /\
     (truthy (branch a) = true -> branch a = Some b) /\
     exists p_s rm,
       In (["git"; "-C"; root_s; "worktree"; "remove"; "--force"; p_s], rm)
         (captured tr) /\
       returncode rm = 0%Z) /\
  (forall root_s p_s rm,
     In (["git"; "-C"; root_s; "worktree"; "remove"; "--force"; p_s], rm)
       (captured tr) ->
     returncode rm <> 0%Z ->
     r = 1%Z /\
     List.last (printed tr) ""
     = "[FAIL] " +:+ str_or (strip (stderr rm)) (strip (stdout rm)) /\
     reported tr = [] /\
     forall root' b, ~ In ["git"; "-C"; root'; "branch"; "-D"; b] (commands tr)).
Proof.
  intros H. unfold _remove, _repo_root, _branch_for_worktree in H.
  exec_all H; decide_codes.
  all: try (apply exec_bind in H as (t1 & t2 & br & -> & Hscan & H);
            apply branch_scan_quiet in Hscan as (Q1 & Q2 & Q3 & Q4 & Q5);
            exec_all H; decide_codes).
  all: try match goal with E : false = true |- _ => discriminate E end.
  all: unfold captured, commands, printed, reported,
         git_worktree_remove, git_branch_delete in *; simpl;
       rewrite ?omap_app, ?Q1, ?Q2, ?Q3, ?Q4; simpl.
  all: split;
       [ intros root_s b proc Hin; split_or Hin; try discriminate Hin
       | intros root_s p_s rm Hin Hrc; split_or Hin; try discriminate Hin ].
  all: try (injection Hin as <- <- <-; try contradiction;
            repeat split; try reflexivity;
            intros root' b' Hb; split_or Hb; discriminate Hb).
  all: injection Hin as <- <- <-.
  all: match goal with
       | E : truthy ?br = true |- _ =>
           let x := fresh "b" in let Hx := fresh in
           destruct (truthy_Some br E) as (x & Hx & ?);
           try rewrite Hx in *; try subst br; simpl
       end.
  all: split; [assumption|]. 
  all: split; [assumption|].
  all: split; [first [intros _; assumption | intros; congruence | discriminate]|].
  all: do 2 eexists; split;
       [repeat first [left; reflexivity | right] | assumption].
Qed.

Lemma remove_guards_branch_deletion_scenario :
  delete_branch Scenario.remove_args = true /\
  "cfst-worker/P1-20260101-120000-repo-4242" <> "" /\
  (truthy (branch Scenario.remove_args) = true ->
   branch Scenario.remove_args = Some "cfst-worker/P1-20260101-120000-repo-4242") /\
  exists p_s rm,
    In (["git"; "-C"; "/repo"; "worktree"; "remove"; "--force"; p_s], rm)
      (captured (run handle (_remove Scenario.remove_args) Scenario.staged).2) /\
    returncode rm = 0%Z.
Proof.
  refine (proj1 (remove_guards_branch_deletion Scenario.remove_args _ _
                   (run_exec handle (_remove Scenario.remove_args) Scenario.staged))
            "/repo" "cfst-worker/P1-20260101-120000-repo-4242"
            (git_ok ("Deleted branch cfst-worker/P1-20260101-120000-repo-4242" +:+ nl))
            _).
  vm_compute. do 3 right. left. reflexivity.
Defined.

(** X12: [_remove] returns 0 exactly when it has printed its record,
    which is then the last thing it did.  The record names the
    repository and the worktree of the [git worktree remove] that
    returned 0, and the branch given on the command line if one was
    given; its [deleted_branch] field is true exactly when a
    [git branch -D] of the recorded branch returned 0.  A branch that
    could not be deleted leaves the exit status at 0. *)
Theorem remove_record_is_truthful (a : RemoveArgs) (tr : list Event) (r : Z) :
  exec (_remove a) tr r ->
  (r = 0%Z <-> reported tr <> []) /\
  (forall j, In j (reported tr) ->
     exists pre repo_s wt_s br d,
       tr = (pre ++ [Answered (PrintJson j) tt])%list /\
       j = [("repo_root", JStr repo_s); ("worktree_path", JStr wt_s);
            ("branch", json_opt_str br); ("deleted_branch", JBool d)] /\
       (truthy (branch a) = true -> br = branch a) /\
       (d = true <->
        exists b proc,
          In (["git"; "-C"; repo_s; "branch"; "-D"; b], proc) (captured tr) /\
          returncode proc = 0%Z /\ br = Some b) /\
       exists rm,
         In (["git"; "-C"; repo_s; "worktree"; "remove"; "--force"; wt_s], rm)
           (captured tr) /\
         returncode rm = 0%Z).
Proof.
  intros H. unfold _remove, _repo_root, _branch_for_worktree in H.
  exec_all H.
  all: try (apply exec_bind in H as (t1 & t2 & br & -> & Hscan & H);
            apply branch_scan_quiet in Hscan as (Q1 & Q2 & Q3 & Q4 & Q5);
            exec_all H).
  all: repeat match goal with
       | E : negb _ = true |- _ => apply negb_true_iff in E
       | E : negb _ = false |- _ => apply negb_false_iff in E
       | E : _ && _ = true |- _ => apply andb_prop in E as [? ?]
       end.
  all: try match goal with E : false = true |- _ => discriminate E end.
  all: unfold captured, commands, printed, reported,
         git_worktree_remove, git_branch_delete in *; simpl;
       rewrite ?omap_app, ?Q1, ?Q2, ?Q3, ?Q4; simpl.
  all: split; [split; [try discriminate; intros _; discriminate
                      | try reflexivity; intros Hn; now contradiction Hn]|].
  all: intros j Hj; split_or Hj; subst j.
  all: repeat match goal with x : unit |- _ => destruct x end.
  all: do 3 eexists;
       first [ exists (@None string); eexists; split; [split_last|];
               split; [reflexivity|]
             | exists (branch a); eexists; split; [split_last|];
               split; [reflexivity|]
             | match goal with
               | br : option string |- _ =>
                   exists br; eexists; split; [split_last|]; split; [reflexivity|]
               end ].
  all: split; [first [intros _; reflexivity | intros; congruence]|].
  all: split; [|eexists; split;
                 [repeat first [left; reflexivity | right]
                 | now apply Z.eqb_eq]].
  all: split.
  all: try (intros Hd; discriminate Hd).
  all: try (intros (b & proc & Hin & _); split_or Hin; discriminate Hin).
  all: try (intros (b & proc & Hin & Hrc & _); split_or Hin; try discriminate Hin;
            apply (f_equal snd) in Hin; simpl in Hin; subst proc;
            now apply Z.eqb_eq).
  all: intros Hd; apply Z.eqb_eq in Hd.
  all: match goal with
       | E : truthy ?br = true |- _ =>
           let x := fresh "b" in let Hx := fresh in
           destruct (truthy_Some br E) as (x & Hx & ?);
           try rewrite Hx in *; try subst br; simpl
       end.
  all: do 2 eexists; split; [repeat first [left; reflexivity | right]|];
       split; [assumption | reflexivity].
Qed.

Lemma remove_record_is_truthful_scenario :
  let out := run handle (_remove Scenario.remove_args) Scenario.staged in
  let j := List.hd [] (reported out.2) in
  exists pre repo_s wt_s br d,
    out.2 = (pre ++ [Answered (PrintJson j) tt])%list /\
    j = [("repo_root", JStr repo_s); ("worktree_path", JStr wt_s);
         ("branch", json_opt_str br); ("deleted_branch", JBool d)] /\
    (truthy (branch Scenario.remove_args) = true ->
     br = branch Scenario.remove_args) /\
    (d = true <->
     exists b proc,
       In (["git"; "-C"; repo_s; "branch"; "-D"; b], proc) (captured out.2) /\
       returncode proc = 0%Z /\ br = Some b) /\
    exists rm,
      In (["git"; "-C"; repo_s; "worktree"; "remove"; "--force"; wt_s], rm)
        (captured out.2) /\
      returncode rm = 0%Z.
Proof.
  refine (proj2 (remove_record_is_truthful Scenario.remove_args _ _
                   (run_exec handle (_remove Scenario.remove_args) Scenario.staged))
            _ _).
  vm_compute. left. reflexivity.
Defined.

End RemoveMore.

Module ListingFacts.
Import PyStr PyPath Sys Slug SysFacts PathFacts GitWorktree World Traces Listing.
Import StrFacts SlugMore CheckpointFacts.

Lemma substring_all s : String.substring 0 (String.length s) s = s.
Proof. induction s as [|c s IH]; simpl; [reflexivity | now rewrite IH]. Qed.

Lemma length_app (p s : string) :
  String.length (p +:+ s) = (String.length p + String.length s)%nat.
Proof. induction p as [|c p IH]; simpl; [reflexivity | now rewrite IH]. Qed.

Lemma removeprefix_app p s : removeprefix p (p +:+ s) = s.
Proof.
  unfold removeprefix.
  assert (Hp : String.prefix p (p +:+ s) = true) by (apply prefix_app; eauto).
  rewrite Hp, length_app.
  replace (String.length p + String.length s - String.length p)%nat
    with (String.length s) by lia.
  clear Hp. induction p as [|c p IH]; simpl; [apply substring_all | exact IH].
Qed.

Lemma splitlines_newline l rest :
  one_line l = true ->
  splitlines_go false (l +:+ String "010" rest) = l :: splitlines_go false rest.
Proof.
  unfold one_line. induction l as [|c l IH]; simpl; intros H.
  - reflexivity.
  - apply andb_prop in H as [Hc H]. apply negb_true_iff in Hc.
    rewrite Hc. now rewrite IH.
Qed.

Lemma splitlines_line l rest :
  one_line l = true ->
  splitlines_go false (l +:+ nl +:+ rest) = l :: splitlines_go false rest.
Proof. apply splitlines_newline. Qed.

Lemma last_char_cons c s : exists d, last_char (String c s) = Some d.
Proof.
  revert c. induction s as [|x s IH]; intros c; [now exists c|].
  destruct (IH x) as [d Hd]. exists d. exact Hd.
Qed.

Lemma last_char_app a b :
  last_char (a +:+ b) = match last_char b with Some c => Some c | None => last_char a end.
Proof.
  induction a as [|x a IH].
  - simpl. now destruct (last_char b).
  - destruct a as [|y a].
    + destruct b as [|c b]; [reflexivity|].
      destruct (last_char_cons c b) as [d Hd].
      change (last_char (String x (String c b)) =
              match last_char (String c b) with
              | Some c0 => Some c0
              | None => Some x
              end).
      rewrite Hd. exact Hd.
    + change (last_char (String y a +:+ b) =
              match last_char b with
              | Some c => Some c
              | None => last_char (String y a)
              end).
      exact IH.
Qed.

Lemma trimmed_last s c : trimmed s = true -> last_char s = Some c -> is_space c = false.
Proof.
  unfold trimmed, strip, strip_by. intros H%String.eqb_eq Hl.
  rewrite <- H in Hl. now apply rstrip_last in Hl.
Qed.

Lemma strip_ref b : trimmed b = true -> strip ("refs/heads/" +:+ b) = "refs/heads/" +:+ b.
Proof.
  intros H. apply strip_by_fix.
  - simpl. intros c [= <-]. reflexivity.
  - intros c. rewrite last_char_app. destruct (last_char b) as [d|] eqn:L.
    + intros [= <-]. now apply (trimmed_last b).
    + simpl. intros [= <-]. reflexivity.
Qed.

Lemma one_line_app a b : one_line (a +:+ b) = one_line a && one_line b.
Proof. apply all_chars_app. Qed.

(** The four lines of one entry of the listing. *)
Lemma splitlines_entry e rest :
  one_line (to_str e.1) = true -> one_line e.2 = true ->
  splitlines_go false (porcelain_entry e +:+ rest)
  = ("worktree " +:+ to_str e.1) :: "HEAD 0000000"
      :: ("branch refs/heads/" +:+ e.2) :: "" :: splitlines_go false rest.
Proof.
  intros Hp Hb. unfold porcelain_entry.
  rewrite !app_assoc.
  rewrite <- (app_assoc "worktree " (to_str e.1)).
  rewrite (splitlines_line ("worktree " +:+ to_str e.1))
    by (rewrite one_line_app, Hp; reflexivity).
  rewrite (splitlines_line "HEAD 0000000") by reflexivity.
  rewrite <- (app_assoc "branch refs/heads/" e.2).
  rewrite (splitlines_line ("branch refs/heads/" +:+ e.2))
    by (rewrite one_line_app, Hb; reflexivity).
  change (nl +:+ rest) with ("" +:+ nl +:+ rest).
  now rewrite (splitlines_line "") by reflexivity.
Qed.

Lemma scan_worktree_line wt p rest b c :
  branch_scan wt (("worktree " +:+ p) :: rest) b c
  = branch_scan wt rest None (Some (strip p)).
Proof.
  cbn [branch_scan].
  assert (S1 : startswith "worktree " ("worktree " +:+ p) = true)
    by (unfold startswith; apply prefix_app; eauto).
  now rewrite S1, removeprefix_app.
Qed.

Lemma scan_other_line wt line rest b c :
  startswith "worktree " line = false -> startswith "branch " line = false ->
  branch_scan wt (line :: rest) b c = branch_scan wt rest b c.
Proof. intros H1 H2. cbn [branch_scan]. now rewrite H1, H2. Qed.

Lemma scan_branch_line wt ref rest b cp :
  String.eqb cp "" = false ->
  branch_scan wt (("branch " +:+ ref) :: rest) b (Some cp)
  = bind (trigger (Resolve (of_str cp)))
      (fun here =>
         bind (trigger (Resolve wt))
           (fun wanted =>
              if path_eqb here wanted
              then Ret (Some (removeprefix "refs/heads/" (strip ref)))
              else branch_scan wt rest (Some (strip ref)) (Some cp))).
Proof.
  intros Hcp. cbn [branch_scan].
  assert (S2 : startswith "worktree " ("branch " +:+ ref) = false) by reflexivity.
  assert (S3 : startswith "branch " ("branch " +:+ ref) = true)
    by (unfold startswith; apply prefix_app; eauto).
  now rewrite S2, S3, removeprefix_app, Hcp.
Qed.

Lemma scan_listing w wt (entries : list (Path * string)) b c :
  forallb readable entries = true ->
  (run handle
     (branch_scan wt
        (splitlines_go false
           (List.fold_right (fun e acc => porcelain_entry e +:+ acc) "" entries))
        b c) w).1.1
  = option_map snd
      (List.find (fun e => path_eqb (canon w (of_str (to_str e.1))) (canon w wt))
         entries).
Proof.
  revert b c. induction entries as [|e entries IH]; intros b c H; [reflexivity|].
  simpl in H. apply andb_prop in H as [He H].
  unfold readable in He.
  repeat match goal with E : _ && _ = true |- _ => apply andb_prop in E as [? ?] end.
  match goal with E : negb _ = true |- _ => apply negb_true_iff in E; rename E into Hne end.
  match goal with E : trimmed (to_str _) = true |- _ => rename E into Htp end.
  match goal with E : trimmed e.2 = true |- _ => rename E into Htb end.
  cbn [List.fold_right]. rewrite splitlines_entry by assumption.
  assert (Hstrip : strip (to_str e.1) = to_str e.1) by now apply String.eqb_eq.
  rewrite scan_worktree_line, Hstrip.
  rewrite scan_other_line by reflexivity.
  change ("branch refs/heads/" +:+ e.2) with ("branch " +:+ ("refs/heads/" +:+ e.2)).
  rewrite (scan_branch_line wt _ _ _ _ Hne), (strip_ref _ Htb), removeprefix_app.
  cbn [bind trigger run handle].
  cbn [List.find].
  destruct (path_eqb (canon w (of_str (to_str e.1))) (canon w wt)) eqn:E.
  - reflexivity.
  - rewrite scan_other_line by reflexivity.
    specialize (IH (Some ("refs/heads/" +:+ e.2)) (Some (to_str e.1)) H).
    destruct (run handle (branch_scan wt _ _ _) w) as [[r' w'] tr'] eqn:R.
    simpl in *. exact IH.
Qed.



End ListingFacts.

Module DirFacts.
Import PyStr PyPath Sys SysFacts PathFacts WorkerSandbox World DirOrder.
Import StrFacts NameFacts RoundTrip.

(** A component read as a path is that component alone. *)
Lemma of_str_part x : wf_part x -> of_str x = mkPath "" [x].
Proof.
  intros Hx.
  assert (Hwf : wf_path (mkPath "" [x])).
  { split; [now left|]. simpl. now constructor. }
  pose proof (of_str_to_str _ Hwf) as H.
  destruct Hx as [Hk _]. unfold keep_part in Hk.
  apply andb_prop in Hk as [Hk _]. apply negb_true_iff in Hk.
  destruct x as [|c x]; [discriminate|]. exact H.
Qed.

Lemma workspace_walk_prefixes rt acc ps :
  rt <> "" -> Forall wf_part ps ->
  workspace_walk (mkPath rt acc) ps
  = List.map (fun k => to_str (mkPath rt (acc ++ take k ps)))
      (seq 1 (List.length ps)).
Proof.
  intros Hrt. revert acc. induction ps as [|p ps IH]; intros acc H; [reflexivity|].
  inversion H as [|? ? Hp Hps]; subst.
  cbn [workspace_walk List.length seq List.map].
  assert (Hd : mkPath rt acc // p = mkPath rt (acc ++ [p])).
  { unfold div. rewrite (of_str_part p Hp). reflexivity. }
  rewrite Hd, (IH _ Hps). f_equal.
  rewrite <- (seq_shift (List.length ps) 1), List.map_map.
  apply List.map_ext. intros k. cbn [take].
  now rewrite <- List.app_assoc.
Qed.

Lemma workspace_dirs_for_prefixes_eq (rel_path : string) :
  is_absolute (of_str rel_path) = false ->
  _workspace_dirs_for rel_path
  = List.map
      (fun k => to_str (mkPath "/" ("workspace" :: take k (parts (of_str rel_path)))))
      (seq 0 (S (List.length (parts (of_str rel_path))))).
Proof.
  intros Hrel. unfold _workspace_dirs_for.
  pose proof (of_str_wf rel_path) as [_ Hwf].
  unfold is_absolute in Hrel. apply negb_false_iff, String.eqb_eq in Hrel.
  destruct (of_str rel_path) as [rt ps] eqn:E. simpl in Hrel, Hwf. subst rt.
  unfold py_parts, is_absolute. cbn [root parts String.eqb negb].
  destruct ps as [|p ps]; [reflexivity|].
  change (path_eqb {| root := ""; parts := p :: ps |} (of_str ".")) with false.
  cbv iota.
  change (of_str "/workspace") with (mkPath "/" ["workspace"]).
  rewrite workspace_walk_prefixes by (auto; discriminate).
  cbn [seq List.map take]. reflexivity.
Qed.


(** X14: for a relative path, [_workspace_dirs_for] lists [/workspace]
    and then, one component at a time, every directory on the way down
    to the place of the path under [/workspace], this place included;
    for the path ["."] that is [/workspace] alone. *)
Theorem workspace_dirs_for_prefixes (rel_path : string) :
  is_absolute (of_str rel_path) = false ->
  _workspace_dirs_for rel_path
  = List.map
      (fun k => to_str (mkPath "/" ("workspace" :: take k (parts (of_str rel_path)))))
      (seq 0 (S (List.length (parts (of_str rel_path))))).
Proof. apply workspace_dirs_for_prefixes_eq. Qed.

Lemma workspace_dirs_for_prefixes_payload :
  _workspace_dirs_for "papers/P1"
  = ["/workspace"; "/workspace/papers"; "/workspace/papers/P1"].
Proof.
  rewrite (workspace_dirs_for_prefixes "papers/P1"); reflexivity.
Defined.

Lemma dir_key_total p q : dir_key_leb p q = false -> dir_key_leb q p = true.
Proof.
  unfold dir_key_leb. intros H. apply orb_false_iff in H as [H1 H2].
  apply Nat.ltb_ge in H1.
  destruct (Nat.eqb_spec (count_char "/" p) (count_char "/" q)) as [E|E].
  - simpl in H2. rewrite E, Nat.eqb_refl, Nat.ltb_irrefl. simpl.
    destruct (String.leb_total p q) as [T|T]; congruence.
  - assert (L : (count_char "/" q <? count_char "/" p)%nat = true)
      by (apply Nat.ltb_lt; lia).
    now rewrite L.
Qed.

Lemma key_le_depth p q : key_le p q -> depth_le p q.
Proof.
  unfold key_le, depth_le, dir_key_leb. intros H.
  apply orb_true_iff in H as [H|H].
  - apply Nat.ltb_lt in H. lia.
  - apply andb_prop in H as [H _]. apply Nat.eqb_eq in H. lia.
Qed.

Lemma insert_by_In {A} (leb : A -> A -> bool) x l z :
  In z (insert_by leb x l) <-> z = x \/ In z l.
Proof.
  induction l as [|y l IH]; simpl; [intuition|].
  destruct (leb x y); simpl; [intuition|]. rewrite IH. intuition.
Qed.

Lemma sort_by_In {A} (leb : A -> A -> bool) l z : In z (sort_by leb l) <-> In z l.
Proof.
  unfold sort_by. induction l as [|y l IH]; simpl; [reflexivity|].
  rewrite insert_by_In, IH. intuition.
Qed.

Lemma insert_by_NoDup {A} (leb : A -> A -> bool) x l :
  ~ In x l -> List.NoDup l -> List.NoDup (insert_by leb x l).
Proof.
  induction l as [|y l IH]; simpl; intros Hx Hl.
  - constructor; [intros [] | constructor].
  - destruct (leb x y).
    + constructor; [exact Hx | exact Hl].
    + inversion Hl as [|? ? Hy Hl']; subst. constructor.
      * rewrite insert_by_In. intros [->|H]; [apply Hx; now left | contradiction].
      * apply IH; [intros H; apply Hx; now right | exact Hl'].
Qed.

Lemma sort_by_NoDup {A} (leb : A -> A -> bool) l :
  List.NoDup l -> List.NoDup (sort_by leb l).
Proof.
  unfold sort_by. induction 1 as [|x l Hx Hl IH]; simpl; [constructor|].
  apply insert_by_NoDup; [|exact IH].
  change (~ In x (sort_by leb l)). now rewrite sort_by_In.
Qed.

Lemma insert_by_sorted x l :
  Sorted key_le l -> Sorted key_le (insert_by dir_key_leb x l).
Proof.
  induction 1 as [|y l Hl IH Hy]; simpl.
  - repeat constructor.
  - destruct (dir_key_leb x y) eqn:E.
    + constructor; [now constructor|]. constructor. exact E.
    + constructor; [exact IH|].
      destruct l as [|z l]; simpl.
      * constructor. now apply dir_key_total.
      * destruct (dir_key_leb x z).
        -- constructor. now apply dir_key_total.
        -- inversion Hy; subst. now constructor.
Qed.

Lemma sort_by_sorted l : Sorted key_le (sort_by dir_key_leb l).
Proof.
  unfold sort_by. induction l as [|x l IH]; simpl; [constructor|].
  now apply insert_by_sorted.
Qed.

Lemma sorted_depth l : Sorted key_le l -> StronglySorted depth_le l.
Proof.
  intros H. apply Sorted_StronglySorted.
  - intros a b c. unfold depth_le. lia.
  - induction H as [|y l Hl IH Hy]; constructor; [exact IH|].
    destruct Hy; constructor. now apply key_le_depth.
Qed.

Lemma strongly_sorted_lookup {A} (R : A -> A -> Prop) (l : list A) i j a b :
  StronglySorted R l -> l !! i = Some a -> l !! j = Some b -> (i < j)%nat -> R a b.
Proof.
  intros H. revert i j. induction H as [|x l Hl IH Hx]; intros i j Hi Hj Hlt.
  - discriminate.
  - destruct j as [|j]; [lia|]. destruct i as [|i].
    + simpl in Hi, Hj. injection Hi as <-.
      rewrite List.Forall_forall in Hx. apply Hx.
      apply list_elem_of_In. eapply list_elem_of_lookup_2. exact Hj.
    + simpl in Hi, Hj. apply (IH i j Hi Hj). lia.
Qed.

Lemma unique_sorted_dirs_In paths x :
  In x (_unique_sorted_dirs paths) <-> In x paths.
Proof.
  unfold _unique_sorted_dirs.
  rewrite sort_by_In, <- !list_elem_of_In. apply elem_of_remove_dups.
Qed.

Lemma unique_sorted_dirs_depth paths i j p q :
  _unique_sorted_dirs paths !! i = Some p ->
  _unique_sorted_dirs paths !! j = Some q ->
  (count_char "/" p < count_char "/" q)%nat -> (i < j)%nat.
Proof.
  unfold _unique_sorted_dirs. intros Hi Hj Hlt.
  pose proof (sorted_depth _ (sort_by_sorted (remove_dups paths))) as Hs.
  destruct (Nat.lt_trichotomy i j) as [L|[E|G]]; [exact L| |].
  - subst j. rewrite Hi in Hj. injection Hj as <-. lia.
  - pose proof (strongly_sorted_lookup _ _ _ _ _ _ Hs Hj Hi G) as Hd.
    unfold depth_le in Hd. lia.
Qed.

(** X15: [_unique_sorted_dirs] returns each of the given directories
    once, ordered by the key (number of slashes, name): neighbours are in
    key order, and a directory with fewer slashes stands before every
    directory with more -- a parent before the directories below it. *)
Theorem unique_sorted_dirs_order (paths : list string) :
  let dirs := _unique_sorted_dirs paths in
  List.NoDup dirs /\
  (forall x, In x dirs <-> In x paths) /\
  Sorted (fun p q => dir_key_leb p q = true) dirs /\
  (forall i j p q,
     dirs !! i = Some p -> dirs !! j = Some q ->
     (count_char "/" p < count_char "/" q)%nat -> (i < j)%nat).
Proof.
  cbv zeta. split; [|split; [|split]].
  - apply sort_by_NoDup. apply NoDup_ListNoDup, NoDup_remove_dups.
  - apply unique_sorted_dirs_In.
  - apply sort_by_sorted.
  - apply unique_sorted_dirs_depth.
Qed.

Lemma unique_sorted_dirs_order_twice :
  _unique_sorted_dirs ["/workspace/tmp/P1"; "/workspace"; "/workspace/tmp";
                       "/workspace"; "/workspace/papers"]
  = ["/workspace"; "/workspace/papers"; "/workspace/tmp"; "/workspace/tmp/P1"] /\
  (1 < 3)%nat.
Proof.
  split; [vm_compute; reflexivity|].
  apply (proj2 (proj2 (proj2 (unique_sorted_dirs_order
           ["/workspace/tmp/P1"; "/workspace"; "/workspace/tmp";
            "/workspace"; "/workspace/papers"])))
           1%nat 3%nat "/workspace/papers" "/workspace/tmp/P1").
  - vm_compute. reflexivity.
  - vm_compute. reflexivity.
  - vm_compute. lia.
Defined.

Lemma count_join l :
  Forall (fun x => count_char "/" x = 0) l ->
  count_char "/" (join "/" l) = (List.length l - 1)%nat.
Proof.
  induction 1 as [|w ws Hw Hws IH]; [reflexivity|].
  destruct ws as [|w' ws]; [simpl; exact Hw|].
  change (join "/" (w :: w' :: ws)) with (w +:+ "/" +:+ join "/" (w' :: ws)).
  rewrite !count_char_app, Hw, IH. simpl. lia.
Qed.

Lemma workspace_depth ps :
  Forall wf_part ps ->
  count_char "/" (to_str (mkPath "/" ("workspace" :: ps))) = S (List.length ps).
Proof.
  intros H. unfold to_str. cbn [root parts].
  change ("/" +:+ join "/" ("workspace" :: ps))
    with (String "/" (join "/" ("workspace" :: ps))).
  cbn [count_char]. rewrite count_join.
  - simpl. lia.
  - constructor; [reflexivity|].
    eapply List.Forall_impl; [|exact H]. now intros x [_ Hx].
Qed.

Lemma In_lookup {A} (l : list A) x : In x l -> exists i, l !! i = Some x.
Proof.
  intros H. apply list_elem_of_In, list_elem_of_lookup_1 in H. exact H.
Qed.

(** X16: the directories [main] has [bwrap] create under [/workspace]
    come parents first: for each of the three relative paths of the task
    and each directory on the way down to its place under [/workspace],
    the list holds the directory and its parent, the parent earlier. *)
Theorem mkdir_targets_parents_first (paper_rel output_rel skill_rel : string) :
  let dirs := _unique_sorted_dirs (mkdir_targets paper_rel output_rel skill_rel) in
  forall rel, In rel [paper_rel; output_rel; skill_rel] ->
  is_absolute (of_str rel) = false ->
  forall k, (k < List.length (parts (of_str rel)))%nat ->
  exists i j,
    dirs !! i = Some (to_str (mkPath "/" ("workspace" :: take k (parts (of_str rel))))) /\
    dirs !! j = Some (to_str (mkPath "/" ("workspace" :: take (S k) (parts (of_str rel))))) /\
    (i < j)%nat.
Proof.
  cbv zeta. intros rel Hrel Habs k Hk.
  pose proof (of_str_wf rel) as [_ Hwf].
  assert (Hin : forall n, (n <= List.length (parts (of_str rel)))%nat ->
            In (to_str (mkPath "/" ("workspace" :: take n (parts (of_str rel)))))
              (_unique_sorted_dirs (mkdir_targets paper_rel output_rel skill_rel))).
  { intros n Hn. apply unique_sorted_dirs_In. unfold mkdir_targets.
    assert (Hd : In (to_str (mkPath "/" ("workspace" :: take n (parts (of_str rel)))))
                   (_workspace_dirs_for rel)).
    { rewrite (workspace_dirs_for_prefixes_eq rel Habs).
      apply List.in_map_iff. exists n. split; [reflexivity|].
      apply List.in_seq. lia. }
    rewrite !List.in_app_iff. simpl in Hrel.
    destruct Hrel as [<-|[<-|[<-|[]]]]; auto. }
  destruct (In_lookup _ _ (Hin k ltac:(lia))) as [i Hi].
  destruct (In_lookup _ _ (Hin (S k) ltac:(lia))) as [j Hj].
  exists i, j. split; [exact Hi|]. split; [exact Hj|].
  apply (unique_sorted_dirs_depth _ _ _ _ _ Hi Hj).
  assert (Hwf' : forall n, Forall wf_part (take n (parts (of_str rel)))).
  { intros n. now apply Forall_take. }
  rewrite !workspace_depth by apply Hwf'.
  rewrite !length_take. lia.
Qed.

Lemma mkdir_targets_parents_first_payload :
  exists i j,
    _unique_sorted_dirs (mkdir_targets "papers/P1" "tmp/P1"
                           ".codex/skills/cfst-paper-extractor") !! i
    = Some "/workspace/papers" /\
    _unique_sorted_dirs (mkdir_targets "papers/P1" "tmp/P1"
                           ".codex/skills/cfst-paper-extractor") !! j
    = Some "/workspace/papers/P1" /\
    (i < j)%nat.
Proof.
  apply (mkdir_targets_parents_first "papers/P1" "tmp/P1"
           ".codex/skills/cfst-paper-extractor" "papers/P1"
           ltac:(now left) eq_refl 1%nat).
  vm_compute. lia.
Defined.

End DirFacts.

Module GateFacts.
Import PyStr PyPath Sys SysFacts PathFacts WorkerSandbox World Traces Streams.
Import SandboxFacts TraceFacts.

(** X17: the footprint of the sandbox gate.  [main] writes nothing to
    its standard output and starts no captured command; the only update
    of the file system it ever asks for is the creation of the output
    directory, at the place the output path resolves to under the
    worktree; and it starts at most one process. *)
Theorem gate_footprint (a : Args) (tr : list Event) (r : exn + Z) :
  exec (main a) tr r ->
  to_stdout tr = [] /\ captured tr = [] /\
  (List.length (spawned tr) <= 1)%nat /\
  (updates tr = [] \/
   exists wt p ans,
     updates tr = [Answered (MkdirP p) ans] /\
     In (Answered (Resolve (joinpath wt (of_str (output_dir a)))) p) tr /\
     under wt p).
Proof.
  intros H. unfold main, launch, _resolve_base_path, _resolve_under in H.
  exec_all H; decide_codes.
  all: split; [reflexivity|]; split; [reflexivity|]; split; [simpl; lia|].
  all: try (left; reflexivity).
  all: right; do 3 eexists; split; [reflexivity|]; split; [simpl; tauto|].
  all: apply relative_to_under; eauto.
Qed.

Lemma gate_footprint_false :
  to_stdout (run handle (main (Scenario.sandbox_args ["--"; "false"]))
               Scenario.staged).2 = [].
Proof.
  exact (proj1 (gate_footprint _ _ _
                  (run_exec handle (main (Scenario.sandbox_args ["--"; "false"]))
                     Scenario.staged))).
Defined.

(** X18: two refusals of the sandbox gate.  Without [bwrap] on the
    path [main] returns 1 after one line on the error stream, having
    asked nothing else of its environment.  Without a worker command --
    none at all, or the separator [--] alone -- it starts no process: it
    returns 1 after a failure line, or ends with the exception the
    creation of the output directory raised. *)
Theorem gate_refusals (a : Args) (tr : list Event) (r : exn + Z) :
  exec (main a) tr r ->
  (forall found,
     In ("bwrap", found) (lookups tr) ->
     found = None \/ found = Some "" ->
     r = inr 1%Z /\
     tr = [Answered (Which "bwrap") found;
           Answered (PrintErr "[FAIL] bubblewrap (bwrap) not found in PATH.") tt]) /\
  (strip_dashdash (worker_cmd a) = [] ->
   spawned tr = [] /\
   ((r = inr 1%Z /\ exists line, printed tr = ["[FAIL] " +:+ line]) \/
    (exists exc, r = inl exc /\ failures tr = [exc]))).
Proof.
  intros H. unfold main, launch, _resolve_base_path, _resolve_under in H.
  exec_all H; decide_codes.
  all: repeat match goal with x : unit |- _ => destruct x end.
  all: split.
  all: try (intros found Hin Hf; simpl in Hin; split_or Hin;
            injection Hin as <-; subst;
            first [ split; reflexivity
                  | destruct Hf as [Hf|Hf]; try discriminate Hf;
                    injection Hf as ->; discriminate ]).
  all: intros Hcmd; try (rewrite Hcmd in *; discriminate).
  all: split; [reflexivity|].
  all: first [ left; split; [reflexivity|]; eexists; reflexivity
             | right; eexists; split; reflexivity ].
Qed.

Lemma gate_refusals_no_command :
  spawned (run handle (main (Scenario.sandbox_args ["--"])) Scenario.staged).2 = [].
Proof.
  exact (proj1 (proj2 (gate_refusals (Scenario.sandbox_args ["--"]) _ _
                         (run_exec handle (main (Scenario.sandbox_args ["--"]))
                            Scenario.staged)) eq_refl)).
Defined.

End GateFacts.

Module CheckpointMore.
Import PyStr PyPath Sys SysFacts PathFacts Checkpoint World Traces.
Import SandboxFacts TraceFacts.

Section Main.
Variable format : string -> Z -> exn + string.

Ltac unfold_main H :=
  unfold main, commit_step, push_step, _repo_root, _staged_files, _current_branch,
    _check_remote in H.

(** X19: the checkpoint helper acts only on its intervals.  With a
    count or an interval that is not positive, [main] returns 1 after
    one failure line and starts no command.  It stages -- the output
    directory, nothing else -- and commits only when the count is a
    multiple of the commit interval, the message being the template
    filled with the count; it pushes, to the remote it was given, only
    when the count is a multiple of the push interval. *)
Theorem checkpoint_acts_on_intervals (a : Args) (tr : list Event) (r : exn + Z) :
  exec (main format a) tr r ->
  (((processed_count a <= 0)%Z \/ (commit_every a <= 0)%Z \/ (push_every a <= 0)%Z) ->
   r = inr 1%Z /\ commands tr = [] /\ exists line, tr = [Answered (Print line) tt]) /\
  (forall root dir, In ["git"; "-C"; root; "add"; "--"; dir] (commands tr) ->
     (processed_count a mod commit_every a = 0)%Z /\ dir = output_dir a) /\
  (forall root msg, In ["git"; "-C"; root; "commit"; "-m"; msg] (commands tr) ->
     (processed_count a mod commit_every a = 0)%Z /\
     format (message_template a) (processed_count a) = inr msg) /\
  (forall root rem b, In ["git"; "-C"; root; "push"; rem; b] (commands tr) ->
     (processed_count a mod push_every a = 0)%Z /\ rem = remote a).
Proof.
  intros H. unfold_main H.
  exec_all H; decide_codes.
  all: repeat match goal with
       | E : (_ <=? _)%Z = true |- _ => apply Z.leb_le in E
       | E : (_ <=? _)%Z = false |- _ => apply Z.leb_gt in E
       | E : _ || _ = true |- _ => apply orb_true_iff in E
       | E : _ || _ = false |- _ => apply orb_false_iff in E as [? ?]
       end.
  all: repeat match goal with x : unit |- _ => destruct x end.
  all: split; [try (intros Hbad; exfalso; lia);
               intros _; repeat split; eexists; reflexivity|].
  all: unfold git_add, git_commit, git_push, git_diff_cached; simpl.
  all: split; [intros root dir Hin; split_or Hin; try discriminate Hin;
               injection Hin as <- <-; (split; [assumption | reflexivity])|].
  all: split; [intros root msg Hin; split_or Hin; try discriminate Hin;
               injection Hin as <- <-;
               (split; first [assumption | reflexivity])|].
  all: intros root rem b Hin; split_or Hin; try discriminate Hin;
       injection Hin as <- <- <-; (split; [assumption | reflexivity]).
Qed.

Lemma checkpoint_truthy_Some br : truthy br = true -> exists b, br = Some b /\ b <> "".
Proof.
  destruct br as [b|]; [|discriminate]. simpl. intros H.
  exists b. split; [reflexivity|]. intros ->. discriminate.
Qed.

(** X20: the checkpoint helper pushes only a named branch to a known
    remote, and never after a failed commit.  A [git push] of the run
    names the branch given on the command line or, without one, the
    branch [git rev-parse --abbrev-ref HEAD] printed, which is then not
    the detached [HEAD]; [git remote get-url] has returned 0 for the
    remote before; every [git commit] of the run has returned 0; and
    [main] returns 0 exactly when the push returns 0. *)
Theorem checkpoint_push_is_guarded (a : Args) (tr : list Event) (r : exn + Z) :
  exec (main format a) tr r ->
  forall root rem b proc,
    In (["git"; "-C"; root; "push"; rem; b], proc) (captured tr) ->
    b <> "" /\
    (truthy (branch a) = true -> branch a = Some b) /\
    (truthy (branch a) = false ->
     exists head,
       In (["git"; "-C"; root; "rev-parse"; "--abbrev-ref"; "HEAD"], head)
         (captured tr) /\
       returncode head = 0%Z /\ strip (stdout head) = b /\ b <> "HEAD") /\
    (exists check,
       In (["git"; "-C"; root; "remote"; "get-url"; rem], check) (captured tr) /\
       returncode check = 0%Z) /\
    (forall root' msg cp,
       In (["git"; "-C"; root'; "commit"; "-m"; msg], cp) (captured tr) ->
       returncode cp = 0%Z) /\
    (r = inr 0%Z <-> returncode proc = 0%Z).
Proof.
  intros H root rem b proc. unfold_main H.
  exec_all H; decide_codes.
  all: repeat match goal with
       | E : _ || _ = true |- _ => apply orb_true_iff in E
       | E : _ || _ = false |- _ => apply orb_false_iff in E as [? ?]
       | E : String.eqb _ _ = false |- _ => apply String.eqb_neq in E
       end.
  all: repeat match goal with x : unit |- _ => destruct x end.
  all: unfold git_add, git_commit, git_push, git_diff_cached; simpl.
  all: intros Hin; split_or Hin; try discriminate Hin.
  all: injection Hin as <- <- <- <-.
  all: try match goal with
       | E : truthy (branch _) = true |- _ =>
           let x := fresh "b" in let Hx := fresh in
           destruct (checkpoint_truthy_Some _ E) as (x & Hx & ?); rewrite Hx in *; simpl
       end.
  all: split; [assumption|].
  all: split; [first [intros _; reflexivity | intros Hc; discriminate Hc]|].
  all: split; [first [ intros Hc; discriminate Hc
                     | intros _; eexists;
                       split; [repeat first [left; reflexivity | right]|];
                       repeat split; assumption ]|].
  all: split; [eexists; split;
               [repeat first [left; reflexivity | right] | assumption]|].
  all: split; [intros root' msg cp Hc; split_or Hc; try discriminate Hc;
               apply (f_equal snd) in Hc; simpl in Hc; subst cp; assumption|].
  all: split; [intros Hr; first [assumption | discriminate Hr]
              | intros Hr; first [reflexivity | contradiction]].
Qed.

#[local] Arguments summary_json : simpl never.

(** X21: the record of the checkpoint helper is truthful.  [main]
    returns 0 exactly when it has printed its record, as the last thing
    it did.  The record says that a commit was due exactly when the
    count is a multiple of the commit interval, and likewise for the
    push; that a commit was done exactly when a [git commit] of the run
    returned 0, and a push exactly when a [git push] to the given remote
    returned 0; and a commit that was due and not done is recorded as
    skipped for want of staged changes. *)
Theorem checkpoint_record_is_truthful (a : Args) (tr : list Event) (r : exn + Z) :
  exec (main format a) tr r ->
  (r = inr 0%Z <-> reported tr <> []) /\
  (forall j, In j (reported tr) ->
     exists pre repo s,
       tr = (pre ++ [Answered (PrintJson j) tt])%list /\
       j = summary_json repo (processed_count a) s /\
       commit_due s = (processed_count a mod commit_every a =? 0)%Z /\
       push_due s = (processed_count a mod push_every a =? 0)%Z /\
       (commit_done s = true <->
        exists msg proc,
          In (git_commit repo msg, proc) (captured tr) /\ returncode proc = 0%Z) /\
       (push_done s = true <->
        exists b proc,
          In (git_push repo (remote a) b, proc) (captured tr) /\
          returncode proc = 0%Z) /\
       (commit_due s = true -> commit_done s = false ->
        commit_skipped s = Some "no staged output changes")).
Proof.
  intros H. unfold_main H.
  exec_all H.
  all: repeat match goal with x : unit |- _ => destruct x end.
  all: split; [split; [try discriminate; intros _; simpl; discriminate
                      | try reflexivity; intros Hn; simpl in Hn;
                        now contradiction Hn]|].
  all: intros j Hj; simpl in Hj; split_or Hj; subst j.
  all: decide_codes.
  all: do 3 eexists; split; [split_last|]; split; [reflexivity|].
  all: cbn [commit_due push_due commit_done push_done commit_skipped].
  all: split; [first [reflexivity | symmetry; assumption
                     | symmetry; now apply Z.eqb_eq
                     | symmetry; now apply Z.eqb_neq]|].
  all: split; [first [reflexivity | symmetry; assumption
                     | symmetry; now apply Z.eqb_eq
                     | symmetry; now apply Z.eqb_neq]|].
  all: unfold git_add, git_commit, git_push, git_diff_cached; simpl.
  all: split; [split;
               [ first [ intros Hd; discriminate Hd
                       | intros _; do 2 eexists; split;
                         [repeat first [left; reflexivity | right] | assumption] ]
               | first [ reflexivity
                       | intros (msg & proc & Hin & Hrc); exfalso;
                         split_or Hin; discriminate Hin ] ]|].
  all: split; [split;
               [ first [ intros Hd; discriminate Hd
                       | intros _; do 2 eexists; split;
                         [repeat first [left; reflexivity | right] | assumption] ]
               | first [ reflexivity
                       | intros (b & proc & Hin & Hrc); exfalso;
                         split_or Hin; discriminate Hin ] ]|].
  all: first [ intros _ _; reflexivity
             | intros Hd; discriminate Hd
             | intros _ Hd; discriminate Hd ].
Qed.

End Main.

(** The twentieth paper in the scenario: staged, committed, pushed. *)
Lemma checkpoint_acts_on_intervals_twenty :
  (20 mod commit_every (default_args 20) = 0)%Z /\
  "origin" = remote (default_args 20).
Proof.
  destruct (checkpoint_acts_on_intervals format_count (default_args 20) _ _
              (run_exec handle (main format_count (default_args 20))
                 Scenario.host_results))
    as (_ & _ & Hcommit & Hpush).
  split.
  - refine (proj1 (Hcommit "/repo" "cfst-output: processed 20 papers" _)).
    vm_compute. do 3 right. left. reflexivity.
  - refine (proj2 (Hpush "/repo" "origin" "main" _)).
    vm_compute. do 6 right. left. reflexivity.
Defined.

Lemma checkpoint_push_is_guarded_twenty :
  (run handle (main format_count (default_args 20)) Scenario.host_results).1.1
  = inr 0%Z.
Proof.
  refine (proj2 (proj2 (proj2 (proj2 (proj2 (proj2
            (checkpoint_push_is_guarded format_count (default_args 20) _ _
               (run_exec handle (main format_count (default_args 20))
                  Scenario.host_results)
               "/repo" "origin" "main" (git_ok "") _)))))) eq_refl).
  vm_compute. do 6 right. left. reflexivity.
Defined.

Lemma checkpoint_record_is_truthful_twenty :
  let out := run handle (main format_count (default_args 20)) Scenario.host_results in
  let j := List.hd [] (reported out.2) in
  exists pre repo s,
    out.2 = (pre ++ [Answered (PrintJson j) tt])%list /\
    j = summary_json repo (processed_count (default_args 20)) s /\
    commit_due s = (processed_count (default_args 20)
                    mod commit_every (default_args 20) =? 0)%Z /\
    push_due s = (processed_count (default_args 20)
                  mod push_every (default_args 20) =? 0)%Z /\
    (commit_done s = true <->
     exists msg proc,
       In (git_commit repo msg, proc) (captured out.2) /\ returncode proc = 0%Z) /\
    (push_done s = true <->
     exists b proc,
       In (git_push repo (remote (default_args 20)) b, proc) (captured out.2) /\
       returncode proc = 0%Z) /\
    (commit_due s = true -> commit_done s = false ->
     commit_skipped s = Some "no staged output changes").
Proof.
  refine (proj2 (checkpoint_record_is_truthful format_count (default_args 20) _ _
                   (run_exec handle (main format_count (default_args 20))
                      Scenario.host_results)) _ _).
  vm_compute. left. reflexivity.
Defined.

End CheckpointMore.

Module StagedFacts.
Import PyStr PyPath Sys Slug SysFacts PathFacts Checkpoint World Traces Listing.
Import StrFacts CheckpointFacts ListingFacts SlugMore.

Lemma filter_sublist {A} (f : A -> bool) l : sublist (List.filter f l) l.
Proof.
  induction l as [|x l IH]; simpl; [constructor|].
  destruct (f x); now constructor.
Qed.

(** X22: [_only_output_files] sorts the paths into those under the
    output directory and the others.  The list it returns holds, in the
    order given, exactly the paths whose components do not begin with
    the components of the output directory, back slashes read as
    slashes; and its flag is true exactly when that list is empty, that
    is when every path lies under the output directory. *)
Theorem only_output_files_partition (paths : list string) (output_dir : string) :
  let res := _only_output_files paths output_dir in
  (forall p, In p res.2 <->
             In p paths /\ ~ lies_under (clean_dir output_dir) p) /\
  sublist res.2 paths /\
  (res.1 = true <-> res.2 = []) /\
  (res.1 = true <-> Forall (lies_under (clean_dir output_dir)) paths).
Proof.
  cbv zeta. unfold _only_output_files. cbn [fst snd].
  split; [|split; [|split]].
  - intros p. rewrite List.filter_In, negb_true_iff.
    rewrite <- is_output_path_lies_under.
    destruct (is_output_path (clean_dir output_dir) p); intuition congruence.
  - apply filter_sublist.
  - rewrite Nat.eqb_eq. split.
    + intros H. now apply List.length_zero_iff_nil.
    + intros ->. reflexivity.
  - apply (only_output_files_spec paths output_dir).
Qed.

Lemma only_output_files_partition_sibling :
  (_only_output_files ["output/a.json"; "outputs/b.json"; "output"; "out\put"]
     "/output/").2
  = ["outputs/b.json"; "out\put"].
Proof. vm_compute. reflexivity. Qed.

(** The lines of names that [git diff --name-only] prints. *)
Lemma name_lines_names names :
  forallb (fun x => negb (String.eqb x "") && one_line x && trimmed x) names = true ->
  name_lines (List.fold_right (fun x acc => x +:+ nl +:+ acc) "" names) = names.
Proof.
  unfold name_lines, splitlines.
  induction names as [|x names IH]; intros H; [reflexivity|].
  simpl in H. apply andb_prop in H as [Hx H].
  apply andb_prop in Hx as [Hx Ht]. apply andb_prop in Hx as [Hne Hl].
  cbn [List.fold_right]. rewrite splitlines_line by exact Hl.
  apply String.eqb_eq in Ht. apply negb_true_iff in Hne.
  cbn [List.filter]. unfold nonblank at 1. rewrite Ht, Hne. cbn [negb List.map].
  rewrite Ht. f_equal. now apply IH.
Qed.



End StagedFacts.

Module SafeCalcMore.
Import PyStr SafeCalc CalcVars SafeCalcFacts.

Section Eval.

Variable F : Type.
Variable float_of_int : Z -> calc_exn + F.
Variables op_add op_sub op_mul op_truediv op_pow op_mod op_floordiv
  : F -> F -> calc_exn + F.
Variables op_pos op_neg : F -> F.

Abbreviation eval_node :=
  (_eval_node F float_of_int op_add op_sub op_mul op_truediv op_pow op_mod
     op_floordiv op_pos op_neg).
Abbreviation allowed_bin :=
  (ALLOWED_BIN_OPS F op_add op_sub op_mul op_truediv op_pow op_mod op_floordiv).

(** X24: the evaluator refuses no expression made of the admitted
    forms.  Where the conversion of integers and the seven operators
    raise no [ValueError] of their own, the evaluation of an admitted
    expression never ends in a [ValueError]: it gives a value or the
    error of the arithmetic.  Where they never raise at all, an
    expression has a value exactly when it is made of the admitted
    forms. *)
Theorem admitted_is_evaluated (variables : gmap string F) (node : expr F) :
  ((forall z msg, float_of_int z <> inl (ValueError msg)) ->
   (forall op f x y msg, allowed_bin op = Some f -> f x y <> inl (ValueError msg)) ->
   admitted F variables node ->
   forall msg, eval_node node variables <> inl (ValueError msg)) /\
  ((forall z, exists v, float_of_int z = inr v) ->
   (forall op f x y, allowed_bin op = Some f -> exists v, f x y = inr v) ->
   (admitted F variables node <-> exists v, eval_node node variables = inr v)).
Proof.
  split.
  - intros Hint Hops Hadm. induction Hadm as [c Hc|id Hid|l op r Hop _ IHl _ IHr|op e Hop _ IHe];
      intros msg; simpl.
    + destruct c; simpl in Hc; try contradiction; try apply Hint; discriminate.
    + destruct Hid as [x ->]. discriminate.
    + apply (allowed_bin_arithmetic F op_add op_sub op_mul op_truediv op_pow
               op_mod op_floordiv) in Hop as [f Hf]. rewrite Hf.
      destruct (eval_node l variables) as [el|lv] eqn:El; [apply IHl|].
      destruct (eval_node r variables) as [er|rv] eqn:Er; [apply IHr|].
      now apply (Hops op).
    + apply (allowed_unary_sign F op_pos op_neg) in Hop as [f Hf]. rewrite Hf.
      destruct (eval_node e variables) as [ee|x] eqn:Ee; [apply IHe | discriminate].
  - intros Hint Hops. split; [|intros [v Hv]; eapply eval_value_admitted, Hv].
    intros Hadm. induction Hadm as [c Hc|id Hid|l op r Hop _ IHl _ IHr|op e Hop _ IHe];
      simpl.
    + destruct c; simpl in Hc; try contradiction; try apply Hint; eauto.
    + destruct Hid as [x ->]. eauto.
    + apply (allowed_bin_arithmetic F op_add op_sub op_mul op_truediv op_pow
               op_mod op_floordiv) in Hop as [f Hf]. rewrite Hf.
      destruct IHl as [lv ->]. destruct IHr as [rv ->]. now apply (Hops op).
    + apply (allowed_unary_sign F op_pos op_neg) in Hop as [f Hf]. rewrite Hf.
      destruct IHe as [x ->]. eauto.
Qed.

(** X25: the evaluation reads only the variables the expression names:
    two variable maps that agree on these names give the same result,
    value or error. *)
Theorem eval_reads_named_variables (node : expr F) (v1 v2 : gmap string F) :
  (forall id, In id (names node) -> v1 !! id = v2 !! id) ->
  eval_node node v1 = eval_node node v2.
Proof.
  induction node as [c|id|l IHl op r IHr|op e IHe|k]; intros H; simpl in *.
  - reflexivity.
  - rewrite (H id) by now left. reflexivity.
  - rewrite IHl, IHr; [reflexivity | |];
      intros id Hid; apply H, in_or_app; auto.
  - now rewrite IHe.
  - reflexivity.
Qed.

End Eval.

Lemma calc_ops_no_value_error op f x y msg :
  ALLOWED_BIN_OPS Q CalcScenario.add CalcScenario.sub CalcScenario.mul
    (CalcScenario.guarded Qdiv) CalcScenario.q_pow
    (CalcScenario.guarded CalcScenario.q_mod)
    (CalcScenario.guarded CalcScenario.q_floordiv) op = Some f ->
  f x y <> inl (ValueError msg).
Proof.
  destruct op; simpl; intros [= <-];
    unfold CalcScenario.add, CalcScenario.sub, CalcScenario.mul,
      CalcScenario.guarded, CalcScenario.q_pow, CalcScenario.zero_division;
    repeat match goal with |- context [if ?b then _ else _] => destruct b end;
    discriminate.
Qed.

(** Halving in exact arithmetic, and a division by zero. *)
Lemma admitted_is_evaluated_division :
  admitted Q ∅ (BinOp (Constant (CInt 1)) Div (Constant (CInt 0))) /\
  forall msg,
    CalcScenario.eval (BinOp (Constant (CInt 1)) Div (Constant (CInt 0))) ∅
    <> inl (ValueError msg).
Proof.
  assert (admitted Q ∅ (BinOp (Constant (CInt 1)) Div (Constant (CInt 0)))) as Ha.
  { constructor; [right; right; right; left; reflexivity | |];
      constructor; exact I. }
  split; [exact Ha|].
  apply (proj1 (admitted_is_evaluated Q CalcScenario.of_int
                  CalcScenario.add CalcScenario.sub CalcScenario.mul
                  (CalcScenario.guarded Qdiv) CalcScenario.q_pow
                  (CalcScenario.guarded CalcScenario.q_mod)
                  (CalcScenario.guarded CalcScenario.q_floordiv)
                  CalcScenario.pos Qopp ∅
                  (BinOp (Constant (CInt 1)) Div (Constant (CInt 0))))).
  - intros z msg. discriminate.
  - apply calc_ops_no_value_error.
  - exact Ha.
Defined.

Lemma eval_reads_named_variables_unused :
  CalcScenario.eval CalcScenario.x_plus_one {[ "x" := 2%Q ]}
  = CalcScenario.eval CalcScenario.x_plus_one {[ "x" := 2%Q; "y" := 5%Q ]}.
Proof.
  apply (eval_reads_named_variables Q CalcScenario.of_int
           CalcScenario.add CalcScenario.sub CalcScenario.mul
           (CalcScenario.guarded Qdiv) CalcScenario.q_pow
           (CalcScenario.guarded CalcScenario.q_mod)
           (CalcScenario.guarded CalcScenario.q_floordiv)
           CalcScenario.pos Qopp CalcScenario.x_plus_one).
  intros id Hid. simpl in Hid. destruct Hid as [<-|[]]. reflexivity.
Defined.

Section Vars.

Variable F : Type.
Variable isidentifier : string -> bool.
Variable float_of_str : string -> option F.

Abbreviation parse_from := (parse_vars_from F isidentifier float_of_str).
Abbreviation well := (well_formed F isidentifier float_of_str).
Abbreviation last_of := (last_value F float_of_str).

Lemma parse_vars_from_ok items (variables : gmap string F) :
  forallb well items = true ->
  exists m,
    parse_from items variables = inr m /\
    forall name,
      m !! name = match last_of name items with
                  | Some x => Some x
                  | None => variables !! name
                  end.
Proof.
  revert variables. induction items as [|raw rest IH]; intros variables H.
  - exists variables. split; reflexivity.
  - cbn [forallb] in H. apply andb_prop in H as [Hw H]. unfold well_formed in Hw.
    apply andb_prop in Hw as [Hw Hf]. apply andb_prop in Hw as [Hc Hi].
    apply bool_decide_eq_true in Hf as [x Hx].
    destruct (IH (<[var_name raw := x]> variables) H) as (m & Hm & Hl).
    exists m. cbn [parse_vars_from]. rewrite Hc, Hi. cbn [negb]. rewrite Hx.
    split; [exact Hm|].
    intros name. rewrite Hl. cbn [last_value].
    destruct (last_of name rest) as [y|]; [reflexivity|].
    destruct (String.eqb_spec (var_name raw) name) as [->|Hne].
    + now rewrite lookup_insert_eq, Hx.
    + now rewrite lookup_insert_ne.
Qed.

Lemma parse_vars_from_bad items (variables : gmap string F) :
  forallb well items = false ->
  exists msg, parse_from items variables = inl (ValueError msg).
Proof.
  revert variables. induction items as [|raw rest IH]; intros variables H;
    [discriminate|].
  cbn [forallb] in H. cbn [parse_vars_from].
  destruct (contains "=" raw) eqn:Hc; cbn [negb]; [|eauto].
  destruct (isidentifier (var_name raw)) eqn:Hi; cbn [negb]; [|eauto].
  destruct (float_of_str (var_text raw)) as [x|] eqn:Hx; [|eauto].
  apply IH. unfold well_formed in H. rewrite Hc, Hi, Hx in H.
  rewrite bool_decide_eq_true_2 in H by eauto. exact H.
Qed.

Lemma last_of_In raw items :
  In raw items -> forallb well items = true ->
  is_Some (last_of (var_name raw) items).
Proof.
  induction items as [|x rest IH]; intros Hin H; [destruct Hin|].
  cbn [forallb] in H. apply andb_prop in H as [Hw H]. cbn [last_value].
  destruct Hin as [->|Hin].
  - destruct (last_of (var_name raw) rest); [eauto|].
    rewrite String.eqb_refl. unfold well_formed in Hw.
    apply andb_prop in Hw as [_ Hf]. now apply bool_decide_eq_true in Hf.
  - destruct (IH Hin H) as [y ->]. eauto.
Qed.


End Vars.


End SafeCalcMore.

Module AgreementFacts.
Import PyStr PyPath Sys SysFacts PathFacts World Traces.
Import SandboxFacts TraceFacts.

Lemma resolve_under_world w wt rel label abs r :
  (run handle (WorkerSandbox._resolve_under wt rel label) w).1.1 = inr (abs, r) ->
  is_absolute (of_str rel) = false /\ abs = canon w (wt // rel).
Proof.
  unfold WorkerSandbox._resolve_under.
  destruct (is_absolute (of_str rel)) eqn:E; [discriminate|].
  cbn [bind trigger run handle].
  destruct (relative_to (canon w (joinpath wt (of_str rel))) wt); simpl;
    [|discriminate].
  intros [= <- _]. split; reflexivity.
Qed.

(** X27: the gate mounts what the manifest lists.  In the reference
    environment, for one worktree and the same three relative paths, the
    paths [main] of the sandbox gate resolves and binds -- the payload and
    the output directory read-write, [SKILL.md], [references] and
    [scripts] of the policy bundle read-only -- are the entries of the
    read-write and read-only lists that [_build_sandbox_paths] computes
    for the record of [create], in the same order. *)
Theorem gate_mounts_the_manifest (w : World) (wt : Path)
  (paper_rel skill_rel output_dir : string)
  (pa sa oa : Path) (prel srel orel : string) :
  (run handle (WorkerSandbox._resolve_under wt paper_rel "Paper dir") w).1.1
  = inr (pa, prel) ->
  (run handle (WorkerSandbox._resolve_under wt skill_rel "Skill dir") w).1.1
  = inr (sa, srel) ->
  (run handle (WorkerSandbox._resolve_under wt output_dir "Output dir") w).1.1
  = inr (oa, orel) ->
  let sb := (run handle
               (GitWorktree._build_sandbox_paths wt paper_rel skill_rel output_dir)
               w).1.1 in
  exists rw1 rw2 ro1 ro2 ro3,
    GitWorktree.allowed_rw sb = [rw1; rw2] /\
    GitWorktree.allowed_ro sb = [ro1; ro2; ro3] /\
    GitWorktree.entry_cwd sb = rw1 /\
    forall mode cmd,
      WorkerSandbox.task_binds pa oa sa prel orel srel mode cmd
      = (["--bind"; rw1; "/workspace/" +:+ prel;
          "--bind"; rw2; "/workspace/" +:+ orel;
          "--ro-bind"; ro1; "/workspace/" +:+ srel +:+ "/SKILL.md";
          "--ro-bind"; ro2; "/workspace/" +:+ srel +:+ "/references";
          "--ro-bind"; ro3; "/workspace/" +:+ srel +:+ "/scripts";
          "--chdir";
          match mode with
          | WorkerSandbox.workspace => "/workspace"
          | WorkerSandbox.paper => "/workspace/" +:+ prel
          end] ++ cmd)%list.
Proof.
  intros Hp Hs Ho.
  apply resolve_under_world in Hp as [_ ->].
  apply resolve_under_world in Hs as [_ ->].
  apply resolve_under_world in Ho as [_ ->].
  cbv zeta. unfold GitWorktree._build_sandbox_paths.
  cbn [bind trigger run handle fst snd GitWorktree.allowed_rw
       GitWorktree.allowed_ro GitWorktree.entry_cwd].
  do 5 eexists. repeat split.
Qed.

Lemma gate_mounts_the_manifest_scenario :
  let sb := (run handle
               (GitWorktree._build_sandbox_paths Scenario.wt "papers/P1"
                  ".codex/skills/cfst-paper-extractor" "tmp/P1")
               Scenario.staged).1.1 in
  exists rw1 rw2 ro1 ro2 ro3,
    GitWorktree.allowed_rw sb = [rw1; rw2] /\
    GitWorktree.allowed_ro sb = [ro1; ro2; ro3] /\
    GitWorktree.entry_cwd sb = rw1 /\
    forall mode cmd,
      WorkerSandbox.task_binds (Scenario.wt // "papers/P1") (Scenario.wt // "tmp/P1")
        (Scenario.wt // ".codex/skills/cfst-paper-extractor")
        "papers/P1" "tmp/P1" ".codex/skills/cfst-paper-extractor" mode cmd
      = (["--bind"; rw1; "/workspace/" +:+ "papers/P1";
          "--bind"; rw2; "/workspace/" +:+ "tmp/P1";
          "--ro-bind"; ro1;
          "/workspace/" +:+ ".codex/skills/cfst-paper-extractor" +:+ "/SKILL.md";
          "--ro-bind"; ro2;
          "/workspace/" +:+ ".codex/skills/cfst-paper-extractor" +:+ "/references";
          "--ro-bind"; ro3;
          "/workspace/" +:+ ".codex/skills/cfst-paper-extractor" +:+ "/scripts";
          "--chdir";
          match mode with
          | WorkerSandbox.workspace => "/workspace"
          | WorkerSandbox.paper => "/workspace/" +:+ "papers/P1"
          end] ++ cmd)%list.
Proof.
  apply (gate_mounts_the_manifest Scenario.staged Scenario.wt "papers/P1"
           ".codex/skills/cfst-paper-extractor" "tmp/P1").
  - vm_compute. reflexivity.
  - vm_compute. reflexivity.
  - vm_compute. reflexivity.
Defined.

End AgreementFacts.

Module CopyState.
Import PyStr PyPath Sys SysFacts PathFacts World WorldFacts GitWorktree FileTree.

Lemma key_clean w p :
  is_absolute p = true -> ~ has_dotdot p -> key w p = parts p.
Proof.
  intros A D. unfold key, canon. rewrite A. now rewrite normpath_clean.
Qed.

Lemma key_cwd w w' p : w_cwd w' = w_cwd w -> key w' p = key w p.
Proof. unfold key, canon. now intros ->. Qed.

Lemma In_removelast {A} (x : A) l : In x (List.removelast l) -> In x l.
Proof.
  induction l as [|a l IH]; [auto|].
  destruct l as [|b l]; [simpl; tauto|].
  change (List.removelast (a :: b :: l)) with (a :: List.removelast (b :: l)).
  intros [->|H]; [now left | right; now apply IH].
Qed.

Lemma key_parent w p :
  is_absolute p = true -> ~ has_dotdot p ->
  key w (parent p) = List.removelast (parts p).
Proof.
  intros A D. apply (key_clean w (parent p)); [exact A|].
  intros H. apply D. apply In_removelast. exact H.
Qed.

Lemma removelast_prefix {A} (l : list A) : List.removelast l `prefix_of` l.
Proof.
  induction l as [|a l IH]; [reflexivity|].
  destruct l as [|b l]; [apply prefix_nil|].
  change (List.removelast (a :: b :: l)) with (a :: List.removelast (b :: l)).
  apply prefix_cons. exact IH.
Qed.

Lemma removelast_length {A} (l : list A) :
  l <> [] -> S (List.length (List.removelast l)) = List.length l.
Proof.
  induction l as [|a l IH]; intros H; [congruence|].
  destruct l as [|b l]; [reflexivity|].
  change (List.removelast (a :: b :: l)) with (a :: List.removelast (b :: l)).
  simpl List.length. f_equal. apply IH. discriminate.
Qed.

Lemma In_ways k p : In k (ways p) -> k `prefix_of` p /\ k <> [].
Proof.
  unfold ways. rewrite in_map_iff. intros (n & <- & Hn).
  apply in_seq in Hn. split.
  - exists (drop n p). now rewrite take_drop.
  - intros E. apply (f_equal List.length) in E.
    rewrite length_take in E. simpl in E. lia.
Qed.

Lemma prefix_app_cases {A} (a b rest : list A) :
  a `prefix_of` (b ++ rest)%list -> a `prefix_of` b \/ b `prefix_of` a.
Proof.
  revert b. induction a as [|x a IH]; intros b H.
  - left. apply prefix_nil.
  - destruct b as [|y b].
    + right. apply prefix_nil.
    + simpl in H. destruct H as [t Ht]. simpl in Ht. injection Ht as <- Ht.
      destruct (IH b) as [P|P].
      * exists t. exact Ht.
      * left. now apply prefix_cons.
      * right. now apply prefix_cons.
Qed.

Lemma lookup_remove_subtree_ne (d : list string) (fs : gmap (list string) Kind)
  (k : list string) :
  ~ d `prefix_of` k -> remove_subtree d fs !! k = fs !! k.
Proof.
  intros H. unfold remove_subtree.
  destruct (fs !! k) as [v|] eqn:E.
  - apply map_lookup_filter_Some. split; [exact E | exact H].
  - apply map_lookup_filter_None. left. exact E.
Qed.

Lemma lookup_mkdirs_in (ds : list (list string)) (fs : gmap (list string) Kind) k :
  In k ds -> List.fold_right (fun d fs => <[d := Dir]> fs) fs ds !! k = Some Dir.
Proof.
  induction ds as [|d ds IH]; simpl; [tauto|]. intros H.
  destruct (decide (d = k)) as [->|Hne].
  - now rewrite lookup_insert_eq.
  - rewrite lookup_insert_ne by exact Hne. apply IH. tauto.
Qed.

Lemma lookup_mkdirs_out (ds : list (list string)) (fs : gmap (list string) Kind) k :
  ~ In k ds -> List.fold_right (fun d fs => <[d := Dir]> fs) fs ds !! k = fs !! k.
Proof.
  induction ds as [|d ds IH]; simpl; [reflexivity|]. intros H.
  rewrite lookup_insert_ne by tauto. apply IH. tauto.
Qed.

Lemma foldr_insert_union (l : list (list string * Kind))
  (fs : gmap (list string) Kind) :
  List.fold_right (fun kv fs => <[kv.1 := kv.2]> fs) fs l
  = (list_to_map l : gmap (list string) Kind) ∪ fs.
Proof.
  induction l as [|[k v] l IH]; simpl.
  - now rewrite (left_id_L ∅ (∪)).
  - rewrite IH. now rewrite insert_union_l.
Qed.

Lemma elem_of_moved (s d : list string) (fs : gmap (list string) Kind) k v :
  (k, v) ∈ moved s d fs <->
  exists rest, k = (d ++ rest)%list /\ fs !! (s ++ rest)%list = Some v.
Proof.
  unfold moved. rewrite list_elem_of_omap. split.
  - intros ([k0 v0] & Hin & Hf). apply elem_of_map_to_list in Hin. simpl in Hf.
    destruct (strip_prefix s k0) as [rest|] eqn:S; [|discriminate].
    apply strip_prefix_Some in S. injection Hf as <- <-.
    exists rest. subst k0. auto.
  - intros (rest & -> & Hl). exists ((s ++ rest)%list, v). split.
    + now apply elem_of_map_to_list.
    + simpl. now rewrite (proj2 (strip_prefix_Some s _ rest) eq_refl).
Qed.

Lemma lookup_copied (s d : list string) (fs : gmap (list string) Kind) rest :
  (forall r, fs !! (d ++ r)%list = None) ->
  List.fold_right (fun kv fs => <[kv.1 := kv.2]> fs) fs (moved s d fs)
    !! (d ++ rest)%list
  = fs !! (s ++ rest)%list.
Proof.
  intros Hd. rewrite foldr_insert_union.
  destruct (fs !! (s ++ rest)%list) as [v|] eqn:E.
  - apply lookup_union_Some_l.
    destruct ((list_to_map (moved s d fs) : gmap (list string) Kind)
                !! (d ++ rest)%list) as [v'|] eqn:L.
    + apply elem_of_list_to_map_2 in L. apply elem_of_moved in L.
      destruct L as (r & Hr & Hv). apply app_inv_head in Hr. subst r. congruence.
    + apply not_elem_of_list_to_map in L. exfalso. apply L.
      apply list_elem_of_fmap. exists ((d ++ rest)%list, v). split; [reflexivity|].
      apply elem_of_moved. eauto.
  - rewrite lookup_union_r; [apply Hd|].
    destruct ((list_to_map (moved s d fs) : gmap (list string) Kind)
                !! (d ++ rest)%list) as [v'|] eqn:L; [|reflexivity].
    apply elem_of_list_to_map_2 in L. apply elem_of_moved in L.
    destruct L as (r & Hr & Hv). apply app_inv_head in Hr. subst r. congruence.
Qed.

Lemma lookup_copied_ne (s d : list string) (fs : gmap (list string) Kind) k :
  ~ d `prefix_of` k ->
  List.fold_right (fun kv fs => <[kv.1 := kv.2]> fs) fs (moved s d fs) !! k
  = fs !! k.
Proof.
  intros Hk. rewrite foldr_insert_union. apply lookup_union_r.
  destruct ((list_to_map (moved s d fs) : gmap (list string) Kind) !! k)
    as [v'|] eqn:L; [|reflexivity].
  apply elem_of_list_to_map_2 in L. apply elem_of_moved in L.
  destruct L as (r & -> & _). exfalso. apply Hk. now exists r.
Qed.

Lemma filter_all {A} (f : A -> bool) l :
  forallb f l = true -> List.filter f l = l.
Proof.
  induction l as [|a l IH]; simpl; [reflexivity|].
  destruct (f a); simpl; [|discriminate]. intros H. now rewrite IH.
Qed.

Lemma rmtree_ok w k w1 :
  rmtree w k = (None, w1) ->
  w_fs w !! k = Some Dir /\ w1 = with_fs w (remove_subtree k (w_fs w)).
Proof.
  unfold rmtree. destruct (bool_decide (w_fs w !! k = Some Dir)) eqn:E; simpl;
    [|discriminate].
  destruct (denied w k); [discriminate|]. intros [= <-].
  split; [now apply bool_decide_eq_true in E | reflexivity].
Qed.

Lemma unlink_ok w k w1 :
  unlink w k = (None, w1) ->
  w_fs w !! k = Some File /\ w1 = with_fs w (delete k (w_fs w)).
Proof.
  unfold unlink. destruct (bool_decide (w_fs w !! k = Some File)) eqn:E; simpl;
    [|discriminate].
  destruct (denied w k); [discriminate|]. intros [= <-].
  split; [now apply bool_decide_eq_true in E | reflexivity].
Qed.

Lemma mkdir_p_ok w k w1 :
  mkdir_p w k = (None, w1) ->
  (forall d, In d (ways k) -> w_fs w !! d <> Some File) /\
  w1 = with_fs w (List.fold_right (fun d fs => <[d := Dir]> fs) (w_fs w) (ways k)).
Proof.
  unfold mkdir_p.
  destruct (existsb (fun d => bool_decide (w_fs w !! d = Some File)) (ways k))
    eqn:E1; [discriminate|].
  destruct (existsb (fun d => bool_decide (w_fs w !! d = None) && denied w d)
              (ways k)); [discriminate|].
  intros [= <-]. split; [|reflexivity].
  intros d Hd Hf.
  assert (existsb (fun d => bool_decide (w_fs w !! d = Some File)) (ways k) = true)
    as Hex; [|congruence].
  apply existsb_exists. exists d. split; [exact Hd|].
  now apply bool_decide_eq_true.
Qed.

Lemma copytree_ok w s d w1 :
  copytree w s d = (None, w1) ->
  w_fs w !! s = Some Dir /\ w_fs w !! d = None /\
  w1 = with_fs w (List.fold_right (fun kv fs => <[kv.1 := kv.2]> fs) (w_fs w)
                    (moved s d (w_fs w))).
Proof.
  unfold copytree.
  destruct (bool_decide (w_fs w !! s = Some Dir)) eqn:E; simpl; [|discriminate].
  destruct (bool_decide (is_Some (w_fs w !! d))) eqn:E'; [discriminate|].
  destruct (denied w d); [discriminate|].
  destruct (forallb _ (moved s d (w_fs w))) eqn:F; [|discriminate].
  intros [= <-]. rewrite (filter_all _ _ F).
  apply bool_decide_eq_true in E. apply bool_decide_eq_false in E'.
  repeat split; [exact E|].
  destruct (w_fs w !! d); [exfalso; apply E'; eauto | reflexivity].
Qed.

Lemma copy2_ok w s d w1 :
  copy2 w s d = (None, w1) ->
  w_fs w !! d = None ->
  w_fs w !! s = Some File /\ w1 = with_fs w (<[d := File]> (w_fs w)).
Proof.
  unfold copy2.
  destruct (bool_decide (w_fs w !! s = Some File)) eqn:E; simpl; [|discriminate].
  intros H Hd. rewrite Hd in H.
  rewrite bool_decide_eq_false_2 in H by discriminate.
  destruct (denied w d); [discriminate|]. injection H as <-.
  split; [now apply bool_decide_eq_true in E | reflexivity].
Qed.

Lemma probe_any w p : probe w p None = bool_decide (is_Some (w_fs w !! key w p)).
Proof.
  unfold probe. destruct (w_fs w !! key w p).
  - symmetry. apply bool_decide_eq_true. eauto.
  - symmetry. apply bool_decide_eq_false. intros [? [=]].
Qed.

Lemma clear_destination w dst r w1 t :
  sound_at (w_fs w) (key w dst) ->
  run handle
    (bind (trigger (Exists dst)) (fun dst_exists =>
       if dst_exists : bool then
         bind (trigger (IsDir dst)) (fun dst_is_dir =>
           if dst_is_dir : bool then attempt (Rmtree dst) else attempt (Unlink dst))
       else ok tt)) w = (inr r, w1, t) ->
  w_cwd w1 = w_cwd w /\
  (forall rest, w_fs w1 !! (key w dst ++ rest)%list = None) /\
  (forall k, ~ key w dst `prefix_of` k -> w_fs w1 !! k = w_fs w !! k).
Proof.
  intros L. cbn [run bind trigger handle].
  destruct (probe w dst None) eqn:Pe.
  - cbn [run bind trigger handle].
    destruct (probe w dst (Some Dir)) eqn:Pd; cbn [run bind trigger attempt handle].
    + destruct (rmtree w (key w dst)) as [[e|] w2] eqn:R; cbn [run raise ok];
        intros [= <- <- <-].
      apply rmtree_ok in R as [_ ->]. cbn [with_fs w_cwd w_fs].
      split; [reflexivity|]. split.
      * intros rest. apply lookup_remove_subtree. now exists rest.
      * intros k Hk. now apply lookup_remove_subtree_ne.
    + destruct (unlink w (key w dst)) as [[e|] w2] eqn:R; cbn [run raise ok];
        intros [= <- <- <-].
      apply unlink_ok in R as [Hf ->]. cbn [with_fs w_cwd w_fs].
      split; [reflexivity|]. split.
      * intros rest. destruct rest as [|x rest].
        -- rewrite app_nil_r. apply lookup_delete_eq.
        -- rewrite lookup_delete_ne.
           ++ apply L; [congruence | discriminate].
           ++ intros E. apply (f_equal List.length) in E.
              rewrite length_app in E. simpl in E. lia.
      * intros k Hk. apply lookup_delete_ne. intros <-. apply Hk. reflexivity.
  - cbn [run ok]. intros [= <- <- <-]. split; [reflexivity|]. split; [|reflexivity].
    intros rest. rewrite probe_any in Pe. apply bool_decide_eq_false in Pe.
    destruct rest as [|x rest].
    + rewrite app_nil_r. destruct (w_fs w !! key w dst); [|reflexivity].
      exfalso. apply Pe. eauto.
    + apply L; [|discriminate]. intros E.
      apply Pe. rewrite E. eauto.
Qed.

(** X28: [_copy_tree] replaces the destination by a copy of the source.
    In the reference environment, for an absolute destination without
    [..] that lies neither inside nor around the source, on a file system
    sound at both places: when [_copy_tree] returns, the tree at the
    destination is the tree the source had -- entry for entry, with
    nothing left of what was there before -- and outside the destination
    the only change is that missing directories on the way to it now
    exist. *)
Theorem copy_tree_replaces_destination (w : World) (src dst : Path) :
  is_absolute dst = true -> ~ has_dotdot dst ->
  ~ key w src `prefix_of` parts dst -> ~ parts dst `prefix_of` key w src ->
  sound_at (w_fs w) (key w src) -> sound_at (w_fs w) (parts dst) ->
  (run handle (_copy_tree src dst) w).1.1 = inr tt ->
  let fs' := w_fs (run handle (_copy_tree src dst) w).1.2 in
  (forall rest,
     fs' !! (parts dst ++ rest)%list = w_fs w !! (key w src ++ rest)%list) /\
  (forall k, ~ parts dst `prefix_of` k ->
     fs' !! k = w_fs w !! k \/
     (w_fs w !! k = None /\ fs' !! k = Some Dir /\ k `prefix_of` parts dst)).
Proof.
  intros A D Hsd Hds Ss Sd.
  pose proof (key_clean w dst A D) as Kd.
  pose proof (key_parent w dst A D) as Kp.
  cbv zeta.
  destruct (run handle (_copy_tree src dst) w) as [[res w'] tr] eqn:R.
  cbn [fst snd]. intros ->. revert R.
  unfold _copy_tree. cbn [run bind trigger handle].
  destruct (probe w src None) eqn:Ps; cbn [negb]; [|cbn; discriminate].
  unfold bindE at 1. rewrite run_bind.
  match goal with |- context [run handle ?p w] =>
    destruct (run handle p w) as [[ra w1] t1] eqn:RA end.
  destruct ra as [e|[]]; [cbn; discriminate|].
  apply clear_destination in RA as (C1 & Below1 & Out1);
    [|rewrite Kd; exact Sd].
  rewrite Kd in Below1, Out1.
  unfold bindE, attempt. cbn [run bind trigger handle].
  rewrite (key_cwd w w1 (parent dst) C1), Kp.
  destruct (mkdir_p w1 (List.removelast (parts dst))) as [[e|] w2] eqn:M;
    [cbn; discriminate|].
  apply mkdir_p_ok in M as [NoFile ->].
  match goal with |- context [with_fs w1 ?fs] => set (w2 := with_fs w1 fs) end.
  assert (w_cwd w2 = w_cwd w) as C2 by exact C1.
  assert (parts dst <> []) as Ne.
  { intros E. apply Hds. rewrite E. apply prefix_nil. }
  assert (forall rest, w_fs w2 !! (parts dst ++ rest)%list = None) as Below2.
  { intros rest. unfold w2. cbn [with_fs w_fs].
    rewrite lookup_mkdirs_out; [apply Below1|].
    intros Hin. apply In_ways in Hin as [P _]. apply prefix_length in P.
    rewrite length_app in P. pose proof (removelast_length _ Ne). lia. }
  assert (forall rest, w_fs w2 !! (key w src ++ rest)%list
                       = w_fs w !! (key w src ++ rest)%list) as Src2.
  { intros rest. unfold w2. cbn [with_fs w_fs].
    rewrite lookup_mkdirs_out.
    - apply Out1. intros P. apply prefix_app_cases in P as [P|P]; tauto.
    - intros Hin. apply In_ways in Hin as [P _]. apply Hsd.
      transitivity (key w src ++ rest)%list; [now exists rest|].
      transitivity (List.removelast (parts dst)); [exact P|].
      apply removelast_prefix. }
  assert (forall k, ~ parts dst `prefix_of` k ->
            w_fs w2 !! k = w_fs w !! k \/
            (w_fs w !! k = None /\ w_fs w2 !! k = Some Dir /\
             k `prefix_of` parts dst)) as Out2.
  { intros k Hk. unfold w2. cbn [with_fs w_fs].
    destruct (decide (k ∈ ways (List.removelast (parts dst)))) as [Hin|Hin];
      rewrite list_elem_of_In in Hin.
    - rewrite (lookup_mkdirs_in _ _ _ Hin).
      pose proof (NoFile k Hin) as NF. rewrite (Out1 k Hk) in NF.
      apply In_ways in Hin as [P _].
      destruct (w_fs w !! k) as [[|]|] eqn:E; [congruence | now left | right].
      repeat split. transitivity (List.removelast (parts dst)); [exact P|].
      apply removelast_prefix.
    - left. rewrite (lookup_mkdirs_out _ _ _ Hin). now apply Out1. }
  clearbody w2. clear NoFile Below1 Out1 C1.
  cbn [run bind ok trigger handle].
  destruct (probe w2 src (Some Dir)) eqn:Pd; cbn [run bind trigger handle];
    rewrite (key_cwd w w2 src C2), (key_cwd w w2 dst C2), Kd.
  - destruct (copytree w2 (key w src) (parts dst)) as [[e|] w3] eqn:Cp;
      cbn [run raise ok]; intros [= <- _ ].
    apply copytree_ok in Cp as (_ & _ & ->). cbn [with_fs w_fs]. split.
    + intros rest. rewrite (lookup_copied _ _ _ _ Below2). apply Src2.
    + intros k Hk. rewrite (lookup_copied_ne _ _ _ _ Hk). now apply Out2.
  - destruct (copy2 w2 (key w src) (parts dst)) as [[e|] w3] eqn:Cp;
      cbn [run raise ok]; intros [= <- _ ].
    apply copy2_ok in Cp as [Hf ->];
      [|rewrite <- (app_nil_r (parts dst)); apply Below2].
    cbn [with_fs w_fs].
    rewrite <- (app_nil_r (key w src)), Src2, app_nil_r in Hf. split.
    + intros [|x rest].
      * rewrite !app_nil_r. rewrite lookup_insert_eq. now rewrite Hf.
      * rewrite lookup_insert_ne.
        -- rewrite Below2. symmetry. apply Ss; [congruence | discriminate].
        -- intros E. apply (f_equal List.length) in E.
           rewrite length_app in E. simpl in E. lia.
    + intros k Hk. rewrite lookup_insert_ne; [now apply Out2|].
      intros <-. apply Hk. reflexivity.
Qed.

Lemma copy_tree_replaces_destination_staged :
  let src := of_str "/repo/papers/P1" in
  let dst := Scenario.wt // "papers/P1" in
  let fs' := w_fs (run handle (_copy_tree src dst) Scenario.staged).1.2 in
  (forall rest,
     fs' !! (parts dst ++ rest)%list
     = w_fs Scenario.staged !! (key Scenario.staged src ++ rest)%list) /\
  (forall k, ~ parts dst `prefix_of` k ->
     fs' !! k = w_fs Scenario.staged !! k \/
     (w_fs Scenario.staged !! k = None /\ fs' !! k = Some Dir /\
      k `prefix_of` parts dst)).
Proof.
  apply (copy_tree_replaces_destination Scenario.staged
           (of_str "/repo/papers/P1") (Scenario.wt // "papers/P1")).
  - reflexivity.
  - vm_compute. intuition discriminate.
  - intros H. apply (bool_decide_eq_true_2 _) in H. vm_compute in H. discriminate.
  - intros H. apply (bool_decide_eq_true_2 _) in H. vm_compute in H. discriminate.
  - intros H. exfalso. apply H. vm_compute. reflexivity.
  - intros H. exfalso. apply H. vm_compute. reflexivity.
  - vm_compute. reflexivity.
Defined.


End CopyState.
